(** * Elevation-data tools: the ASTER downloader and the Mapzen batch extractor

    A shallow embedding of [aster-downloader.py] and [mapzen_downloader.py].
    The file system, the network and the signal that raises the shutdown flag
    are explicit: a file system is a finite map from paths to nodes, the
    network is an oracle that answers the n-th request to a URL, and the
    shutdown flag is read at numbered observation points. *)

From Stdlib Require Import ZArith Lia Ascii String.
From Stdlib.Strings Require Import Byte.
From stdpp Require Import base tactics option list gmap strings.

Local Open Scope Z_scope.

(** ** Python strings *)

Module PyStr.

(** [s.startswith(pre)] *)
Definition startswith (s pre : string) : bool := String.prefix pre s.

(** [sub in s] *)
Fixpoint contains (sub s : string) : bool :=
  String.prefix sub s ||
  match s with
  | EmptyString => false
  | String _ s' => contains sub s'
  end.

(** [s.endswith(suf)]: the last [len(suf)] characters of [s] are [suf]. *)
Definition endswith (s suf : string) : bool :=
  let n := String.length s in
  let m := String.length suf in
  (m <=? n)%nat && String.eqb (String.substring (n - m) m s) suf.

(** [s.lower()] on the ASCII letters. *)
Definition lower_ascii (a : ascii) : ascii :=
  let n := nat_of_ascii a in
  if ((65 <=? n) && (n <=? 90))%nat then ascii_of_nat (n + 32) else a.

Fixpoint lower (s : string) : string :=
  match s with
  | EmptyString => EmptyString
  | String a s' => String (lower_ascii a) (lower s')
  end.

(** [s.split(c)] for a one-character separator: never the empty list. *)
Fixpoint split (c : ascii) (s : string) : list string :=
  match s with
  | EmptyString => [EmptyString]
  | String a s' =>
      if Ascii.eqb a c then EmptyString :: split c s'
      else match split c s' with
           | h :: t => String a h :: t
           | [] => [String a EmptyString]
           end
  end.

(** [l[-1]] on a list of strings that is not empty. *)
Definition last_item (l : list string) : string := List.last l EmptyString.

(** [sep.join(l)] *)
Fixpoint join (sep : string) (l : list string) : string :=
  match l with
  | [] => EmptyString
  | [x] => x
  | x :: l' => x +:+ sep +:+ join sep l'
  end.

(** Index of the last occurrence of [c] in [s] ([s.rfind(c)]), if any. *)
Fixpoint rfind (c : ascii) (s : string) : option nat :=
  match s with
  | EmptyString => None
  | String a s' =>
      match rfind c s' with
      | Some i => Some (S i)
      | None => if Ascii.eqb a c then Some O else None
      end
  end.

End PyStr.

(** ** Paths and the file system *)

Module FS.

(** A path is the tuple of its parts, as [PurePosixPath.parts] gives them:
    an absolute path starts with the part ["/"].  Paths are compared part by
    part; [".."] is an ordinary part and links are not followed. *)
Definition Path := list string.

Definition keep_part (c : string) : bool :=
  negb (String.eqb c "") && negb (String.eqb c ".").

(** [Path(s)]: empty parts and ["."] parts are dropped. *)
Definition parse (s : string) : Path :=
  (if PyStr.startswith s "/" then ["/"] else []) ++
  List.filter keep_part (PyStr.split "/" s).

Definition is_absolute (p : Path) : bool :=
  match p with
  | a :: _ => String.eqb a "/"
  | [] => false
  end.

(** [p / s]: an absolute right operand replaces the left one. *)
Definition joinpath (p : Path) (s : string) : Path :=
  let q := parse s in
  if is_absolute q then q else p ++ q.

(** [p.name]: the last part, empty for ["."] and for the root. *)
Definition name (p : Path) : string :=
  match p with
  | [] => ""
  | a :: p' => if String.eqb a "/" && bool_decide (p' = []) then ""
               else List.last p ""
  end.

(** [p.parent]: the root and ["."] are their own parents. *)
Definition parent (p : Path) : Path :=
  match p with
  | [] => []
  | [a] => if String.eqb a "/" then p else []
  | _ => List.removelast p
  end.

(** [str(p)] *)
Definition str (p : Path) : string :=
  match p with
  | [] => "."
  | a :: p' => if String.eqb a "/" then "/" +:+ PyStr.join "/" p'
               else PyStr.join "/" p
  end.

(** [p.suffix]: from the last dot of the name, unless that dot is the first
    or the last character of the name. *)
Definition suffix (p : Path) : string :=
  let n := name p in
  match PyStr.rfind "." n with
  | Some i =>
      if ((0 <? i) && (i <? String.length n - 1))%nat
      then String.substring i (String.length n - i) n
      else ""
  | None => ""
  end.

(** [p.with_suffix('')]: [None] stands for the [ValueError] that pathlib
    raises on a path with an empty name. *)
Definition with_suffix_empty (p : Path) : option Path :=
  let n := name p in
  if String.eqb n "" then None
  else
    let n' := String.substring 0 (String.length n - String.length (suffix p)) n in
    Some (List.removelast p ++ [n']).

Inductive node :=
| File (content : list byte)
| Dir.

(** The root and the current directory always exist. *)
Definition is_anchor (p : Path) : bool :=
  bool_decide (p = []) || bool_decide (p = ["/"]).

Definition lookup_node (fs : gmap Path node) (p : Path) : option node :=
  if is_anchor p then Some Dir else fs !! p.

(** [p.exists()] *)
Definition exists_ (fs : gmap Path node) (p : Path) : bool :=
  match lookup_node fs p with Some _ => true | None => false end.

Definition is_dir (fs : gmap Path node) (p : Path) : bool :=
  match lookup_node fs p with Some Dir => true | _ => false end.

Definition is_file (fs : gmap Path node) (p : Path) : bool :=
  match lookup_node fs p with Some (File _) => true | _ => false end.

(** [os.mkdir(p)] when [p] is missing; nothing when it is a directory; an
    error ([None]) when it is a file. *)
Definition mkdir_one (fs : gmap Path node) (p : Path) : option (gmap Path node) :=
  match lookup_node fs p with
  | Some Dir => Some fs
  | Some (File _) => None
  | None => Some (<[p := Dir]> fs)
  end.

(** The prefixes of [p] that are not empty, shortest first. *)
Fixpoint prefixes_from (acc p : Path) : list Path :=
  match p with
  | [] => []
  | a :: p' => (acc ++ [a]) :: prefixes_from (acc ++ [a]) p'
  end.

Fixpoint mkdir_all (fs : gmap Path node) (ps : list Path) : option (gmap Path node) :=
  match ps with
  | [] => Some fs
  | p :: ps' =>
      match mkdir_one fs p with
      | Some fs' => mkdir_all fs' ps'
      | None => None
      end
  end.

(** [p.mkdir(parents=True, exist_ok=True)] *)
Definition mkdir_parents (fs : gmap Path node) (p : Path) : option (gmap Path node) :=
  mkdir_all fs (prefixes_from [] p).

(** [open(p, 'wb')]: creates or truncates the file.  It fails when [p] is a
    directory or when the parent of [p] is not a directory. *)
Definition open_wb (fs : gmap Path node) (p : Path) : option (gmap Path node) :=
  if is_dir fs p then None
  else if is_dir fs (parent p) then Some (<[p := File []]> fs)
  else None.

(** Bytes written through a handle opened by [open_wb] are appended. *)
Definition append_bytes (fs : gmap Path node) (p : Path) (b : list byte) : gmap Path node :=
  match fs !! p with
  | Some (File c) => <[p := File (c ++ b)]> fs
  | _ => fs
  end.

(** [open(p, 'rb').read()]: [None] when [p] is missing or a directory. *)
Definition read_file (fs : gmap Path node) (p : Path) : option (list byte) :=
  match lookup_node fs p with
  | Some (File c) => Some c
  | _ => None
  end.

(** [p.unlink()]: [None] when [p] is missing or a directory. *)
Definition unlink (fs : gmap Path node) (p : Path) : option (gmap Path node) :=
  match lookup_node fs p with
  | Some (File _) => Some (delete p fs)
  | _ => None
  end.

(** The entries directly inside directory [d]. *)
Definition children (fs : gmap Path node) (d : Path) : list Path :=
  List.filter (fun p => bool_decide (p ≠ d) && bool_decide (parent p = d))
              (map fst (map_to_list fs)).

(** The entries anywhere below directory [d]. *)
Definition descendants (fs : gmap Path node) (d : Path) : list Path :=
  List.filter (fun p => bool_decide (p ≠ d) && bool_decide (take (length d) p = d))
              (map fst (map_to_list fs)).

End FS.

(** ** aster-downloader.py *)

Module Aster.
Import FS.

(** *** The network *)

(** What [download_file] reads of a [requests] response.  [content_length]
    is the header as [int] reads it: [None] when the header is absent,
    [Some None] when [int] raises [ValueError] on it.  [body] lists the
    chunks that [iter_content] yields; when [body_error] is set the stream
    raises (connection reset, read timeout) after the last of them. *)
Record Response := {
  resp_url : string;
  status_code : Z;
  content_type : option string;
  content_length : option (option Z);
  body : list (list byte);
  body_error : bool
}.

(** The outcome of [session.get]: an exception of [requests] (timeout,
    connection error) or a response. *)
Inductive fetch :=
| RequestError
| Responded (r : Response).

(** [response.raise_for_status()] raises [HTTPError] on 4xx and 5xx. *)
Definition raise_for_status (r : Response) : bool :=
  (400 <=? status_code r) && (status_code r <? 600).

(** *** The world *)

Inductive event :=
| EvGet (url : string)
| EvSleep (url : string) (secs : Z)
| EvExtract (zip_path : string)
| EvWrite (member : string) (p : Path) (content : list byte).

Record world := {
  fs : gmap Path node;
  log : list event
}.

Definition emit (e : event) (w : world) : world :=
  {| fs := fs w; log := log w ++ [e] |}.

Definition set_fs (f : gmap Path node) (w : world) : world :=
  {| fs := f; log := log w |}.

Definition is_get (url : string) (e : event) : bool :=
  match e with
  | EvGet u => String.eqb u url
  | _ => false
  end.

Definition is_sleep (url : string) (e : event) : bool :=
  match e with
  | EvSleep u _ => String.eqb u url
  | _ => false
  end.

(** Number of requests issued for [url] so far. *)
Definition gets (url : string) (l : list event) : nat :=
  length (List.filter (is_get url) l).

Definition sleeps (url : string) (l : list event) : nat :=
  length (List.filter (is_sleep url) l).

(** The network answers the n-th request to a URL. *)
Definition network := string -> nat -> fetch.

(** *** The downloader object *)

Record AsterDownloader := {
  output_dir : Path;
  temp_dir : Path;
  dem_dir : Path;
  max_workers : Z;
  chunk_size : Z;
  max_retries : Z;
  retry_delay : Z;
  bearer_token : string
}.

(** The list objects of a run.  The three progress lists of the downloader
    are created once and then mutated in place; [Urls] is the list that
    [fetch_urls] returns and [RetryUrls] the list that [copy()] creates in
    [main]. *)
Inductive list_obj :=
| Urls
| DownloadedFiles
| FailedDownloads
| ProcessedFiles
| RetryUrls.

#[global] Instance list_obj_eq_dec : EqDecision list_obj.
Proof. solve_decision. Defined.

Definition heap := list_obj -> list string.

Definition heap_set (o : list_obj) (v : list string) (h : heap) : heap :=
  fun o' => if decide (o' = o) then v else h o'.

(** [obj.append(x)] *)
Definition heap_append (o : list_obj) (x : string) (h : heap) : heap :=
  heap_set o (h o ++ [x]) h.

Definition empty_heap : heap := fun _ => [].


Definition default_max_workers : Z := 4.


(** *** download_file *)

Definition auth_url_pattern : string := "urs.earthdata.nasa.gov/oauth/authorize".

(** [b'PK\x03\x04'] *)
Definition zip_magic : list byte := [x50; x4b; x03; x04].

#[global] Instance byte_eq_dec : EqDecision byte := Byte.byte_eq_dec.

Definition filename_of (url : string) : string :=
  PyStr.last_item (PyStr.split "/" url).

Definition filepath_of (d : AsterDownloader) (url : string) : Path :=
  joinpath (temp_dir d) (filename_of url).

(** How one pass through the body of the retry loop ends: at a [return], or
    in an exception handler that falls through to the retry tail. *)
Inductive attempt_end :=
| Return (r : string * bool)
| Handled.

(** [for chunk in response.iter_content(...): if chunk: f.write(chunk)] *)
Definition write_chunks (f : gmap Path node) (p : Path) (chunks : list (list byte))
    : gmap Path node :=
  fold_left (fun f' c => match c with [] => f' | _ => append_bytes f' p c end) chunks f.

(** The [try] block of one attempt. *)
Definition attempt (d : AsterDownloader) (net : network) (url : string) (w : world)
    : attempt_end * world :=
  let filename := filename_of url in
  let filepath := filepath_of d url in
  let w1 := emit (EvGet url) w in
  match net url (gets url (log w)) with
  | RequestError => (Handled, w1)
  | Responded r =>
      if PyStr.contains auth_url_pattern (resp_url r) then (Return (filename, false), w1)
      else if raise_for_status r then
        if status_code r =? 401 then (Return (filename, false), w1)
        else if status_code r =? 403 then (Return (filename, false), w1)
        else (Handled, w1)
      else if PyStr.contains "html" (PyStr.lower (default "" (content_type r)))
      then (Return (filename, false), w1)
      else
        match content_length r with
        | Some None => (Handled, w1)
        | _ =>
            match open_wb (fs w1) filepath with
            | None => (Handled, w1)
            | Some f1 =>
                let f2 := write_chunks f1 filepath (body r) in
                let w2 := set_fs f2 w1 in
                if body_error r then (Handled, w2)
                else
                  match read_file f2 filepath with
                  | None => (Handled, w2)
                  | Some c =>
                      if Z.of_nat (length c) <? 1000 then
                        if bool_decide (take 4 c = zip_magic)
                        then (Return (str filepath, true), w2)
                        else
                          match unlink f2 filepath with
                          | None => (Handled, w2)
                          | Some f3 => (Return (filename, false), set_fs f3 w2)
                          end
                      else (Return (str filepath, true), w2)
                  end
            end
        end
  end.

(** A call ends with a value or with an exception that leaves the function. *)
Inductive outcome (A : Type) :=
| Value (a : A)
| Raised.
Arguments Value {A} a.
Arguments Raised {A}.

(** [for attempt in range(self.max_retries)]: [n] iterations are left and
    [i] is the value of [attempt].  [time.sleep] raises [ValueError] on a
    negative delay, outside the [try]. *)
Fixpoint retry_loop (d : AsterDownloader) (net : network) (url : string)
    (n : nat) (i : Z) (w : world) : outcome (string * bool) * world :=
  match n with
  | O => (Value (filename_of url, false), w)
  | S n' =>
      match attempt d net url w with
      | (Return r, w') => (Value r, w')
      | (Handled, w') =>
          if i <? max_retries d - 1 then
            if retry_delay d <? 0 then (Raised, w')
            else retry_loop d net url n' (i + 1) (emit (EvSleep url (retry_delay d)) w')
          else retry_loop d net url n' (i + 1) w'
      end
  end.

Definition download_file (d : AsterDownloader) (net : network) (url : string)
    (w : world) : outcome (string * bool) * world :=
  let filepath := filepath_of d url in
  if exists_ (fs w) filepath then (Value (str filepath, true), w)
  else retry_loop d net url (Z.to_nat (max_retries d)) 0 w.

(** *** process_zip *)

(** What [zipfile] gives for one member when it is opened and read:
    [OpenError] when [zip_ref.open] raises, [ReadError] when [read] raises
    (bad CRC, truncated data), the bytes otherwise. *)
Inductive member_data :=
| OpenError
| ReadError
| Data (b : list byte).

(** A decoded archive: the members in central-directory order. *)
Definition archive := list (string * member_data).

(** [zip_ref.namelist()] *)
Definition namelist (a : archive) : list string := map fst a.

(** [zip_ref.open(name)] looks the name up in [NameToInfo], where a later
    member of the same name has replaced an earlier one. *)
Fixpoint getinfo (a : archive) (nm : string) : option member_data :=
  match a with
  | [] => None
  | (n, m) :: a' =>
      match getinfo a' nm with
      | Some m' => Some m'
      | None => if String.eqb n nm then Some m else None
      end
  end.

Definition num_suffix : string := "_num.tif".

(** The body of the [for file_name in file_list] loop, from the world [w]
    and the list [extracted_files] so far.  The first component is [None]
    when the iteration raises and the new [extracted_files] otherwise; the
    second is the world the iteration leaves, also when it raises. *)
Definition extract_member (d : AsterDownloader) (a : archive) (file_name : string)
    (w : world) (extracted : list string) : option (list string) * world :=
  if PyStr.endswith file_name num_suffix then (Some extracted, w)
  else
    let target_path := joinpath (dem_dir d) file_name in
    match mkdir_parents (fs w) (parent target_path) with
    | None => (None, w)
    | Some f1 =>
        let w1 := set_fs f1 w in
        if PyStr.endswith file_name "/" then (Some extracted, w1)
        else
          match getinfo a file_name with
          | None | Some OpenError => (None, w1)
          | Some m =>
              match open_wb f1 target_path with
              | None => (None, w1)
              | Some f2 =>
                  match m with
                  | Data b =>
                      (Some (extracted ++ [str target_path]),
                       emit (EvWrite file_name target_path b)
                         (set_fs (append_bytes f2 target_path b) w1))
                  | _ => (None, set_fs f2 w1)
                  end
              end
          end
    end.

Fixpoint extract_members (d : AsterDownloader) (a : archive) (names : list string)
    (w : world) (extracted : list string) : option (list string) * world :=
  match names with
  | [] => (Some extracted, w)
  | nm :: names' =>
      match extract_member d a nm w extracted with
      | (Some extracted', w') => extract_members d a names' w' extracted'
      | (None, w') => (None, w')
      end
  end.

Section WithZipfile.

(** [zipfile.ZipFile(path, 'r')] on the bytes of the file: [None] when it
    raises [BadZipFile].  The archive is decoded when it is opened. *)
Variable unzip : list byte -> option archive.

Definition process_zip (d : AsterDownloader) (zip_path : string) (w : world)
    : (string * bool * list string) * world :=
  let zp := parse zip_path in
  if negb (exists_ (fs w) zp) then ((str zp, false, []), w)
  else
    let w0 := emit (EvExtract (str zp)) w in
    match read_file (fs w0) zp with
    | None => ((str zp, false, []), w0)
    | Some bytes =>
        match unzip bytes with
        | None => ((str zp, false, []), w0)
        | Some a =>
            match extract_members d a (namelist a) w0 [] with
            | (Some extracted, w') => ((str zp, true, extracted), w')
            | (None, w') => ((str zp, false, []), w')
            end
        end
    end.

(** *** download_batch *)

(** [l[start:stop]] with Python's treatment of negative and oversized
    indices. *)
Definition clamp_index (n i : Z) : Z :=
  if i <? 0 then Z.max 0 (i + n) else Z.min i n.

Definition py_slice {A} (l : list A) (start stop : Z) : list A :=
  let n := Z.of_nat (length l) in
  let a := clamp_index n start in
  let b := clamp_index n stop in
  take (Z.to_nat (b - a)) (drop (Z.to_nat a) l).

(** The state of a run: the world and the list objects. *)
Definition state : Type := world * heap.

(** The body of the [for future in as_completed(...)] loop for the task of
    [url].  Each task runs [download_file] in one step, in the order in
    which the tasks complete. *)
Definition collect (d : AsterDownloader) (net : network) (st : state) (url : string)
    : state :=
  let '(w, h) := st in
  match download_file d net url w with
  | (Value (filepath, true), w') => (w', heap_append DownloadedFiles filepath h)
  | (Value (_, false), w') => (w', heap_append FailedDownloads url h)
  | (Raised, w') => (w', heap_append FailedDownloads url h)
  end.

(** The body of the [for zip_file in self.downloaded_files] loop. *)
Definition extract_step (d : AsterDownloader) (st : state) (zip_file : string)
    : state :=
  let '(w, h) := st in
  if bool_decide (zip_file ∈ h ProcessedFiles) then st
  else
    match process_zip d zip_file w with
    | ((_, true, _), w') => (w', heap_append ProcessedFiles zip_file h)
    | ((_, false, _), w') => (w', h)
    end.

(** The order in which the futures of a batch complete. *)
Variable as_completed : list string -> list string.

Definition download_stage (d : AsterDownloader) (net : network)
    (batch_urls : list string) (st : state) : state :=
  fold_left (collect d net) (as_completed batch_urls) st.

Definition extract_stage (d : AsterDownloader) (st : state) : state :=
  fold_left (extract_step d) (snd st DownloadedFiles) st.

(** [download_batch(urls, start_idx, end_idx)]; [urls] names the list
    object that is passed. *)
Definition download_batch (d : AsterDownloader) (net : network) (urls : list_obj)
    (start_idx : Z) (end_idx : option Z) (st : state) : state :=
  let l := snd st urls in
  let end_idx' := match end_idx with
                  | None => Z.of_nat (length l)
                  | Some e => e
                  end in
  let batch_urls := py_slice l start_idx end_idx' in
  extract_stage d (download_stage d net batch_urls st).

(** *** reprocess_existing *)

(** [self.temp_dir.glob("*.zip")] *)
Definition glob_zip (f : gmap Path node) (dir : Path) : list Path :=
  List.filter (fun p => PyStr.endswith (name p) ".zip") (children f dir).

(** The body of the [for zip_file in zip_files] loop, with the counters
    [processed_count] and [failed_count]. *)
Definition reprocess_step (d : AsterDownloader) (st : world * (Z * Z)) (zip_file : Path)
    : world * (Z * Z) :=
  let '(w, (processed_count, failed_count)) := st in
  match process_zip d (str zip_file) w with
  | ((_, true, _), w') => (w', (processed_count + 1, failed_count))
  | ((_, false, _), w') => (w', (processed_count, failed_count + 1))
  end.

Definition reprocess_existing (d : AsterDownloader) (w : world) : world * (Z * Z) :=
  let zip_files := glob_zip (fs w) (temp_dir d) in
  match zip_files with
  | [] => (w, (0, 0))
  | _ => fold_left (reprocess_step d) zip_files (w, (0, 0))
  end.

(** *** cleanup_temp_files and main *)

Definition cleanup_temp_files (d : AsterDownloader) (delete_zips : bool)
    (f : gmap Path node) : gmap Path node :=
  if delete_zips then
    fold_left (fun f' p => match unlink f' p with Some f'' => f'' | None => f' end)
              (glob_zip f (temp_dir d)) f
  else f.

Record Args := {
  arg_start : Z;
  arg_end : option Z;
  arg_test : bool;
  arg_delete_zips : bool;
  arg_retry_failed : bool;
  arg_reprocess : bool
}.

(** [main] once the downloader is built.  [urls] is what [fetch_urls]
    returns in download mode.  [None] is the exit with status 1 when no
    URL was found; the interrupt and error handlers are left out. *)
Definition main (d : AsterDownloader) (net : network) (args : Args)
    (urls : list string) (w : world) : option state :=
  if arg_reprocess args then
    Some (fst (reprocess_existing d w), empty_heap)
  else
    let end_idx := if arg_test args then Some 1 else arg_end args in
    match urls with
    | [] => None
    | _ =>
        let st0 : state := (w, heap_set Urls urls empty_heap) in
        let st1 := download_batch d net Urls (arg_start args) end_idx st0 in
        let st2 :=
          if arg_retry_failed args && negb (bool_decide (snd st1 FailedDownloads = []))
          then
            (* retry_urls = downloader.failed_downloads.copy() *)
            let h_copy := heap_set RetryUrls (snd st1 FailedDownloads) (snd st1) in
            (* downloader.failed_downloads.clear() *)
            let h_clear := heap_set FailedDownloads [] h_copy in
            download_batch d net RetryUrls 0 None (fst st1, h_clear)
          else st1 in
        let w3 := set_fs (cleanup_temp_files d (arg_delete_zips args) (fs (fst st2)))
                         (fst st2) in
        Some (w3, snd st2)
    end.

End WithZipfile.

End Aster.

(** ** mapzen_downloader.py *)

Module Mapzen.
Import FS.

(** The calls whose failure the environment decides (permissions, a full
    disk, a file that vanished). *)
Inductive io_op :=
| OpenRead (p : Path)
| OpenWrite (p : Path)
| Unlink (p : Path).

Inductive exn :=
| OSError (op : io_op)
| BadGzipFile
| ValueError.

(** A call ends with a value or with an exception that leaves the function. *)
Inductive outcome (A : Type) :=
| Value (a : A)
| Raised (e : exn).
Arguments Value {A} a.
Arguments Raised {A} e.

Inductive event :=
| BatchStart (batch_num : Z) (seen_at : nat)
| Ran (p : Path)
| Cancelled (p : Path)
| Sleep (secs : Z).

(** The summary that [main] prints when it reaches the end. *)
Record Report := {
  total_successful : Z;
  total_failed : list string;
  remaining : nat;
  interrupted : bool
}.

Inductive exit :=
| NoDataDir
| NothingToDo
| Finished (r : Report)
| Crashed (e : exn).

Definition data_dir : Path := parse "data/mapzen".
Definition batch_size : Z := 1000.

(** [data_dir.rglob("*.hgt.gz")] *)
Definition rglob_gz (f : gmap Path node) (dir : Path) : list Path :=
  List.filter (fun p => PyStr.endswith (name p) ".hgt.gz") (descendants f dir).

Section WithEnvironment.

(** Whether the environment makes a call fail with [OSError]. *)
Variable fault : io_op -> bool.

(** Streaming decompression of the bytes of a file: the bytes that reach
    the output before the stream ends, and whether it ended without an
    error. *)
Variable gunzip : list byte -> list byte * bool.

(** [str(e)] *)
Variable str_exn : exn -> string.

(** The shutdown flag.  The reads of [shutdown_requested] are numbered in
    program order; [sigint] is the first read that follows the signal.
    The handler only ever sets the flag. *)
Variable sigint : option nat.

Definition shutdown_requested (t : nat) : bool :=
  match sigint with
  | Some s => (s <=? t)%nat
  | None => false
  end.

(** The order in which the futures of a batch complete, and how many of
    the futures that are still to be yielded have left the queue when the
    read numbered [t] makes the loop cancel them. *)
Variable as_completed : list Path -> list Path.
Variable started_more : nat -> nat.

Definition unlink_io (f : gmap Path node) (p : Path) : exn + gmap Path node :=
  if fault (Unlink p) then inl (OSError (Unlink p))
  else match unlink f p with
       | Some f' => inr f'
       | None => inl (OSError (Unlink p))
       end.

Definition open_rb_io (f : gmap Path node) (p : Path) : exn + list byte :=
  if fault (OpenRead p) then inl (OSError (OpenRead p))
  else match read_file f p with
       | Some c => inr c
       | None => inl (OSError (OpenRead p))
       end.

Definition open_wb_io (f : gmap Path node) (p : Path) : exn + gmap Path node :=
  if fault (OpenWrite p) then inl (OSError (OpenWrite p))
  else match open_wb f p with
       | Some f' => inr f'
       | None => inl (OSError (OpenWrite p))
       end.

(** The [except Exception as e] handler. *)
Definition failure (gz_path : Path) (e : exn) : bool * string :=
  (false, str gz_path +:+ ": " +:+ str_exn e).

Definition extract_gz_file (gz_path : Path) (f : gmap Path node)
    : outcome (bool * string) * gmap Path node :=
  match with_suffix_empty gz_path with
  | None => (Raised ValueError, f)
  | Some output_path =>
      if exists_ f output_path then
        if exists_ f gz_path then
          match unlink_io f gz_path with
          | inl e => (Raised e, f)
          | inr f' => (Value (true, "Already extracted: " +:+ name output_path), f')
          end
        else (Value (true, "Already extracted: " +:+ name output_path), f)
      else
        match open_rb_io f gz_path with
        | inl e => (Value (failure gz_path e), f)
        | inr bytes =>
            match open_wb_io f output_path with
            | inl e => (Value (failure gz_path e), f)
            | inr f1 =>
                let '(out, ok) := gunzip bytes in
                let f2 := append_bytes f1 output_path out in
                if ok then
                  match unlink_io f2 gz_path with
                  | inl e => (Value (failure gz_path e), f2)
                  | inr f3 => (Value (true, str gz_path), f3)
                  end
                else (Value (failure gz_path BadGzipFile), f2)
            end
        end
  end.

(** The state that the batch loops thread: the file system, the number of
    reads of the flag so far, and the log. *)
Record state := {
  fs : gmap Path node;
  clock : nat;
  log : list event
}.

(** A worker runs the task of [p]; nobody asks for its result. *)
Definition run_task (st : state) (p : Path) : state :=
  {| fs := snd (extract_gz_file p (fs st)); clock := clock st;
     log := log st ++ [Ran p] |}.

Definition cancel_task (st : state) (p : Path) : state :=
  {| fs := fs st; clock := clock st; log := log st ++ [Cancelled p] |}.

Definition tick (st : state) : state :=
  {| fs := fs st; clock := S (clock st); log := log st |}.

Definition emit (e : event) (st : state) : state :=
  {| fs := fs st; clock := clock st; log := log st ++ [e] |}.

(** [for i, future in enumerate(as_completed(futures))] over the futures
    still to be yielded, in completion order.  A yielded future has run.
    When the flag is seen, the futures that have left the queue run to
    the end (the executor waits for them) and the others are cancelled.
    When [future.result()] raises, the executor still runs every task
    that is left before the exception leaves [process_batch]. *)
Fixpoint completion_loop (todo : list Path) (successful : Z) (failed : list string)
    (st : state) : outcome (Z * list string) * state :=
  match todo with
  | [] => (Value (successful, failed), st)
  | p :: todo' =>
      let '(res, f') := extract_gz_file p (fs st) in
      let st1 := {| fs := f'; clock := clock st; log := log st ++ [Ran p] |} in
      let t := clock st1 in
      let st2 := tick st1 in
      if shutdown_requested t then
        let k := started_more t in
        let st3 := fold_left run_task (take k todo') st2 in
        let st4 := fold_left cancel_task (drop k todo') st3 in
        (Value (successful, failed), st4)
      else
        match res with
        | Raised e => (Raised e, fold_left run_task todo' st2)
        | Value (true, _) => completion_loop todo' (successful + 1) failed st2
        | Value (false, result) => completion_loop todo' successful (failed ++ [result]) st2
        end
  end.

Definition process_batch (gz_files_batch : list Path) (batch_num total_batches : Z)
    (st : state) : outcome (Z * list string) * state :=
  completion_loop (as_completed gz_files_batch) 0 [] st.

(** [gz_files[start_idx:end_idx]] for indices within the list. *)
Definition slice (l : list Path) (start_idx end_idx : Z) : list Path :=
  take (Z.to_nat (end_idx - start_idx)) (drop (Z.to_nat start_idx) l).

(** [for batch_num in range(1, total_batches + 1)]: [n] iterations are
    left.  The result is [None] when an exception leaves the loop. *)
Fixpoint batch_loop (gz_files : list Path) (total_batches : Z) (n : nat)
    (batch_num : Z) (total_successful : Z) (total_failed : list string)
    (st : state) : outcome (Z * list string) * state :=
  match n with
  | O => (Value (total_successful, total_failed), st)
  | S n' =>
      let t := clock st in
      let st1 := tick st in
      if shutdown_requested t then (Value (total_successful, total_failed), st1)
      else
        let start_idx := (batch_num - 1) * batch_size in
        let end_idx := Z.min (start_idx + batch_size) (Z.of_nat (length gz_files)) in
        let batch := slice gz_files start_idx end_idx in
        let st2 := emit (BatchStart batch_num t) st1 in
        match process_batch batch batch_num total_batches st2 with
        | (Raised e, st3) => (Raised e, st3)
        | (Value (successful, failed), st3) =>
            let st4 :=
              if batch_num <? total_batches then
                if shutdown_requested (clock st3) then tick st3
                else emit (Sleep 1) (tick st3)
              else st3 in
            batch_loop gz_files total_batches n' (batch_num + 1)
              (total_successful + successful) (total_failed ++ failed) st4
        end
  end.

Definition main (f : gmap Path node) : exit * state :=
  let st0 := {| fs := f; clock := O; log := [] |} in
  if negb (exists_ f data_dir) then (NoDataDir, st0)
  else
    let gz_files := rglob_gz f data_dir in
    match gz_files with
    | [] => (NothingToDo, st0)
    | _ =>
        let total_batches := (Z.of_nat (length gz_files) + batch_size - 1) / batch_size in
        match batch_loop gz_files total_batches (Z.to_nat total_batches) 1 0 [] st0 with
        | (Raised e, st1) => (Crashed e, st1)
        | (Value (total_successful, total_failed), st1) =>
            let remaining_gz := rglob_gz (fs st1) data_dir in
            (Finished {| total_successful := total_successful;
                         total_failed := total_failed;
                         remaining := length remaining_gz;
                         interrupted := shutdown_requested (clock st1) |},
             tick st1)
        end
    end.

End WithEnvironment.

End Mapzen.

(** ** The token and the work list of aster-downloader.py *)

Module AsterIO.
Import FS Aster.

(** [c.isspace()] for the code points below 256. *)
Definition is_space (a : ascii) : bool :=
  let n := nat_of_ascii a in
  ((9 <=? n) && (n <=? 13) || (28 <=? n) && (n <=? 32) || (n =? 133) || (n =? 160))%nat.

(** [s.lstrip()] *)
Fixpoint lstrip (s : string) : string :=
  match s with
  | EmptyString => EmptyString
  | String a s' => if is_space a then lstrip s' else s
  end.

(** [s.rstrip()] *)
Fixpoint rstrip (s : string) : string :=
  match s with
  | EmptyString => EmptyString
  | String a s' =>
      match rstrip s' with
      | EmptyString => if is_space a then EmptyString else String a EmptyString
      | r => String a r
      end
  end.

(** [s.strip()] *)
Definition strip (s : string) : string := rstrip (lstrip s).

(** The newline character. *)
Definition newline : ascii := ascii_of_nat 10.

(** The list comprehension of [fetch_urls]:
    [[line.strip() for line in content.split('\n')
      if line.strip() and line.strip().startswith('http')]] *)
Definition parse_urls (content : string) : list string :=
  map strip
    (List.filter (fun line => negb (String.eqb (strip line) "")
                              && PyStr.startswith (strip line) "http")
                 (PyStr.split newline content)).

(** What a call of [load_token] leaves: the token, or the [EOFError] of an
    [input()] that finds no line. *)
Inductive loaded :=
| Token (t : string)
| EOFError.

Section WithCodec.

(** [open(p, 'r').read()] on the bytes of the file: [None] when decoding
    raises. *)
Variable read_text : list byte -> option string.

(** The bytes that [f.write(s)] puts into a file opened with ['w']:
    [None] when encoding raises. *)
Variable write_text : string -> option (list byte).

(** [response.text] on the bytes of the body. *)
Variable text : list byte -> string.

(** [fetch_urls(url_source)]: [None] is [sys.exit(1)], taken on any
    exception.  A remote source is read with one request through the
    session. *)
Definition fetch_urls (net : network) (url_source : string) (w : world)
    : option (list string) * world :=
  if PyStr.startswith url_source "http://" || PyStr.startswith url_source "https://" then
    let w1 := emit (EvGet url_source) w in
    match net url_source (gets url_source (log w)) with
    | RequestError => (None, w1)
    | Responded r =>
        if body_error r then (None, w1)
        else if raise_for_status r then (None, w1)
        else (Some (parse_urls (text (concat (body r)))), w1)
    end
  else
    match read_file (fs w) (parse url_source) with
    | None => (None, w)
    | Some b =>
        match read_text b with
        | None => (None, w)
        | Some content => (Some (parse_urls content), w)
        end
    end.

(** The interactive part of [load_token]: the token is read and
    stripped, then the answer to the question whether to save it.  On
    [y] the token file is opened for writing and the token written; an
    exception there is only logged. *)
Definition prompt_token (token_file : Path) (stdin : list string)
    (f : gmap Path node) : loaded * list string * gmap Path node :=
  match stdin with
  | [] => (EOFError, [], f)
  | line1 :: stdin1 =>
      let token := strip line1 in
      match stdin1 with
      | [] => (EOFError, [], f)
      | line2 :: stdin2 =>
          if String.eqb (strip (PyStr.lower line2)) "y" then
            match open_wb f token_file with
            | None => (Token token, stdin2, f)
            | Some f1 =>
                match write_text token with
                | None => (Token token, stdin2, f1)
                | Some b => (Token token, stdin2, append_bytes f1 token_file b)
                end
            end
          else (Token token, stdin2, f)
      end
  end.

(** [token_file.exists()] and the [try] block that reads the file: the
    stripped content when it is not empty. *)
Definition token_from_file (token_file : Path) (f : gmap Path node) : option string :=
  if exists_ f token_file then
    match read_file f token_file with
    | None => None
    | Some b =>
        match read_text b with
        | None => None
        | Some content =>
            let token := strip content in
            if String.eqb token "" then None else Some token
        end
    end
  else None.

(** [load_token(bearer_token)]; [script_dir] is the directory of the
    script and [stdin] the lines that [input()] will read.  The result
    carries the lines that are left and the disk. *)
Definition load_token (script_dir : Path) (bearer_token : option string)
    (stdin : list string) (f : gmap Path node)
    : loaded * list string * gmap Path node :=
  let token_file := joinpath script_dir "token.txt" in
  match bearer_token with
  | Some (String a t) => (Token (String a t), stdin, f)
  | _ =>
      match token_from_file token_file f with
      | Some token => (Token token, stdin, f)
      | None => prompt_token token_file stdin f
      end
  end.

End WithCodec.

End AsterIO.

(** ** The batches of mapzen_downloader.py *)

Module MapzenBatches.
Import FS Mapzen.

(** [total_batches = (len(gz_files) + batch_size - 1) // batch_size] *)
Definition total_batches (gz_files : list Path) : Z :=
  (Z.of_nat (length gz_files) + batch_size - 1) / batch_size.

(** The slice that the batch loop takes for [batch_num]. *)
Definition nth_batch (gz_files : list Path) (batch_num : Z) : list Path :=
  let start_idx := (batch_num - 1) * batch_size in
  let end_idx := Z.min (start_idx + batch_size) (Z.of_nat (length gz_files)) in
  slice gz_files start_idx end_idx.

End MapzenBatches.

(** * Vocabulary of the properties *)

Module AsterSpec.
Import FS Aster.

(** The events of the task of [url]. *)
Definition own_event (url : string) (e : event) : Prop :=
  match e with
  | EvGet u | EvSleep u _ => u = url
  | _ => False
  end.

(** *** Classes of responses *)

Definition is_login (r : Response) : bool :=
  PyStr.contains auth_url_pattern (resp_url r).

Definition is_auth_status (r : Response) : bool :=
  (status_code r =? 401) || (status_code r =? 403).

Definition is_html (r : Response) : bool :=
  PyStr.contains "html" (PyStr.lower (default "" (content_type r))).



(** Transient failures: an exception of the request, an HTTP error other
    than 401 and 403, or a stream that breaks while the body is read. *)
Definition transient (f : fetch) : bool :=
  match f with
  | RequestError => true
  | Responded r =>
      negb (is_login r) &&
      (if raise_for_status r then negb (is_auth_status r)
       else negb (is_html r) && body_error r)
  end.


Definition staged (d : AsterDownloader) (url : string) (f : gmap Path node) : bool :=
  exists_ f (filepath_of d url).

(** What [n] attempts that all fail leave in the log: a request, then a
    sleep and a request for each further attempt. *)
Fixpoint retry_trace (url : string) (delay : Z) (n : nat) : list event :=
  match n with
  | O => []
  | S n' =>
      EvGet url ::
      match n' with
      | O => []
      | S _ => EvSleep url delay :: retry_trace url delay n'
      end
  end.

(** *** Extraction *)

(** The members that [process_zip] writes: neither a [_num.tif] file nor a
    directory entry. *)
Definition kept (file_name : string) : bool :=
  negb (PyStr.endswith file_name num_suffix) && negb (PyStr.endswith file_name "/").

Definition target (d : AsterDownloader) (file_name : string) : Path :=
  joinpath (dem_dir d) file_name.

Definition member_bytes (a : archive) (file_name : string) : list byte :=
  match getinfo a file_name with
  | Some (Data b) => b
  | _ => []
  end.

Definition write_event (d : AsterDownloader) (a : archive) (file_name : string) : event :=
  EvWrite file_name (target d file_name) (member_bytes a file_name).

(** A write that extraction may log: of a member that is kept, to its path
    under the output directory. *)
Definition write_ok (d : AsterDownloader) (e : event) : Prop :=
  match e with
  | EvWrite nm p _ => kept nm = true /\ p = target d nm
  | _ => False
  end.


(** A disk only grows: directories stay directories and files stay files. *)
Definition fs_grows (f f' : gmap Path node) : Prop :=
  (forall q, is_dir f q = true -> is_dir f' q = true)
  /\ (forall q, is_file f q = true -> is_file f' q = true).

(** The content of the files that a step does not write is kept. *)
Definition keeps_files (f f' : gmap Path node) (except : Path -> Prop) : Prop :=
  forall q c, ~ except q -> lookup_node f q = Some (File c) ->
              lookup_node f' q = Some (File c).

(** *** Sample inputs *)

(** The downloader that [main] builds with its default arguments. *)
Definition sample_downloader : AsterDownloader :=
  {| output_dir := ["data"; "aster30m"]; temp_dir := ["data"; "temp_zips"];
     dem_dir := ["data"; "aster30m"];
     max_workers := 4; chunk_size := 8192; max_retries := 3; retry_delay := 5;
     bearer_token := "token" |}.

(** The file system after [__init__] on an empty disk. *)
Definition sample_fs : gmap Path node :=
  {[ ["data"] := Dir; ["data"; "aster30m"] := Dir; ["data"; "temp_zips"] := Dir ]}.

Definition sample_world : world := {| fs := sample_fs; log := [] |}.

Definition sample_url : string := "https://e4ftl01.cr.usgs.gov/ASTT/ASTGTM.003/N00E006.zip".
Definition other_url : string := "https://e4ftl01.cr.usgs.gov/ASTT/ASTGTM.003/N00E009.zip".

Definition sample_response (status : Z) (ctype : string) (chunks : list (list byte))
    : Response :=
  {| resp_url := sample_url; status_code := status; content_type := Some ctype;
     content_length := None; body := chunks; body_error := false |}.

(** The same disk with the archive of [sample_url] already staged. *)
Definition staged_world : world :=
  {| fs := <[ ["data"; "temp_zips"; "N00E006.zip"] := File zip_magic ]> sample_fs;
     log := [] |}.

(** The archive of the archive-filtering example. *)
Definition sample_archive : archive :=
  [ ("a_dem.tif", Data [x01; x02]); ("a_num.tif", Data [x03]);
    ("readme.txt", Data [x04; x05; x06]) ].

Definition sample_unzip : list byte -> option archive := fun _ => Some sample_archive.

Definition sample_zip_path : string := "data/temp_zips/N00E006.zip".

(** A network that is down. *)
Definition unreachable : network := fun _ _ => RequestError.

(** A server that answers every request in the same way. *)
Definition always (r : Response) : network := fun _ _ => Responded r.

(** *** Statements that the code does not satisfy as they are worded *)



End AsterSpec.

Module MapzenSpec.
Import FS Mapzen.

(** The batch numbers of the batches that were started, in order. *)
Definition started_batches (l : list event) : list Z :=
  omap (fun e => match e with BatchStart b _ => Some b | _ => None end) l.

(** [k] consecutive batch numbers from [b]. *)
Definition batch_range (b : Z) (k : nat) : list Z :=
  map (fun i => b + Z.of_nat i) (seq 0 k).

(** The events of the tasks of a batch. *)
Definition task_event (e : event) : Prop :=
  match e with
  | Ran _ | Cancelled _ => True
  | _ => False
  end.



(** *** Sample inputs *)

Definition no_fault : io_op -> bool := fun _ => false.

(** A decompressor that fails on an empty file and copies any other. *)
Definition sample_gunzip (b : list byte) : list byte * bool :=
  match b with
  | [] => ([], false)
  | _ => (b, true)
  end.

Definition sample_str_exn (e : exn) : string :=
  match e with
  | OSError _ => "[Errno 13] Permission denied"
  | BadGzipFile => "Not a gzipped file"
  | ValueError => "empty name"
  end.

Definition tile_dir : Path := ["data"; "mapzen"; "N00"].

(** A tree with two compressed tiles, the first already decompressed. *)
Definition sample_tree : gmap Path node :=
  {[ ["data"] := Dir; ["data"; "mapzen"] := Dir; tile_dir := Dir;
     tile_dir ++ ["N00E006.hgt.gz"] := File [x1f; x8b];
     tile_dir ++ ["N00E006.hgt"] := File [x01];
     tile_dir ++ ["N00E007.hgt.gz"] := File [x1f; x8b; x08] ]}.

End MapzenSpec.

(** * Vocabulary of the further properties *)

Module AsterMoreSpec.
Import FS Aster AsterSpec AsterIO.

(** [c in s] for a character. *)
Fixpoint mentions (c : ascii) (s : string) : bool :=
  match s with
  | EmptyString => false
  | String a s' => Ascii.eqb a c || mentions c s'
  end.

(** The line separator of the work list. *)
Definition nl : string := String newline "".

(** A line that [fetch_urls] keeps as it is: no white space at either end,
    the prefix [http], and no line break inside. *)
Definition clean_url (u : string) : bool :=
  String.eqb (strip u) u && PyStr.startswith u "http" && negb (mentions newline u).

(** *** Classes of responses *)

(** A response that passes every test of [download_file] and whose body
    arrives whole: 1000 bytes or more, or the ZIP magic number in front. *)
Definition complete_archive (r : Response) : bool :=
  negb (is_login r) && negb (raise_for_status r) && negb (is_html r) &&
  negb (bool_decide (content_length r = Some None)) && negb (body_error r) &&
  ((1000 <=? Z.of_nat (length (concat (body r))))
   || bool_decide (take 4 (concat (body r)) = zip_magic)).

(** A response that passes the tests on its head and whose stream breaks
    while the body is written. *)
Definition broken_stream (r : Response) : bool :=
  negb (is_login r) && negb (raise_for_status r) && negb (is_html r) &&
  negb (bool_decide (content_length r = Some None)) && body_error r.

(** The staging path of [url] can be opened for writing. *)
Definition slot_free (d : AsterDownloader) (url : string) (f : gmap Path node) : Prop :=
  is_dir f (filepath_of d url) = false /\ is_dir f (parent (filepath_of d url)) = true.

(** The invariant of the progress lists: no archive is listed as processed
    twice, and every processed archive is listed as downloaded. *)
Definition processed_ok (h : heap) : Prop :=
  NoDup (h ProcessedFiles) /\ forall z, z ∈ h ProcessedFiles -> z ∈ h DownloadedFiles.

(** *** Sample inputs *)

(** Text that is read and written one byte per character. *)
Definition sample_read_text (b : list byte) : option string :=
  Some (string_of_list_byte b).
Definition sample_write_text (s : string) : option (list byte) :=
  Some (list_byte_of_string s).
Definition sample_text (b : list byte) : string := string_of_list_byte b.

(** A work list with a comment, padding, an empty line and a line that is
    no URL. *)
Definition sample_list_text : string :=
  "# ASTER tiles" +:+ nl +:+ "  " +:+ sample_url +:+ "  " +:+ nl +:+ nl +:+
  other_url +:+ nl +:+ "ftp://e4ftl01.cr.usgs.gov/readme.txt" +:+ nl.

Definition sample_list_world : world :=
  {| fs := <[ ["urls.txt"] := File (list_byte_of_string sample_list_text) ]> sample_fs;
     log := [] |}.

(** A work list as [join] writes it. *)
Definition plain_list_world : world :=
  {| fs := <[ ["urls.txt"] :=
                File (list_byte_of_string (PyStr.join nl [sample_url; other_url])) ]>
             sample_fs;
     log := [] |}.

(** The directory of the script, on a disk without a token file. *)
Definition script_dir : Path := ["app"].
Definition script_fs : gmap Path node := {[ script_dir := Dir ]}.

(** A server whose first [k] answers to each URL are lost. *)
Definition fails_then (k : nat) (r : Response) : network :=
  fun _ n => if (n <? k)%nat then RequestError else Responded r.

Definition zip_response : Response :=
  sample_response 200 "application/zip" [zip_magic].

Definition broken_response : Response :=
  {| resp_url := sample_url; status_code := 200;
     content_type := Some "application/zip"%string; content_length := None;
     body := [[x50; x4b]]; body_error := true |}.

Definition with_retries (retries delay : Z) : AsterDownloader :=
  {| output_dir := output_dir sample_downloader; temp_dir := temp_dir sample_downloader;
     dem_dir := dem_dir sample_downloader; max_workers := 4; chunk_size := 8192;
     max_retries := retries; retry_delay := delay; bearer_token := "token" |}.

(** An archive whose second member cannot be read. *)
Definition damaged_archive : archive :=
  [ ("a_dem.tif"%string, Data [x01]); ("b_dem.tif"%string, ReadError);
    ("c_dem.tif"%string, Data [x02]) ].

Definition sample_args (test retry reprocess : bool) : Args :=
  {| arg_start := 0; arg_end := None; arg_test := test; arg_delete_zips := false;
     arg_retry_failed := retry; arg_reprocess := reprocess |}.

End AsterMoreSpec.

Module MapzenMoreSpec.
Import FS Mapzen MapzenSpec.

(** The tasks that ran and the tasks that were cancelled, in log order. *)
Definition ran_tasks (l : list event) : list Path :=
  omap (fun e => match e with Ran p => Some p | _ => None end) l.

Definition cancelled_tasks (l : list event) : list Path :=
  omap (fun e => match e with Cancelled p => Some p | _ => None end) l.

(** A compressed tile: a path whose last part is [x.hgt.gz]. *)
Definition is_tile (p : Path) : Prop :=
  exists dir x, p = dir ++ [x +:+ ".hgt.gz"].

(** The task of [p] on the disk [f] reports failure. *)
Definition task_fails (fault : io_op -> bool) (gunzip : list byte -> list byte * bool)
    (str_exn : exn -> string) (f : gmap Path node) (p : Path) : bool :=
  match fst (extract_gz_file fault gunzip str_exn p f) with
  | Value (false, _) => true
  | _ => false
  end.

(** [sample_tree] with a third compressed tile, which is empty. *)
Definition damaged_tree : gmap Path node :=
  <[ tile_dir ++ ["N00E008.hgt.gz"] := File [] ]> sample_tree.

End MapzenMoreSpec.

(** * Properties *)

Module AsterProofs.
Import FS Aster AsterSpec.

(** ** The log *)

Lemma gets_app url l1 l2 : gets url (l1 ++ l2) = (gets url l1 + gets url l2)%nat.
Proof. unfold gets. by rewrite List.filter_app, length_app. Qed.

Lemma sleeps_app url l1 l2 : sleeps url (l1 ++ l2) = (sleeps url l1 + sleeps url l2)%nat.
Proof. unfold sleeps. by rewrite List.filter_app, length_app. Qed.

Lemma gets_get url u : gets url [EvGet u] = if decide (u = url) then 1%nat else 0%nat.
Proof.
  unfold gets. simpl. destruct (String.eqb_spec u url); case_decide; done.
Qed.

Lemma sleeps_get url u : sleeps url [EvGet u] = 0%nat.
Proof. done. Qed.

Lemma gets_sleep url u s : gets url [EvSleep u s] = 0%nat.
Proof. done. Qed.

Lemma sleeps_sleep url u s :
  sleeps url [EvSleep u s] = if decide (u = url) then 1%nat else 0%nat.
Proof.
  unfold sleeps. simpl. destruct (String.eqb_spec u url); case_decide; done.
Qed.

(** ** The file system under one task *)

Lemma lookup_append_bytes_ne f p q b :
  p ≠ q -> append_bytes f p b !! q = f !! q.
Proof.
  intros Hne. unfold append_bytes.
  destruct (f !! p) as [[c|]|]; try done. by rewrite lookup_insert_ne.
Qed.

Lemma lookup_write_chunks_ne f p q chunks :
  p ≠ q -> write_chunks f p chunks !! q = f !! q.
Proof.
  intros Hne. unfold write_chunks. revert f.
  induction chunks as [|c chunks IH]; intros f; simpl; [done|].
  rewrite IH. destruct c; [done|]. by apply lookup_append_bytes_ne.
Qed.

Lemma lookup_write_chunks_file f p c chunks :
  f !! p = Some (File c) ->
  write_chunks f p chunks !! p = Some (File (c ++ concat chunks)).
Proof.
  unfold write_chunks. revert f c.
  induction chunks as [|ch chunks IH]; intros f c Hf; simpl.
  - by rewrite app_nil_r.
  - destruct ch as [|b ch].
    + by apply IH.
    + erewrite IH.
      * by rewrite <- app_assoc.
      * unfold append_bytes. rewrite Hf. by rewrite lookup_insert_eq.
Qed.

Lemma open_wb_lookup f p f' :
  open_wb f p = Some f' -> f' = <[p := File []]> f.
Proof.
  unfold open_wb. destruct (is_dir f p); [done|].
  destruct (is_dir f (parent p)); congruence.
Qed.

Lemma unlink_lookup f p f' :
  unlink f p = Some f' -> f' = delete p f.
Proof.
  unfold unlink. destruct (lookup_node f p) as [[c|]|]; congruence.
Qed.

(** Case analysis along the branches of a definition. *)
Ltac branches := repeat (first [ done | case_match | progress simpl ]).

(** Every pass through the [try] block issues one request and nothing else
    that the log records. *)
Lemma attempt_log d net url w :
  log (snd (attempt d net url w)) = log w ++ [EvGet url].
Proof.
  unfold attempt. branches.
Qed.

(** A task touches no path but its own staging path. *)
Lemma attempt_fs_frame d net url w p :
  p ≠ filepath_of d url ->
  fs (snd (attempt d net url w)) !! p = fs w !! p.
Proof.
  intros Hne. unfold attempt. branches;
    repeat match goal with
      | H : open_wb _ _ = Some _ |- _ => apply open_wb_lookup in H; subst
      | H : unlink _ _ = Some _ |- _ => apply unlink_lookup in H; subst
      end;
    rewrite ?lookup_delete_ne, ?lookup_write_chunks_ne, ?lookup_insert_ne by done;
    done.
Qed.

(** ** The retry loop *)

Lemma retry_loop_log d net url n i w :
  exists l, log (snd (retry_loop d net url n i w)) = log w ++ l
            /\ Forall (own_event url) l.
Proof.
  revert i w. induction n as [|n IH]; intros i w; simpl.
  - exists []. by rewrite app_nil_r.
  - pose proof (attempt_log d net url w) as Hlog.
    destruct (attempt d net url w) as [[r|] w1]; simpl in *.
    + exists [EvGet url]. split; [done|]. by repeat constructor.
    + destruct (i <? max_retries d - 1).
      * destruct (retry_delay d <? 0); simpl.
        { exists [EvGet url]. split; [done|]. by repeat constructor. }
        destruct (IH (i + 1) (emit (EvSleep url (retry_delay d)) w1)) as (l & Hl & Hown).
        exists (EvGet url :: EvSleep url (retry_delay d) :: l).
        rewrite Hl. simpl. rewrite Hlog, <- !app_assoc. split; [done|].
        by repeat constructor.
      * destruct (IH (i + 1) w1) as (l & Hl & Hown).
        exists (EvGet url :: l). rewrite Hl, Hlog, <- app_assoc.
        split; [done|]. by constructor.
Qed.

Lemma retry_loop_fs_frame d net url n i w p :
  p ≠ filepath_of d url ->
  fs (snd (retry_loop d net url n i w)) !! p = fs w !! p.
Proof.
  intros Hne. revert i w. induction n as [|n IH]; intros i w; simpl; [done|].
  pose proof (attempt_fs_frame d net url w p Hne) as Hfs.
  destruct (attempt d net url w) as [[r|] w1]; simpl in *; [done|].
  destruct (i <? max_retries d - 1).
  - destruct (retry_delay d <? 0); simpl; [done|]. by rewrite IH.
  - by rewrite IH.
Qed.

Lemma download_file_log d net url w :
  exists l, log (snd (download_file d net url w)) = log w ++ l
            /\ Forall (own_event url) l.
Proof.
  unfold download_file. destruct (exists_ _ _).
  - exists []. by rewrite app_nil_r.
  - apply retry_loop_log.
Qed.

Lemma download_file_fs_frame d net url w p :
  p ≠ filepath_of d url ->
  fs (snd (download_file d net url w)) !! p = fs w !! p.
Proof.
  intros Hne. unfold download_file. destruct (exists_ _ _); [done|].
  by apply retry_loop_fs_frame.
Qed.

Lemma gets_own url u l :
  u ≠ url -> Forall (own_event u) l -> gets url l = 0%nat.
Proof.
  intros Hne. induction 1 as [|e l He _ IH]; [done|].
  change (e :: l) with ([e] ++ l). rewrite gets_app, IH.
  destruct e; simpl in He; subst; try done.
  rewrite gets_get. by case_decide.
Qed.

Lemma sleeps_own url u l :
  u ≠ url -> Forall (own_event u) l -> sleeps url l = 0%nat.
Proof.
  intros Hne. induction 1 as [|e l He _ IH]; [done|].
  change (e :: l) with ([e] ++ l). rewrite sleeps_app, IH.
  destruct e; simpl in He; subst; try done.
  rewrite sleeps_sleep. by case_decide.
Qed.

Lemma download_file_gets_frame d net url u w :
  u ≠ url ->
  gets url (log (snd (download_file d net u w))) = gets url (log w)
  /\ sleeps url (log (snd (download_file d net u w))) = sleeps url (log w).
Proof.
  intros Hne. destruct (download_file_log d net u w) as (l & -> & Hown).
  rewrite gets_app, sleeps_app, (gets_own url u l), (sleeps_own url u l) by done. lia.
Qed.




(** ** One call of [download_file] *)

Lemma download_file_staged d net url w :
  staged d url (fs w) = true ->
  download_file d net url w = (Value (str (filepath_of d url), true), w).
Proof. unfold download_file, staged. by intros ->. Qed.



Lemma attempt_transient d net url w :
  transient (net url (gets url (log w))) = true ->
  exists w', attempt d net url w = (Handled, w')
             /\ log w' = log w ++ [EvGet url].
Proof.
  intros Htr. pose proof (attempt_log d net url w) as Hlog.
  unfold attempt in *. unfold transient, is_login, is_auth_status, is_html in Htr.
  destruct (net url (gets url (log w))) as [|r]; [by eexists|].
  destruct (PyStr.contains auth_url_pattern (resp_url r)); [done|].
  destruct (raise_for_status r); simpl in Htr.
  - destruct (status_code r =? 401); [done|].
    destruct (status_code r =? 403); [done|]. by eexists.
  - destruct (PyStr.contains "html" _); [done|]. simpl in Htr. rewrite Htr in *.
    destruct (content_length r) as [[?|]|]; try by eexists.
    + destruct (open_wb _ _); by eexists.
    + destruct (open_wb _ _); by eexists.
Qed.

Lemma retry_trace_step url delay n :
  retry_trace url delay (S (S n)) =
  EvGet url :: EvSleep url delay :: retry_trace url delay (S n).
Proof. done. Qed.

Lemma retry_loop_transient d net url n i w :
  i + Z.of_nat n = max_retries d ->
  0 <= retry_delay d ->
  (forall k, (k < n)%nat -> transient (net url (gets url (log w) + k)%nat) = true) ->
  exists w', retry_loop d net url n i w = (Value (filename_of url, false), w')
             /\ log w' = log w ++ retry_trace url (retry_delay d) n.
Proof.
  intros Hin Hdelay. revert i w Hin.
  induction n as [|n IH]; intros i w Hin Htr.
  - exists w. by rewrite app_nil_r.
  - destruct (attempt_transient d net url w) as (w1 & Hat & Hlog1).
    { specialize (Htr 0%nat). rewrite Nat.add_0_r in Htr. apply Htr. lia. }
    cbn [retry_loop]. rewrite Hat.
    destruct n as [|n].
    + assert ((i <? max_retries d - 1) = false) as -> by lia.
      exists w1. by rewrite Hlog1.
    + assert ((i <? max_retries d - 1) = true) as -> by lia.
      assert ((retry_delay d <? 0) = false) as -> by lia.
      destruct (IH (i + 1) (emit (EvSleep url (retry_delay d)) w1)) as (w' & Hloop & Hlog').
      { lia. }
      { intros k Hk. simpl. rewrite Hlog1, !gets_app, gets_get, gets_sleep.
        case_decide; [|done].
        replace (gets url (log w) + 1 + 0 + k)%nat with (gets url (log w) + S k)%nat by lia.
        apply Htr. lia. }
      exists w'. split; [done|].
      rewrite Hlog', retry_trace_step. simpl. rewrite Hlog1, <- !app_assoc. done.
Qed.

Lemma gets_retry_trace url delay n : gets url (retry_trace url delay n) = n.
Proof.
  induction n as [|[|n] IH]; [done| |].
  - simpl. unfold gets. simpl. by rewrite String.eqb_refl.
  - rewrite retry_trace_step.
    change (gets url ([EvGet url] ++ [EvSleep url delay] ++ retry_trace url delay (S n)) = S (S n)).
    rewrite !gets_app, IH, gets_get, gets_sleep. by case_decide.
Qed.

Lemma sleeps_retry_trace url delay n :
  sleeps url (retry_trace url delay n) = Nat.pred n.
Proof.
  induction n as [|[|n] IH]; [done|done|].
  rewrite retry_trace_step.
  change (sleeps url ([EvGet url] ++ [EvSleep url delay] ++ retry_trace url delay (S n)) = S n).
  rewrite !sleeps_app, IH, sleeps_get, sleeps_sleep. by case_decide.
Qed.

Lemma download_file_transient d net url w :
  staged d url (fs w) = false ->
  0 <= retry_delay d ->
  (forall k, transient (net url k) = true) ->
  exists w', download_file d net url w = (Value (filename_of url, false), w')
             /\ log w' = log w ++ retry_trace url (retry_delay d) (Z.to_nat (max_retries d)).
Proof.
  intros Hst Hdelay Htr. unfold download_file. unfold staged in Hst. rewrite Hst.
  destruct (Z_le_gt_dec 0 (max_retries d)) as [Hle|Hgt].
  - apply retry_loop_transient; [lia|done|]. intros k _. apply Htr.
  - assert (Z.to_nat (max_retries d) = O) as -> by lia.
    exists w. by rewrite app_nil_r.
Qed.

(** ** The download stage *)

Lemma exists_ext (f1 f2 : gmap Path node) p :
  f1 !! p = f2 !! p -> exists_ f1 p = exists_ f2 p.
Proof. unfold exists_, lookup_node. by intros ->. Qed.

Lemma heap_set_eq o v h : heap_set o v h o = v.
Proof. unfold heap_set. by case_decide. Qed.

Lemma heap_set_ne o o' v h : o' ≠ o -> heap_set o v h o' = h o'.
Proof. unfold heap_set. by case_decide. Qed.

Lemma heap_append_elem o x h : x ∈ heap_append o x h o.
Proof.
  unfold heap_append. rewrite heap_set_eq. apply elem_of_app. right.
  by apply list_elem_of_singleton.
Qed.

(** What the loop body does with the result of the task of [url]. *)
Lemma collect_unfold d net w h url :
  collect d net (w, h) url =
  (snd (download_file d net url w),
   match fst (download_file d net url w) with
   | Value (filepath, true) => heap_append DownloadedFiles filepath h
   | _ => heap_append FailedDownloads url h
   end).
Proof.
  unfold collect. destruct (download_file d net url w) as [[[s [|]]|] w']; done.
Qed.

Lemma collect_failed_mono d net st url x :
  x ∈ snd st FailedDownloads -> x ∈ snd (collect d net st url) FailedDownloads.
Proof.
  destruct st as [w h]. rewrite collect_unfold. simpl. intros Hx.
  destruct (fst (download_file d net url w)) as [[s [|]]|];
    unfold heap_append; rewrite ?heap_set_eq, ?heap_set_ne by done;
    set_solver.
Qed.

Lemma collect_downloaded_mono d net st url x :
  x ∈ snd st DownloadedFiles -> x ∈ snd (collect d net st url) DownloadedFiles.
Proof.
  destruct st as [w h]. rewrite collect_unfold. simpl. intros Hx.
  destruct (fst (download_file d net url w)) as [[s [|]]|];
    unfold heap_append; rewrite ?heap_set_eq, ?heap_set_ne by done;
    set_solver.
Qed.

Lemma collect_other d net st url o :
  o ≠ DownloadedFiles -> o ≠ FailedDownloads ->
  snd (collect d net st url) o = snd st o.
Proof.
  destruct st as [w h]. rewrite collect_unfold. simpl. intros H1 H2.
  destruct (fst (download_file d net url w)) as [[s [|]]|];
    unfold heap_append; by rewrite heap_set_ne.
Qed.

Lemma collect_accounting d net st url :
  (length (snd (collect d net st url) DownloadedFiles)
   + length (snd (collect d net st url) FailedDownloads)
   = length (snd st DownloadedFiles) + length (snd st FailedDownloads) + 1)%nat.
Proof.
  destruct st as [w h]. rewrite collect_unfold. simpl.
  destruct (fst (download_file d net url w)) as [[s [|]]|];
    unfold heap_append; rewrite ?heap_set_eq, ?heap_set_ne by done;
    rewrite ?length_app; simpl; lia.
Qed.

Lemma stage_failed_mono d net l st x :
  x ∈ snd st FailedDownloads ->
  x ∈ snd (fold_left (collect d net) l st) FailedDownloads.
Proof.
  revert st. induction l as [|u l IH]; intros st Hx; simpl; [done|].
  by apply IH, collect_failed_mono.
Qed.

Lemma stage_downloaded_mono d net l st x :
  x ∈ snd st DownloadedFiles ->
  x ∈ snd (fold_left (collect d net) l st) DownloadedFiles.
Proof.
  revert st. induction l as [|u l IH]; intros st Hx; simpl; [done|].
  by apply IH, collect_downloaded_mono.
Qed.

Lemma stage_other d net l st o :
  o ≠ DownloadedFiles -> o ≠ FailedDownloads ->
  snd (fold_left (collect d net) l st) o = snd st o.
Proof.
  intros H1 H2. revert st. induction l as [|u l IH]; intros st; simpl; [done|].
  by rewrite IH, collect_other.
Qed.

Lemma stage_accounting d net l st :
  (length (snd (fold_left (collect d net) l st) DownloadedFiles)
   + length (snd (fold_left (collect d net) l st) FailedDownloads)
   = length (snd st DownloadedFiles) + length (snd st FailedDownloads) + length l)%nat.
Proof.
  revert st. induction l as [|u l IH]; intros st; simpl; [lia|].
  rewrite IH. pose proof (collect_accounting d net st u). lia.
Qed.

(** The tasks of the other staging paths leave the file of [p] alone. *)
Lemma stage_fs_frame d net l st p :
  (forall u, u ∈ l -> filepath_of d u ≠ p) ->
  fs (fst (fold_left (collect d net) l st)) !! p = fs (fst st) !! p.
Proof.
  revert st. induction l as [|u l IH]; intros st Hl; simpl; [done|].
  rewrite IH by (intros; apply Hl; set_solver).
  destruct st as [w h]. rewrite collect_unfold. simpl.
  apply download_file_fs_frame. intros ->. eapply Hl; [|done]. set_solver.
Qed.

(** The tasks of the other URLs issue no request for [url]. *)
Lemma stage_gets_frame d net l st url :
  url ∉ l ->
  gets url (log (fst (fold_left (collect d net) l st))) = gets url (log (fst st))
  /\ sleeps url (log (fst (fold_left (collect d net) l st))) = sleeps url (log (fst st)).
Proof.
  revert st. induction l as [|u l IH]; intros st Hl; [done|].
  apply not_elem_of_cons in Hl as [Hne Hl]. simpl.
  destruct (IH (collect d net st u) Hl) as [Hg Hs].
  rewrite Hg, Hs. destruct st as [w h]. rewrite collect_unfold. simpl.
  by apply download_file_gets_frame.
Qed.

(** A task never removes or replaces a directory. *)
Lemma is_dir_ext (f1 f2 : gmap Path node) p :
  f1 !! p = f2 !! p -> is_dir f1 p = is_dir f2 p.
Proof. unfold is_dir, lookup_node. by intros ->. Qed.

Lemma append_bytes_is_dir (f : gmap Path node) p q b :
  is_dir f q = true -> is_dir (append_bytes f p b) q = true.
Proof.
  intros Hq. destruct (decide (p = q)) as [->|Hne].
  - unfold append_bytes. destruct (f !! q) as [[c|]|] eqn:Hf; try done.
    unfold is_dir, lookup_node in *. destruct (is_anchor q); [done|].
    by rewrite Hf in Hq.
  - rewrite <- Hq. apply is_dir_ext. by apply lookup_append_bytes_ne.
Qed.

Lemma write_chunks_is_dir (f : gmap Path node) p q chunks :
  is_dir f q = true -> is_dir (write_chunks f p chunks) q = true.
Proof.
  unfold write_chunks. revert f.
  induction chunks as [|c chunks IH]; intros f Hq; simpl; [done|].
  apply IH. destruct c; [done|]. by apply append_bytes_is_dir.
Qed.

Lemma open_wb_is_dir (f f' : gmap Path node) p q :
  open_wb f p = Some f' -> is_dir f q = true -> is_dir f' q = true.
Proof.
  unfold open_wb. destruct (is_dir f p) eqn:Hp; [done|].
  destruct (is_dir f (parent p)); [|done]. intros [= <-] Hq.
  rewrite <- Hq. apply is_dir_ext. apply lookup_insert_ne. congruence.
Qed.

Lemma unlink_is_dir (f f' : gmap Path node) p q :
  unlink f p = Some f' -> is_dir f q = true -> is_dir f' q = true.
Proof.
  unfold unlink. destruct (lookup_node f p) as [[c|]|] eqn:Hp; try done.
  intros [= <-] Hq. rewrite <- Hq. apply is_dir_ext. apply lookup_delete_ne.
  intros ->. unfold is_dir in Hq. by rewrite Hp in Hq.
Qed.

Lemma attempt_is_dir d net url w q :
  is_dir (fs w) q = true -> is_dir (fs (snd (attempt d net url w))) q = true.
Proof.
  intros Hq. unfold attempt.
  repeat (first [ done | case_match | progress cbn [fst snd fs emit set_fs] ]);
    eauto using write_chunks_is_dir, open_wb_is_dir, unlink_is_dir.
Qed.

Lemma download_file_is_dir d net url w q :
  is_dir (fs w) q = true -> is_dir (fs (snd (download_file d net url w))) q = true.
Proof.
  unfold download_file. destruct (exists_ _ _); [done|].
  generalize 0. generalize (Z.to_nat (max_retries d)). intros n. revert w.
  induction n as [|n IH]; intros w i Hq; simpl; [done|].
  pose proof (attempt_is_dir d net url w q Hq) as Hq1.
  destruct (attempt d net url w) as [[r|] w1]; simpl in *; [done|].
  destruct (i <? max_retries d - 1).
  - destruct (retry_delay d <? 0); simpl; [done|]. by apply IH.
  - by apply IH.
Qed.

Lemma stage_is_dir d net l st q :
  is_dir (fs (fst st)) q = true ->
  is_dir (fs (fst (fold_left (collect d net) l st))) q = true.
Proof.
  revert st. induction l as [|u l IH]; intros st Hq; simpl; [done|].
  apply IH. destruct st as [w h]. rewrite collect_unfold. cbn [fst].
  by apply download_file_is_dir.
Qed.

(** The state in which the task of [url] runs, and what the stage keeps of
    its result, when no other URL of the batch shares its staging path. *)
Lemma stage_item d net l st url :
  NoDup (map (filepath_of d) l) ->
  url ∈ l ->
  exists w1,
    fs w1 !! filepath_of d url = fs (fst st) !! filepath_of d url
    /\ (forall q, is_dir (fs (fst st)) q = true -> is_dir (fs w1) q = true)
    /\ gets url (log w1) = gets url (log (fst st))
    /\ sleeps url (log w1) = sleeps url (log (fst st))
    /\ let r := download_file d net url w1 in
       let st' := fold_left (collect d net) l st in
       fs (fst st') !! filepath_of d url = fs (snd r) !! filepath_of d url
       /\ gets url (log (fst st')) = gets url (log (snd r))
       /\ sleeps url (log (fst st')) = sleeps url (log (snd r))
       /\ match fst r with
          | Value (s, true) => s ∈ snd st' DownloadedFiles
          | _ => url ∈ snd st' FailedDownloads
          end.
Proof.
  intros Hnd Hin.
  apply list_elem_of_split in Hin as (l1 & l2 & ->).
  rewrite map_app in Hnd. simpl in Hnd.
  apply NoDup_app in Hnd as (Hnd1 & Hdisj & Hnd2).
  apply NoDup_cons in Hnd2 as [Hnotin2 Hnd2].
  assert (forall u, u ∈ l1 -> filepath_of d u ≠ filepath_of d url) as Hl1.
  { intros u Hu Heq. apply (Hdisj (filepath_of d u)).
    - apply list_elem_of_fmap. by exists u.
    - rewrite Heq. set_solver. }
  assert (forall u, u ∈ l2 -> filepath_of d u ≠ filepath_of d url) as Hl2.
  { intros u Hu Heq. apply Hnotin2. rewrite <- Heq.
    apply list_elem_of_fmap. by exists u. }
  assert (url ∉ l1) as Hn1 by (intros Hu; by apply (Hl1 url)).
  assert (url ∉ l2) as Hn2 by (intros Hu; by apply (Hl2 url)).
  destruct (stage_gets_frame d net l1 st url Hn1) as [Hg1 Hs1].
  pose proof (stage_fs_frame d net l1 st _ Hl1) as Hf1.
  pose proof (fun q => stage_is_dir d net l1 st q) as Hd1.
  destruct (fold_left (collect d net) l1 st) as [w1 h1] eqn:Hst1.
  cbn [fst snd] in Hg1, Hs1, Hf1, Hd1.
  exists w1. split; [done|]. split; [done|]. split; [done|]. split; [done|].
  cbn zeta. rewrite fold_left_app. cbn [fold_left]. rewrite Hst1.
  destruct (stage_gets_frame d net l2 (collect d net (w1, h1) url) url Hn2) as [Hg2 Hs2].
  rewrite Hg2, Hs2, (stage_fs_frame d net l2 _ _ Hl2).
  rewrite !collect_unfold. cbn [fst snd].
  split; [done|]. split; [done|]. split; [done|].
  destruct (fst (download_file d net url w1)) as [[s [|]]|] eqn:Hr.
  - apply stage_downloaded_mono. cbn [snd].
    apply heap_append_elem.
  - apply stage_failed_mono. cbn [snd].
    apply heap_append_elem.
  - apply stage_failed_mono. cbn [snd].
    apply heap_append_elem.
Qed.

Lemma stage_perm_nodup (as_completed : list string -> list string) d batch :
  (forall l, as_completed l ≡ₚ l) ->
  NoDup (map (filepath_of d) batch) ->
  NoDup (map (filepath_of d) (as_completed batch)).
Proof.
  intros Hperm Hnd. eapply NoDup_Permutation_proper; [|exact Hnd].
  apply fmap_Permutation, Hperm.
Qed.

Lemma staged_false_lookup (d : AsterDownloader) (url : string) (f : gmap Path node) :
  staged d url f = false ->
  is_anchor (filepath_of d url) = false /\ f !! filepath_of d url = None.
Proof.
  unfold staged, exists_, lookup_node.
  destruct (is_anchor _); [done|]. by destruct (f !! _).
Qed.


(** ** C1 *)




(** ** C2 *)




(** ** C3 *)






(** ** C4 *)





(** ** Directories and files under extraction *)

Lemma lookup_node_insert_ne (f : gmap Path node) p q x :
  p ≠ q -> lookup_node (<[p := x]> f) q = lookup_node f q.
Proof. intros Hne. unfold lookup_node. by rewrite lookup_insert_ne. Qed.

Lemma lookup_node_insert_eq (f : gmap Path node) p x :
  is_anchor p = false -> lookup_node (<[p := x]> f) p = Some x.
Proof. intros Ha. unfold lookup_node. by rewrite Ha, lookup_insert_eq. Qed.

Lemma fs_grows_refl (f : gmap Path node) : fs_grows f f.
Proof. by split. Qed.

Lemma fs_grows_trans (f1 f2 f3 : gmap Path node) :
  fs_grows f1 f2 -> fs_grows f2 f3 -> fs_grows f1 f3.
Proof. intros [H1 H2] [H3 H4]. split; auto. Qed.

Lemma mkdir_one_spec (f f' : gmap Path node) p :
  mkdir_one f p = Some f' ->
  fs_grows f f' /\ is_dir f' p = true /\ keeps_files f f' (fun _ => False).
Proof.
  unfold mkdir_one. destruct (lookup_node f p) as [[c|]|] eqn:Hp; [done| |].
  - intros [= <-]. split; [apply fs_grows_refl|]. split.
    + unfold is_dir. by rewrite Hp.
    + by intros q c _.
  - intros [= <-].
    assert (is_anchor p = false) as Ha.
    { unfold lookup_node in Hp. by destruct (is_anchor p). }
    assert (forall q, is_Some (lookup_node f q) ->
              lookup_node (<[p := Dir]> f) q = lookup_node f q) as Hfr.
    { intros q [x Hq]. apply lookup_node_insert_ne. intros ->. congruence. }
    split; [split|split].
    + intros q Hq. unfold is_dir in *. rewrite Hfr; [done|].
      destruct (lookup_node f q); [by eexists|done].
    + intros q Hq. unfold is_file in *. rewrite Hfr; [done|].
      destruct (lookup_node f q); [by eexists|done].
    + unfold is_dir. by rewrite lookup_node_insert_eq.
    + intros q c _ Hq. rewrite Hfr; [done|]. by eexists.
Qed.

Lemma keeps_files_trans (f1 f2 f3 : gmap Path node) (P : Path -> Prop) :
  keeps_files f1 f2 P -> keeps_files f2 f3 P -> keeps_files f1 f3 P.
Proof. intros H1 H2 q c Hq Hf. eauto. Qed.

Lemma keeps_files_weaken (f1 f2 : gmap Path node) (P Q : Path -> Prop) :
  (forall q, P q -> Q q) -> keeps_files f1 f2 P -> keeps_files f1 f2 Q.
Proof. intros HPQ H q c Hq Hf. apply H; [|done]. intros HP. by apply Hq, HPQ. Qed.

Lemma mkdir_all_spec (f f' : gmap Path node) ps :
  mkdir_all f ps = Some f' ->
  fs_grows f f' /\ (forall p, p ∈ ps -> is_dir f' p = true)
  /\ keeps_files f f' (fun _ => False).
Proof.
  revert f. induction ps as [|p ps IH]; intros f; simpl.
  - intros [= <-]. split; [apply fs_grows_refl|]. split.
    + by intros p ?%elem_of_nil.
    + by intros q c _.
  - destruct (mkdir_one f p) as [f1|] eqn:H1; [|done]. intros Hall.
    apply mkdir_one_spec in H1 as (Hg1 & Hd1 & Hk1).
    apply IH in Hall as (Hg & Hd & Hk).
    split; [by eapply fs_grows_trans|]. split; [|by eapply keeps_files_trans].
    intros q [->|Hq]%elem_of_cons; [|by apply Hd]. by apply Hg.
Qed.

Lemma prefixes_from_last acc a p : acc ++ a :: p ∈ prefixes_from acc (a :: p).
Proof.
  revert acc a. induction p as [|b p IH]; intros acc a; simpl.
  - apply elem_of_cons. by left.
  - apply elem_of_cons. right.
    replace (acc ++ a :: b :: p) with ((acc ++ [a]) ++ b :: p) by (by rewrite <- app_assoc).
    apply IH.
Qed.

Lemma mkdir_parents_spec (f f' : gmap Path node) p :
  mkdir_parents f p = Some f' ->
  fs_grows f f' /\ is_dir f' p = true /\ keeps_files f f' (fun _ => False).
Proof.
  unfold mkdir_parents. intros (Hg & Hd & Hk)%mkdir_all_spec.
  split; [done|]. split; [|done].
  destruct p as [|a p]; [done|]. apply Hd. apply (prefixes_from_last [] a p).
Qed.

Lemma open_wb_spec (f f' : gmap Path node) p :
  open_wb f p = Some f' ->
  f' = <[p := File []]> f /\ is_anchor p = false /\ is_dir f p = false
  /\ is_dir f (parent p) = true.
Proof.
  unfold open_wb. destruct (is_dir f p) eqn:Hp; [done|].
  destruct (is_dir f (parent p)) eqn:Hpar; [|done]. intros [= <-].
  repeat split; try done.
  unfold is_dir, lookup_node in Hp. by destruct (is_anchor p).
Qed.

(** Opening a file for writing and writing [b] to it. *)
Lemma write_spec (f f1 : gmap Path node) p b :
  open_wb f p = Some f1 ->
  let f2 := append_bytes f1 p b in
  fs_grows f f2 /\ lookup_node f2 p = Some (File b)
  /\ keeps_files f f2 (fun q => q = p)
  /\ fs_grows f f1 /\ keeps_files f f1 (fun q => q = p).
Proof.
  intros (-> & Ha & Hp & Hpar)%open_wb_spec. cbn zeta.
  assert (append_bytes (<[p := File []]> f) p b = <[p := File b]> f) as ->.
  { unfold append_bytes. by rewrite lookup_insert_eq, insert_insert_eq. }
  assert (forall x, fs_grows f (<[p := File x]> f)) as Hgrow.
  { intros x. split; intros q Hq.
    - rewrite <- Hq. unfold is_dir. rewrite lookup_node_insert_ne; [done|].
      intros ->. congruence.
    - destruct (decide (p = q)) as [<-|Hne].
      + unfold is_file. by rewrite lookup_node_insert_eq.
      + rewrite <- Hq. unfold is_file. by rewrite lookup_node_insert_ne. }
  assert (forall x, keeps_files f (<[p := File x]> f) (fun q => q = p)) as Hkeep.
  { intros x q c Hq Hf. rewrite lookup_node_insert_ne; [done|]. by intros ->. }
  split; [done|]. split; [by apply lookup_node_insert_eq|]. done.
Qed.

(** ** One member *)

Lemma kept_unfold nm :
  kept nm = negb (PyStr.endswith nm num_suffix) && negb (PyStr.endswith nm "/").
Proof. done. Qed.

Lemma extract_member_grows d a nm w ex :
  fs_grows (fs w) (fs (snd (extract_member d a nm w ex)))
  /\ keeps_files (fs w) (fs (snd (extract_member d a nm w ex)))
       (fun q => kept nm = true /\ q = target d nm).
Proof.
  unfold extract_member, target. rewrite kept_unfold.
  destruct (PyStr.endswith nm num_suffix).
  { split; [apply fs_grows_refl|]. by intros q c _. }
  destruct (mkdir_parents (fs w) _) as [f1|] eqn:Hmk.
  2:{ split; [apply fs_grows_refl|]. by intros q c _. }
  apply mkdir_parents_spec in Hmk as (Hg1 & _ & Hk1).
  assert (forall P : Path -> Prop, keeps_files (fs w) f1 P) as Hk1'.
  { intros P. eapply keeps_files_weaken; [|exact Hk1]. done. }
  destruct (PyStr.endswith nm "/"); [done|].
  assert (forall f2, keeps_files f1 f2 (fun q => q = joinpath (dem_dir d) nm) ->
            keeps_files (fs w) f2
              (fun q => negb false && negb false = true /\ q = joinpath (dem_dir d) nm))
    as Hk.
  { intros f2 Hk2. eapply keeps_files_trans; [apply Hk1'|].
    eapply keeps_files_weaken; [|exact Hk2]. by intros q ->. }
  destruct (getinfo a nm) as [[| |b]|]; try done.
  - destruct (open_wb f1 _) as [f2|] eqn:Hop; [|done].
    destruct (write_spec f1 f2 _ [] Hop) as (_ & _ & _ & Hg2 & Hk2). cbn [snd fs set_fs].
    split; [by eapply fs_grows_trans|by apply Hk].
  - destruct (open_wb f1 _) as [f2|] eqn:Hop; [|done].
    destruct (write_spec f1 f2 _ b Hop) as (Hg2 & _ & Hk2 & _). cbn [snd fs set_fs emit].
    split; [by eapply fs_grows_trans|by apply Hk].
Qed.

Lemma extract_member_log d a nm w ex :
  log (snd (extract_member d a nm w ex)) =
  log w ++ match fst (extract_member d a nm w ex) with
           | Some _ => if kept nm then [write_event d a nm] else []
           | None => []
           end.
Proof.
  unfold extract_member, write_event, member_bytes, target. rewrite kept_unfold.
  destruct (PyStr.endswith nm num_suffix); [by rewrite app_nil_r|].
  destruct (mkdir_parents (fs w) _) as [f1|]; [|by rewrite app_nil_r].
  destruct (PyStr.endswith nm "/"); [by rewrite app_nil_r|].
  destruct (getinfo a nm) as [[| |b]|]; try by rewrite app_nil_r.
  - destruct (open_wb f1 _); by rewrite app_nil_r.
  - destruct (open_wb f1 _); [done|by rewrite app_nil_r].
Qed.

Lemma extract_member_some d a nm w ex ex' w' :
  extract_member d a nm w ex = (Some ex', w') ->
  ex' = ex ++ (if kept nm then [str (target d nm)] else [])
  /\ (kept nm = true ->
      read_file (fs w') (target d nm) = Some (member_bytes a nm)
      /\ is_dir (fs w') (parent (target d nm)) = true).
Proof.
  unfold extract_member, member_bytes, target. rewrite kept_unfold.
  destruct (PyStr.endswith nm num_suffix).
  { intros [= <- <-]. by rewrite app_nil_r. }
  destruct (mkdir_parents (fs w) _) as [f1|] eqn:Hmk; [|done].
  apply mkdir_parents_spec in Hmk as (_ & Hd1 & _).
  destruct (PyStr.endswith nm "/").
  { intros [= <- <-]. by rewrite app_nil_r. }
  destruct (getinfo a nm) as [[| |b]|]; try done.
  - by destruct (open_wb f1 _).
  - destruct (open_wb f1 _) as [f2|] eqn:Hop; [|done].
    destruct (write_spec f1 f2 _ b Hop) as ([Hg2 _] & Hb & _).
    intros [= <- <-]. split; [done|]. intros _. cbn [fs emit set_fs].
    split; [|by apply Hg2]. unfold read_file. by rewrite Hb.
Qed.

(** ** All members *)

Lemma extract_members_any d a names w ex :
  fs_grows (fs w) (fs (snd (extract_members d a names w ex)))
  /\ exists l, log (snd (extract_members d a names w ex)) = log w ++ l
               /\ Forall (write_ok d) l.
Proof.
  revert w ex. induction names as [|nm names IH]; intros w ex; simpl.
  - split; [apply fs_grows_refl|]. exists []. by rewrite app_nil_r.
  - pose proof (extract_member_grows d a nm w ex) as [Hg1 _].
    pose proof (extract_member_log d a nm w ex) as Hlog1.
    assert (exists l1, log (snd (extract_member d a nm w ex)) = log w ++ l1
                       /\ Forall (write_ok d) l1) as (l1 & Hl1 & Hok1).
    { eexists. split; [exact Hlog1|].
      destruct (fst _); [|constructor]. destruct (kept nm) eqn:Hk; [|constructor].
      by repeat constructor. }
    destruct (extract_member d a nm w ex) as [[ex1|] w1]; cbn [fst snd] in *.
    + destruct (IH w1 ex1) as (Hg & l & Hl & Hok).
      split; [by eapply fs_grows_trans|].
      exists (l1 ++ l). rewrite Hl, Hl1, <- app_assoc. split; [done|].
      by apply Forall_app.
    + split; [done|]. by exists l1.
Qed.

Lemma extract_members_keeps d a names w ex :
  keeps_files (fs w) (fs (snd (extract_members d a names w ex)))
    (fun q => q ∈ map (target d) (List.filter kept names)).
Proof.
  revert w ex. induction names as [|nm names IH]; intros w ex; simpl.
  - by intros q c _.
  - pose proof (extract_member_grows d a nm w ex) as [_ Hk1].
    destruct (extract_member d a nm w ex) as [[ex1|] w1]; cbn [fst snd] in *.
    + eapply keeps_files_trans.
      * eapply keeps_files_weaken; [|exact Hk1]. intros q [Hkept ->].
        rewrite Hkept. simpl. apply elem_of_cons. by left.
      * eapply keeps_files_weaken; [|apply IH]. intros q Hq.
        destruct (kept nm); [|done]. simpl. apply elem_of_cons. by right.
    + eapply keeps_files_weaken; [|exact Hk1]. intros q [Hkept ->].
      rewrite Hkept. simpl. apply elem_of_cons. by left.
Qed.

Lemma extract_members_success d a names w ex ex' w' :
  extract_members d a names w ex = (Some ex', w') ->
  let ks := List.filter kept names in
  ex' = ex ++ map (fun nm => str (target d nm)) ks
  /\ log w' = log w ++ map (write_event d a) ks
  /\ (forall nm, nm ∈ ks ->
        is_file (fs w') (target d nm) = true
        /\ is_dir (fs w') (parent (target d nm)) = true)
  /\ (NoDup (map (target d) ks) ->
      forall nm, nm ∈ ks -> read_file (fs w') (target d nm) = Some (member_bytes a nm)).
Proof.
  cbn zeta. revert w ex. induction names as [|nm names IH]; intros w ex; simpl.
  - intros [= <- <-]. rewrite !app_nil_r. split; [done|]. split; [done|]. split.
    + by intros n ?%elem_of_nil.
    + by intros _ n ?%elem_of_nil.
  - pose proof (extract_member_log d a nm w ex) as Hlog1.
    destruct (extract_member d a nm w ex) as [[ex1|] w1] eqn:Hstep; [|done].
    cbn [fst snd] in Hlog1. intros Hrest.
    pose proof (extract_members_any d a names w1 ex1) as [[Hgd Hgf] _].
    pose proof (extract_members_keeps d a names w1 ex1) as Hkeep.
    rewrite Hrest in Hgd, Hgf, Hkeep. cbn [snd] in Hgd, Hgf, Hkeep.
    apply extract_member_some in Hstep as [-> Hhead].
    apply IH in Hrest as (-> & -> & Hfiles & Hcontent).
    rewrite Hlog1. destruct (kept nm) eqn:Hk; simpl.
    + destruct (Hhead eq_refl) as [Hread Hpar].
      rewrite <- !app_assoc. split; [done|]. split; [done|]. split.
      * intros n [->|Hn]%elem_of_cons; [|by apply Hfiles].
        split; [|by apply Hgd]. apply Hgf. unfold is_file, read_file in *.
        by destruct (lookup_node (fs w1) (target d nm)) as [[c|]|].
      * intros [Hnotin Hnd]%NoDup_cons n [->|Hn]%elem_of_cons; [|by apply Hcontent].
        unfold read_file in *.
        destruct (lookup_node (fs w1) (target d nm)) as [[c|]|] eqn:Hl; try done.
        by rewrite (Hkeep _ c Hnotin Hl).
    + rewrite !app_nil_r. done.
Qed.

(** ** C5 *)



(** ** The extraction stage and the list objects *)

Lemma extract_step_heap unzip d st zip_file o :
  o ≠ ProcessedFiles -> snd (extract_step unzip d st zip_file) o = snd st o.
Proof.
  intros Ho. unfold extract_step. destruct st as [w h].
  destruct (bool_decide _); [done|].
  destruct (process_zip unzip d zip_file w) as [[[s [|]] ex] w']; [|done].
  cbn [snd]. unfold heap_append. by rewrite heap_set_ne.
Qed.

Lemma extract_fold_heap unzip d l st o :
  o ≠ ProcessedFiles -> snd (fold_left (extract_step unzip d) l st) o = snd st o.
Proof.
  intros Ho. revert st. induction l as [|z l IH]; intros st; simpl; [done|].
  by rewrite IH, extract_step_heap.
Qed.

(** An archive that [processed_files] lists is not extracted again by the
    extraction loop of [download_batch]. *)
Lemma extract_step_skips_processed unzip d w h zip_file :
  zip_file ∈ h ProcessedFiles -> extract_step unzip d (w, h) zip_file = (w, h).
Proof. intros Hin. unfold extract_step. by rewrite bool_decide_eq_true_2. Qed.

(** The download stage appends to [failed_downloads] a sublist of the URLs
    it was given, in completion order. *)
Lemma stage_failed_sublist d net l st :
  exists failed, snd (fold_left (collect d net) l st) FailedDownloads
                 = snd st FailedDownloads ++ failed
                 /\ failed `sublist_of` l.
Proof.
  revert st. induction l as [|u l IH]; intros st; simpl.
  - exists []. by rewrite app_nil_r.
  - destruct (IH (collect d net st u)) as (failed & -> & Hsub).
    destruct st as [w h]. rewrite collect_unfold. cbn [snd].
    destruct (fst (download_file d net u w)) as [[s [|]]|].
    + exists failed. unfold heap_append. rewrite heap_set_ne by done.
      split; [done|]. by apply sublist_cons.
    + exists (u :: failed). unfold heap_append. rewrite heap_set_eq, <- app_assoc.
      split; [done|]. by apply sublist_skip.
    + exists (u :: failed). unfold heap_append. rewrite heap_set_eq, <- app_assoc.
      split; [done|]. by apply sublist_skip.
Qed.

Lemma py_slice_all {A} (l : list A) : py_slice l 0 (Z.of_nat (length l)) = l.
Proof.
  unfold py_slice, clamp_index.
  assert ((0 <? 0) = false) as -> by done.
  assert ((Z.of_nat (length l) <? 0) = false) as -> by (apply Z.ltb_ge; lia).
  rewrite Z.min_id, Z.min_l by lia.
  replace (Z.to_nat (Z.of_nat (length l) - 0)) with (length l) by lia.
  simpl. apply firstn_all.
Qed.

Lemma py_slice_sublist {A} (l : list A) a b : py_slice l a b `sublist_of` l.
Proof.
  unfold py_slice. etrans; [apply sublist_take|apply sublist_drop].
Qed.

(** What a call of [download_batch] does to the list objects. *)
Lemma download_batch_heap unzip (as_completed : list string -> list string)
    d net urls start_idx end_idx st :
  (forall l, as_completed l ≡ₚ l) ->
  urls ≠ DownloadedFiles -> urls ≠ FailedDownloads ->
  let st' := download_batch unzip as_completed d net urls start_idx end_idx st in
  let batch := py_slice (snd st urls) start_idx
                 (match end_idx with None => Z.of_nat (length (snd st urls)) | Some e => e end) in
  (exists failed, snd st' FailedDownloads = snd st FailedDownloads ++ failed
                  /\ failed ⊆+ batch)
  /\ (length (snd st' DownloadedFiles) + length (snd st' FailedDownloads)
      = length (snd st DownloadedFiles) + length (snd st FailedDownloads)
        + length batch)%nat
  /\ snd st' Urls = snd st Urls
  /\ snd st' RetryUrls = snd st RetryUrls.
Proof.
  intros Hperm Hu1 Hu2. cbn zeta. unfold download_batch, extract_stage, download_stage.
  set (batch := py_slice _ _ _).
  set (sd := fold_left (collect d net) (as_completed batch) st).
  rewrite (extract_fold_heap unzip d _ sd FailedDownloads),
    (extract_fold_heap unzip d _ sd DownloadedFiles),
    (extract_fold_heap unzip d _ sd Urls),
    (extract_fold_heap unzip d _ sd RetryUrls) by done.
  subst sd.
  rewrite (stage_other d net _ st Urls), (stage_other d net _ st RetryUrls) by done.
  split; [|split; [|done]].
  - destruct (stage_failed_sublist d net (as_completed batch) st) as (failed & Hf & Hsub).
    exists failed. split; [done|].
    rewrite <- (Hperm batch). by apply sublist_submseteq.
  - rewrite stage_accounting. by rewrite Hperm.
Qed.

Lemma submseteq_NoDup {A} (l k : list A) : l ⊆+ k -> NoDup k -> NoDup l.
Proof.
  intros (k' & Hk)%submseteq_Permutation Hnd.
  rewrite Hk in Hnd. by apply NoDup_app in Hnd as (? & _ & _).
Qed.

Lemma NoDup_count_occ_1 (l : list string) x :
  NoDup l -> x ∈ l -> count_occ string_dec l x = 1%nat.
Proof.
  intros Hnd Hin. apply NoDup_ListNoDup in Hnd.
  apply (proj1 (NoDup_count_occ' string_dec l) Hnd). by apply list_elem_of_In.
Qed.

(** ** C8 *)

(** C8: when [main] retries, the work list of the retry pass is a copy of
    the failed list of the first pass, and the failed list is emptied
    before the pass.  The failed list at the end holds only items that the
    retry pass failed on, each of them an item of the copy: every item of
    the copy is counted once, as downloaded or as failed, and with a work
    list without duplicates an item that failed in both passes occurs
    exactly once in the final failed list.  When no two URLs share a
    staging path, an item of the copy whose retry does not end in success
    is in the final failed list. *)
Theorem retry_pass_records_failure_once
    (unzip : list byte -> option archive) (as_completed : list string -> list string)
    d net args urls w st' :
  (forall l, as_completed l ≡ₚ l) ->
  arg_reprocess args = false ->
  arg_retry_failed args = true ->
  let end_idx := if arg_test args then Some 1 else arg_end args in
  let st1 := download_batch unzip as_completed d net Urls (arg_start args) end_idx
               (w, heap_set Urls urls empty_heap) in
  snd st1 FailedDownloads ≠ [] ->
  main unzip as_completed d net args urls w = Some st' ->
  snd st' RetryUrls = snd st1 FailedDownloads
  /\ snd st' FailedDownloads ⊆+ snd st1 FailedDownloads
  /\ (length (snd st' FailedDownloads) + length (snd st' DownloadedFiles)
      = length (snd st1 DownloadedFiles) + length (snd st1 FailedDownloads))%nat
  /\ (NoDup urls ->
      NoDup (snd st' FailedDownloads)
      /\ forall url, url ∈ snd st' FailedDownloads ->
           count_occ string_dec (snd st' FailedDownloads) url = 1%nat
           /\ count_occ string_dec (snd st1 FailedDownloads) url = 1%nat)
  /\ (NoDup (map (filepath_of d) urls) ->
      forall url, url ∈ snd st1 FailedDownloads ->
        exists w1,
          fs w1 !! filepath_of d url = fs (fst st1) !! filepath_of d url
          /\ gets url (log w1) = gets url (log (fst st1))
          /\ match fst (download_file d net url w1) with
             | Value (s, true) => s ∈ snd st' DownloadedFiles
             | _ => url ∈ snd st' FailedDownloads
             end).
Proof.
  intros Hperm Hmode Hretry. cbn zeta. intros Hfailed.
  unfold main. rewrite Hmode. destruct urls as [|u0 urls0]; [done|].
  set (urls := u0 :: urls0) in *.
  set (end_idx := if arg_test args then Some 1 else arg_end args) in *.
  set (st1 := download_batch unzip as_completed d net Urls (arg_start args) end_idx
                (w, heap_set Urls urls empty_heap)) in *.
  rewrite Hretry. rewrite bool_decide_eq_false_2 by done. cbn [andb negb].
  set (h_copy := heap_set RetryUrls (snd st1 FailedDownloads) (snd st1)).
  set (h_clear := heap_set FailedDownloads [] h_copy).
  intros [= <-]. cbn [snd].
  destruct (download_batch_heap unzip as_completed d net RetryUrls 0 None
              (fst st1, h_clear) Hperm) as ((failed2 & Hf2 & Hsub2) & Hacc2 & _ & Hretry2);
    [done|done|].
  cbn [snd] in Hf2, Hsub2, Hacc2, Hretry2.
  assert (h_clear RetryUrls = snd st1 FailedDownloads) as Hcopy.
  { unfold h_clear, h_copy. by rewrite heap_set_ne, heap_set_eq. }
  assert (h_clear FailedDownloads = []) as Hclear.
  { unfold h_clear. by rewrite heap_set_eq. }
  assert (h_clear DownloadedFiles = snd st1 DownloadedFiles) as Hdown.
  { unfold h_clear, h_copy. by rewrite !heap_set_ne. }
  rewrite Hcopy, py_slice_all in Hsub2.
  rewrite Hcopy, py_slice_all, Hclear, Hdown in Hacc2.
  rewrite Hclear in Hf2. simpl in Hf2.
  split; [by rewrite Hretry2|]. split; [by rewrite Hf2|].
  split; [simpl in Hacc2; lia|].
  destruct (download_batch_heap unzip as_completed d net Urls (arg_start args) end_idx
              (w, heap_set Urls urls empty_heap) Hperm) as ((failed1 & Hf1 & Hsub1) & _);
    [done|done|].
  cbn [snd] in Hf1, Hsub1. fold st1 in Hf1.
  rewrite heap_set_eq in Hsub1. rewrite heap_set_ne in Hf1 by done.
  unfold empty_heap in Hf1. simpl in Hf1.
  assert (snd st1 FailedDownloads ⊆+ urls) as Hsub_urls.
  { rewrite Hf1. etrans; [exact Hsub1|]. apply sublist_submseteq, py_slice_sublist. }
  split.
  - intros Hnd.
    assert (NoDup (snd st1 FailedDownloads)) as Hnd1 by (by eapply submseteq_NoDup).
    assert (NoDup failed2) as Hnd2 by (by eapply submseteq_NoDup).
    rewrite Hf2. split; [done|]. intros url Hin.
    split; apply NoDup_count_occ_1; try done.
    by eapply elem_of_submseteq.
  - intros Hndf url Hin.
    assert (NoDup (map (filepath_of d) (snd st1 FailedDownloads))) as Hndf1.
    { eapply submseteq_NoDup; [|exact Hndf]. by apply fmap_submseteq. }
    destruct (stage_item d net (as_completed (snd st1 FailedDownloads))
                (fst st1, h_clear) url) as (w1 & Hfs & _ & Hg & _ & Hres).
    { by apply stage_perm_nodup. }
    { by rewrite Hperm. }
    exists w1. split; [exact Hfs|]. split; [exact Hg|].
    cbn zeta in Hres. destruct Hres as (_ & _ & _ & Hres).
    unfold download_batch, extract_stage, download_stage.
    cbn [snd]. rewrite Hcopy, py_slice_all.
    set (sd := fold_left (collect d net) (as_completed (snd st1 FailedDownloads))
                 (fst st1, h_clear)) in *.
    rewrite (extract_fold_heap unzip d _ sd FailedDownloads),
      (extract_fold_heap unzip d _ sd DownloadedFiles) by done.
    exact Hres.
Qed.

Lemma retry_pass_records_failure_once_witness :
  let net := always (sample_response 503 "text/plain" []) in
  let args := {| arg_start := 0; arg_end := None; arg_test := false;
                 arg_delete_zips := false; arg_retry_failed := true;
                 arg_reprocess := false |} in
  let st1 := download_batch sample_unzip (fun l => l) sample_downloader net Urls 0 None
               (sample_world, heap_set Urls [sample_url; other_url] empty_heap) in
  exists st',
    main sample_unzip (fun l => l) sample_downloader net args
      [sample_url; other_url] sample_world = Some st'
    /\ snd st' FailedDownloads = [sample_url; other_url]
    /\ snd st' RetryUrls = snd st1 FailedDownloads
    /\ snd st' FailedDownloads ⊆+ snd st1 FailedDownloads
    /\ (length (snd st' FailedDownloads) + length (snd st' DownloadedFiles)
        = length (snd st1 DownloadedFiles) + length (snd st1 FailedDownloads))%nat
    /\ (NoDup [sample_url; other_url] ->
        NoDup (snd st' FailedDownloads)
        /\ forall url, url ∈ snd st' FailedDownloads ->
             count_occ string_dec (snd st' FailedDownloads) url = 1%nat
             /\ count_occ string_dec (snd st1 FailedDownloads) url = 1%nat)
    /\ (NoDup (map (filepath_of sample_downloader) [sample_url; other_url]) ->
        forall url, url ∈ snd st1 FailedDownloads ->
          exists w1,
            fs w1 !! filepath_of sample_downloader url
            = fs (fst st1) !! filepath_of sample_downloader url
            /\ gets url (log w1) = gets url (log (fst st1))
            /\ match fst (download_file sample_downloader net url w1) with
               | Value (s, true) => s ∈ snd st' DownloadedFiles
               | _ => url ∈ snd st' FailedDownloads
               end).
Proof.
  cbn zeta. eexists. split; [reflexivity|]. split; [by vm_compute|].
  apply (retry_pass_records_failure_once sample_unzip (fun l => l) sample_downloader
           (always (sample_response 503 "text/plain" []))
           {| arg_start := 0; arg_end := None; arg_test := false;
              arg_delete_zips := false; arg_retry_failed := true;
              arg_reprocess := false |}
           [sample_url; other_url] sample_world).
  - reflexivity.
  - reflexivity.
  - reflexivity.
  - apply (bool_decide_unpack _). vm_compute. reflexivity.
  - reflexivity.
Defined.

(** ** C9 *)



(** A call on an archive that exists logs one extraction, then writes. *)
Lemma process_zip_log unzip d zip_path w :
  exists_ (fs w) (parse zip_path) = true ->
  fs_grows (fs w) (fs (snd (process_zip unzip d zip_path w)))
  /\ exists l, log (snd (process_zip unzip d zip_path w))
               = log w ++ EvExtract (str (parse zip_path)) :: l
               /\ Forall (write_ok d) l.
Proof.
  intros Hex. unfold process_zip. rewrite Hex. cbn [negb fs emit].
  destruct (read_file (fs w) _) as [bytes|].
  2:{ split; [apply fs_grows_refl|]. by exists []. }
  destruct (unzip bytes) as [a|].
  2:{ split; [apply fs_grows_refl|]. by exists []. }
  pose proof (extract_members_any d a (namelist a)
                (emit (EvExtract (str (parse zip_path))) w) []) as (Hg & l & Hl & Hok).
  cbn [log emit fs] in Hl, Hg.
  destruct (extract_members _ _ _ _ _) as [[ex|] w']; cbn [fst snd] in *;
    (split; [done|]; exists l; by rewrite Hl, <- app_assoc).
Qed.


Lemma reprocess_step_unfold unzip d w pc fc z :
  reprocess_step unzip d (w, (pc, fc)) z =
  (snd (process_zip unzip d (str z) w),
   if snd (fst (fst (process_zip unzip d (str z) w)))
   then (pc + 1, fc) else (pc, fc + 1)).
Proof.
  unfold reprocess_step.
  by destruct (process_zip unzip d (str z) w) as [[[s [|]] ex] w1].
Qed.




End AsterProofs.

Module MapzenProofs.
Import FS Mapzen MapzenSpec.

(** ** Names of compressed tiles *)

Lemma append_cons a s1 s2 : String a s1 +:+ s2 = String a (s1 +:+ s2).
Proof. done. Qed.

Lemma append_nil s : "" +:+ s = s.
Proof. done. Qed.

Lemma length_append s1 s2 :
  String.length (s1 +:+ s2) = (String.length s1 + String.length s2)%nat.
Proof.
  induction s1 as [|a s1 IH]; [done|]. rewrite append_cons. simpl. by rewrite IH.
Qed.

Lemma rfind_append c x y i :
  PyStr.rfind c y = Some i ->
  PyStr.rfind c (x +:+ y) = Some (String.length x + i)%nat.
Proof.
  intros Hy. induction x as [|a x IH]; [done|].
  rewrite append_cons. simpl. by rewrite IH.
Qed.

Lemma substring_append_skip x y i m :
  String.substring (String.length x + i) m (x +:+ y) = String.substring i m y.
Proof. induction x as [|a x IH]; [done|]. rewrite append_cons. simpl. exact IH. Qed.

Lemma substring_append_keep x y k :
  String.substring 0 (String.length x + k) (x +:+ y) = x +:+ String.substring 0 k y.
Proof.
  induction x as [|a x IH]; [done|]. rewrite !append_cons. simpl. by rewrite IH.
Qed.

Lemma append_inj_length x y z :
  x +:+ y = z -> String.length z = (String.length x + String.length y)%nat.
Proof. intros <-. apply length_append. Qed.

Lemma name_snoc dir n :
  (1 < String.length n)%nat -> name (dir ++ [n]) = n.
Proof.
  intros Hlen. unfold name. destruct dir as [|a dir]; simpl.
  - destruct (String.eqb_spec n "/") as [->|_]; [simpl in Hlen; lia|done].
  - rewrite bool_decide_eq_false_2 by (by destruct dir).
    rewrite andb_false_r. change (List.last (a :: dir ++ [n]) "" = n).
    by rewrite app_comm_cons, last_last.
Qed.

(** [Path("dir/x.hgt.gz").with_suffix('')] is [Path("dir/x.hgt")]. *)
Lemma with_suffix_hgt_gz dir x :
  with_suffix_empty (dir ++ [x +:+ ".hgt.gz"]) = Some (dir ++ [x +:+ ".hgt"]).
Proof.
  unfold with_suffix_empty, suffix.
  rewrite name_snoc by (rewrite length_append; simpl; lia).
  destruct (String.eqb_spec (x +:+ ".hgt.gz") "") as [Heq|_].
  { apply append_inj_length in Heq. simpl in Heq. lia. }
  rewrite (rfind_append "." x ".hgt.gz" 4) by done.
  rewrite length_append. simpl String.length.
  assert (((0 <? String.length x + 4) && (String.length x + 4 <? String.length x + 7 - 1))%nat
          = true) as ->.
  { apply andb_true_intro. split; apply Nat.ltb_lt; lia. }
  replace (String.length x + 7 - (String.length x + 4))%nat with 3%nat by lia.
  rewrite substring_append_skip. simpl String.length.
  replace (String.length x + 7 - 3)%nat with (String.length x + 4)%nat by lia.
  rewrite substring_append_keep, removelast_last. done.
Qed.

Lemma hgt_gz_ne dir x : dir ++ [x +:+ ".hgt.gz"] ≠ dir ++ [x +:+ ".hgt"].
Proof.
  intros Heq%app_inv_head. injection Heq as Heq.
  apply (f_equal String.length) in Heq. rewrite !length_append in Heq.
  simpl in Heq. lia.
Qed.

Lemma tile_not_anchor dir n : (1 < String.length n)%nat -> is_anchor (dir ++ [n]) = false.
Proof.
  intros Hlen. unfold is_anchor.
  rewrite bool_decide_eq_false_2 by (by destruct dir).
  rewrite bool_decide_eq_false_2; [done|].
  destruct dir as [|a [|b dir]]; simpl; try done.
  intros [= ->]. simpl in Hlen. lia.
Qed.

(** ** One call of [extract_gz_file] *)

Section OneCall.
Variable fault : io_op -> bool.
Variable gunzip : list byte -> list byte * bool.
Variable str_exn : exn -> string.


Lemma unlink_io_inr (f f' : gmap Path node) (p : Path) :
  unlink_io fault f p = inr f' -> f' = delete p f /\ is_file f p = true.
Proof.
  unfold unlink_io, unlink, is_file. destruct (fault _); [done|].
  destruct (lookup_node f p) as [[c|]|]; try done. by intros [= <-].
Qed.

Lemma open_wb_io_inr (f f' : gmap Path node) (p : Path) :
  open_wb_io fault f p = inr f' ->
  f' = <[p := File []]> f /\ is_anchor p = false.
Proof.
  unfold open_wb_io. destruct (fault _); [done|].
  destruct (open_wb f p) as [f1|] eqn:Hop; [|done]. intros [= <-].
  unfold open_wb in Hop. destruct (is_dir f p) eqn:Hd; [done|].
  destruct (is_dir f (parent p)); [|done]. injection Hop as <-.
  split; [done|]. unfold is_dir, lookup_node in Hd. by destruct (is_anchor p).
Qed.

Lemma append_bytes_fresh (f : gmap Path node) (p : Path) (b : list byte) :
  append_bytes (<[p := File []]> f) p b = <[p := File b]> f.
Proof. unfold append_bytes. by rewrite lookup_insert_eq, insert_insert_eq. Qed.

(** The calls on a path whose sibling is missing, case by case. *)
Lemma extract_gz_file_missing (gz out : Path) (f : gmap Path node) :
  with_suffix_empty gz = Some out ->
  exists_ f out = false ->
  let res := extract_gz_file fault gunzip str_exn gz f in
  (fst res = Value (true, str gz)
   /\ exists bytes data, read_file f gz = Some bytes /\ gunzip bytes = (data, true)
        /\ snd res = delete gz (<[out := File data]> f))
  \/ (exists e, fst res = Value (failure str_exn gz e)
      /\ (snd res = f \/ exists c, snd res = <[out := File c]> f)).
Proof.
  intros Hsuf Hex. cbn zeta. unfold extract_gz_file. rewrite Hsuf, Hex.
  destruct (open_rb_io fault f gz) as [e|bytes] eqn:Hrd.
  { right. exists e. split; [done|]. by left. }
  assert (read_file f gz = Some bytes) as Hread.
  { unfold open_rb_io in Hrd. destruct (fault _); [done|].
    destruct (read_file f gz); by simplify_eq. }
  destruct (open_wb_io fault f out) as [e|f1] eqn:Hwr.
  { right. exists e. split; [done|]. by left. }
  apply open_wb_io_inr in Hwr as [-> Hanchor].
  destruct (gunzip bytes) as [data ok] eqn:Hgz. rewrite append_bytes_fresh.
  destruct ok.
  - destruct (unlink_io fault _ gz) as [e|f3] eqn:Hun.
    + right. exists e. split; [done|]. right. by exists data.
    + apply unlink_io_inr in Hun as [-> _]. left. split; [done|].
      by exists bytes, data.
  - right. exists BadGzipFile. split; [done|]. right. by exists data.
Qed.

End OneCall.

(** ** C10 *)

(** C10: on a compressed path whose decompressed sibling does not exist,
    [extract_gz_file] ends with a value, never with an exception, whatever
    the file holds and whichever of its I/O calls fail: the value is
    [(True, str(gz_path))] or [(False, f"{gz_path}: {e}")] for the
    exception [e] that was caught. *)
Theorem extract_gz_file_returns_value
    (fault : io_op -> bool) (gunzip : list byte -> list byte * bool)
    (str_exn : exn -> string) (gz out : Path) (f : gmap Path node) :
  with_suffix_empty gz = Some out ->
  exists_ f out = false ->
  exists b msg,
    fst (extract_gz_file fault gunzip str_exn gz f) = Value (b, msg)
    /\ (b = true -> msg = str gz)
    /\ (b = false -> exists e, msg = str gz +:+ ": " +:+ str_exn e).
Proof.
  intros Hsuf Hex.
  destruct (extract_gz_file_missing fault gunzip str_exn gz out f Hsuf Hex)
    as [[Hres _]|(e & Hres & _)].
  - exists true, (str gz). split; [done|]. split; [done|]. done.
  - exists false, (str gz +:+ ": " +:+ str_exn e). split; [done|].
    split; [done|]. intros _. by exists e.
Qed.

Lemma extract_gz_file_returns_value_witness :
  exists b msg,
    fst (extract_gz_file (fun _ => true) sample_gunzip sample_str_exn
           (tile_dir ++ ["N00E007.hgt.gz"]) sample_tree) = Value (b, msg)
    /\ (b = true -> msg = str (tile_dir ++ ["N00E007.hgt.gz"]))
    /\ (b = false ->
        exists e, msg = str (tile_dir ++ ["N00E007.hgt.gz"]) +:+ ": " +:+ sample_str_exn e).
Proof.
  apply (extract_gz_file_returns_value (fun _ => true) sample_gunzip sample_str_exn
           (tile_dir ++ ["N00E007.hgt.gz"]) (tile_dir ++ ["N00E007.hgt"]) sample_tree).
  - vm_compute. reflexivity.
  - vm_compute. reflexivity.
Defined.

(** ** C6 *)





(** ** Batch numbers in the log *)


Lemma started_batches_app l1 l2 :
  started_batches (l1 ++ l2) = started_batches l1 ++ started_batches l2.
Proof. apply omap_app. Qed.


Lemma started_batches_tasks l : Forall task_event l -> started_batches l = [].
Proof.
  induction 1 as [|e l He _ IH]; [done|].
  destruct e; try done; exact IH.
Qed.


(** ** The batch loops *)

Section Run.
Variable fault : io_op -> bool.
Variable gunzip : list byte -> list byte * bool.
Variable str_exn : exn -> string.
Variable sigint : option nat.
Variable as_completed : list Path -> list Path.
Variable started_more : nat -> nat.

Local Abbreviation flag := (shutdown_requested sigint).
Local Abbreviation extract := (extract_gz_file fault gunzip str_exn).
Local Abbreviation run := (run_task fault gunzip str_exn).
Local Abbreviation loop := (completion_loop fault gunzip str_exn sigint started_more).
Local Abbreviation batches :=
  (batch_loop fault gunzip str_exn sigint as_completed started_more).



Lemma run_fold l st :
  clock (fold_left run l st) = clock st
  /\ log (fold_left run l st) = log st ++ map Ran l
  /\ fs (fold_left run l st)
     = fold_left (fun f p => snd (extract p f)) l (fs st).
Proof.
  revert st. induction l as [|p l IH]; intros st; simpl.
  - by rewrite app_nil_r.
  - destruct (IH (run st p)) as (-> & -> & ->). simpl.
    by rewrite <- app_assoc.
Qed.





  (** *** Runs that no exception leaves *)

Lemma is_dir_delete (f : gmap Path node) (p q : Path) :
  is_dir (delete p f) q = true -> is_dir f q = true.
Proof.
  unfold is_dir, lookup_node. destruct (is_anchor q); [done|].
  destruct (decide (p = q)) as [->|Hne].
  - by rewrite lookup_delete_eq.
  - by rewrite lookup_delete_ne.
Qed.

Lemma is_dir_insert_file (f : gmap Path node) (p q : Path) c :
  is_dir (<[p := File c]> f) q = true -> is_dir f q = true.
Proof.
  unfold is_dir, lookup_node. destruct (is_anchor q); [done|].
  destruct (decide (p = q)) as [->|Hne].
  - by rewrite lookup_insert_eq.
  - by rewrite lookup_insert_ne.
Qed.

(** A task creates and removes files only. *)
Lemma extract_dirs (p q : Path) (f : gmap Path node) :
  is_dir (snd (extract p f)) q = true -> is_dir f q = true.
Proof.
  destruct (with_suffix_empty p) as [out|] eqn:Hsuf.
  2:{ unfold extract_gz_file. by rewrite Hsuf. }
  destruct (exists_ f out) eqn:Hex.
  - unfold extract_gz_file. rewrite Hsuf, Hex.
    destruct (exists_ f p); [|done].
    destruct (unlink_io fault f p) as [e|f'] eqn:Hun; [done|].
    apply unlink_io_inr in Hun as [-> _]. apply is_dir_delete.
  - destruct (extract_gz_file_missing fault gunzip str_exn p out f Hsuf Hex)
      as [(_ & bytes & data & _ & _ & ->)|(e & _ & [->|[c ->]])].
    + intros H%is_dir_delete. by eapply is_dir_insert_file.
    + done.
    + apply is_dir_insert_file.
Qed.







Lemma rglob_gz_names (f : gmap Path node) (dir p : Path) :
  p ∈ rglob_gz f dir -> PyStr.endswith (name p) ".hgt.gz" = true.
Proof.
  unfold rglob_gz. intros Hin%list_elem_of_In%filter_In. by destruct Hin.
Qed.

(** ** C7 *)


End Run.



End MapzenProofs.

(** * Further properties of aster-downloader.py *)

Module AsterMore.
Import FS Aster AsterSpec AsterIO AsterMoreSpec AsterProofs.


Lemma lstrip_length s : (String.length (lstrip s) <= String.length s)%nat.
Proof. induction s as [|a s IH]; simpl; [done|]. destruct (is_space a); simpl; lia. Qed.

Lemma lstrip_fixed a s : lstrip (String a s) = String a s -> is_space a = false.
Proof.
  simpl. destruct (is_space a); [|done]. intros Heq.
  pose proof (lstrip_length s) as Hlen. rewrite Heq in Hlen. simpl in Hlen. lia.
Qed.

Lemma lstrip_idem s : lstrip (lstrip s) = lstrip s.
Proof.
  induction s as [|a s IH]; [done|]. simpl.
  destruct (is_space a) eqn:Ha; [done|]. simpl. by rewrite Ha.
Qed.

Lemma rstrip_idem s : rstrip (rstrip s) = rstrip s.
Proof.
  induction s as [|a s IH]; [done|]. simpl.
  destruct (rstrip s) as [|b r] eqn:Hr.
  - destruct (is_space a) eqn:Ha; [done|]. simpl. by rewrite Ha.
  - change (rstrip (String a (String b r))) with
      (match rstrip (String b r) with
       | EmptyString => if is_space a then EmptyString else String a EmptyString
       | r' => String a r'
       end).
    by rewrite IH.
Qed.

Lemma lstrip_rstrip s : lstrip s = s -> lstrip (rstrip s) = rstrip s.
Proof.
  destruct s as [|a s]; [done|]. intros Ha%lstrip_fixed. simpl.
  destruct (rstrip s); rewrite ?Ha; simpl; by rewrite Ha.
Qed.

Lemma strip_idem s : strip (strip s) = strip s.
Proof.
  unfold strip. rewrite (lstrip_rstrip (lstrip s)) by apply lstrip_idem.
  apply rstrip_idem.
Qed.

Lemma mentions_lstrip c s : mentions c (lstrip s) = true -> mentions c s = true.
Proof.
  induction s as [|a s IH]; [done|]. simpl. destruct (is_space a); [|done].
  intros H%IH. rewrite H. apply orb_true_r.
Qed.

Lemma mentions_rstrip c s : mentions c (rstrip s) = true -> mentions c s = true.
Proof.
  induction s as [|a s IH]; [done|]. simpl.
  destruct (rstrip s) as [|b r].
  - destruct (is_space a); [done|]. simpl. rewrite orb_false_r. by intros ->.
  - simpl in *. destruct (Ascii.eqb a c); [done|]. simpl. exact IH.
Qed.

Lemma mentions_strip c s : mentions c s = false -> mentions c (strip s) = false.
Proof.
  intros Hs. destruct (mentions c (strip s)) eqn:H; [|done].
  apply mentions_rstrip, mentions_lstrip in H. congruence.
Qed.


Lemma split_mentions c s x : x ∈ PyStr.split c s -> mentions c x = false.
Proof.
  revert x. induction s as [|a s IH]; intros x; simpl.
  - by intros ->%list_elem_of_singleton.
  - destruct (Ascii.eqb a c) eqn:Hac.
    + intros [->|Hin]%elem_of_cons; [done|]. by apply IH.
    + destruct (PyStr.split c s) as [|h t] eqn:Hs.
      * intros ->%list_elem_of_singleton. simpl. by rewrite Hac.
      * intros [->|Hin]%elem_of_cons.
        -- simpl. rewrite Hac. apply IH, elem_of_cons. by left.
        -- apply IH, elem_of_cons. by right.
Qed.

Lemma split_line c x : mentions c x = false -> PyStr.split c x = [x].
Proof.
  induction x as [|a x IH]; [done|]. simpl.
  destruct (Ascii.eqb a c); [done|]. simpl. intros H%IH. by rewrite H.
Qed.

Lemma split_app c x rest :
  mentions c x = false ->
  PyStr.split c (x +:+ String c rest) = x :: PyStr.split c rest.
Proof.
  induction x as [|a x IH]; simpl.
  - intros _. by rewrite Ascii.eqb_refl.
  - destruct (Ascii.eqb a c); [done|]. simpl. intros H%IH.
    change (PyStr.split c (x +:+ String c rest)) with (PyStr.split c (x +:+ String c rest)).
    by rewrite H.
Qed.

Lemma split_join c l :
  l ≠ [] -> Forall (fun x => mentions c x = false) l ->
  PyStr.split c (PyStr.join (String c "") l) = l.
Proof.
  induction l as [|x l IH]; [done|]. intros _ Hall.
  apply Forall_cons in Hall as [Hx Hall].
  destruct l as [|y l].
  - simpl. by apply split_line.
  - change (PyStr.join (String c "") (x :: y :: l))
      with (x +:+ String c "" +:+ PyStr.join (String c "") (y :: l)).
    change (String c "" +:+ ?s) with (String c s).
    rewrite split_app by done. f_equal. by apply IH.
Qed.

Lemma clean_url_unfold u :
  clean_url u = true <->
  strip u = u /\ PyStr.startswith u "http" = true /\ mentions newline u = false.
Proof.
  unfold clean_url. rewrite !andb_true_iff, negb_true_iff.
  destruct (String.eqb_spec (strip u) u) as [Heq|Hne].
  - split; [by intros [[_ ?] ?]|by intros (_ & ? & ?)].
  - split; [by intros [[? _] _]|by intros (? & _)].
Qed.

Lemma parse_urls_clean content : Forall (fun u => clean_url u = true) (parse_urls content).
Proof.
  apply Forall_forall. intros u Hu. unfold parse_urls in Hu.
  apply list_elem_of_In, in_map_iff in Hu as (line & <- & Hline).
  apply filter_In in Hline as [Hline Hkeep].
  apply andb_true_iff in Hkeep as [_ Hhttp].
  apply clean_url_unfold. split; [apply strip_idem|]. split; [done|].
  apply mentions_strip, (split_mentions newline content). by apply list_elem_of_In.
Qed.

Lemma parse_urls_lines urls :
  Forall (fun u => clean_url u = true) urls ->
  map strip
    (List.filter (fun line => negb (String.eqb (strip line) "")
                              && PyStr.startswith (strip line) "http") urls) = urls.
Proof.
  induction 1 as [|u urls Hu _ IH]; [done|].
  apply clean_url_unfold in Hu as (Hstrip & Hhttp & _).
  simpl. rewrite Hstrip, Hhttp.
  destruct (String.eqb_spec u "") as [->|_]; [done|]. simpl. by rewrite Hstrip, IH.
Qed.

Lemma parse_urls_join urls :
  Forall (fun u => clean_url u = true) urls ->
  parse_urls (PyStr.join nl urls) = urls.
Proof.
  intros Hall. unfold parse_urls.
  destruct urls as [|u urls]; [done|].
  unfold nl. rewrite split_join; [by apply parse_urls_lines|done|].
  eapply Forall_impl; [exact Hall|]. intros x Hx. by apply clean_url_unfold in Hx as (_ & _ & ?).
Qed.

(** X1: every URL that [fetch_urls] returns has no white space at
    either end, starts with [http], holds no line break and is not empty;
    reading the work list leaves the disk as it is. *)
Theorem fetch_urls_clean
    (read_text : list byte -> option string) (text : list byte -> string)
    (net : network) (url_source : string) (w w' : world) (urls : list string) :
  fetch_urls read_text text net url_source w = (Some urls, w') ->
  Forall (fun u => clean_url u = true /\ u <> EmptyString) urls /\ fs w' = fs w.
Proof.
  assert (forall c, Forall (fun u => clean_url u = true /\ u <> EmptyString) (parse_urls c)) as Hc.
  { intros c. eapply Forall_impl; [apply parse_urls_clean|].
    intros u Hu. split; [done|]. apply clean_url_unfold in Hu as (_ & Hhttp & _).
    by intros ->. }
  unfold fetch_urls. case_match.
  - destruct (net _ _) as [|r]; [done|].
    destruct (body_error r); [done|]. destruct (raise_for_status r); [done|].
    intros [= <- <-]. done.
  - destruct (read_file _ _) as [b|]; [|done].
    destruct (read_text b) as [c|]; [|done]. intros [= <- <-]. done.
Qed.

Lemma fetch_urls_clean_witness :
  Forall (fun u => clean_url u = true /\ u <> EmptyString) [sample_url; other_url]
  /\ fs sample_list_world = fs sample_list_world.
Proof.
  apply (fetch_urls_clean sample_read_text sample_text unreachable "urls.txt"
           sample_list_world sample_list_world [sample_url; other_url]).
  vm_compute. reflexivity.
Defined.

(** X2: a local work list that holds such URLs one per line, joined
    by line breaks, is read back as exactly these URLs, in order, without
    any request. *)
Theorem fetch_urls_reads_back
    (read_text : list byte -> option string) (text : list byte -> string)
    (net : network) (url_source : string) (w : world) (b : list byte) (urls : list string) :
  PyStr.startswith url_source "http://" = false ->
  PyStr.startswith url_source "https://" = false ->
  read_file (fs w) (parse url_source) = Some b ->
  read_text b = Some (PyStr.join nl urls) ->
  Forall (fun u => clean_url u = true) urls ->
  fetch_urls read_text text net url_source w = (Some urls, w).
Proof.
  intros H1 H2 Hread Htext Hall. unfold fetch_urls.
  rewrite H1, H2, Hread, Htext. simpl. by rewrite parse_urls_join.
Qed.

Lemma fetch_urls_reads_back_witness :
  fetch_urls sample_read_text sample_text unreachable "urls.txt" plain_list_world
  = (Some [sample_url; other_url], plain_list_world).
Proof.
  apply (fetch_urls_reads_back sample_read_text sample_text unreachable "urls.txt"
           plain_list_world
           (list_byte_of_string (PyStr.join nl [sample_url; other_url]))
           [sample_url; other_url]).
  - reflexivity.
  - reflexivity.
  - vm_compute. reflexivity.
  - vm_compute. reflexivity.
  - apply (bool_decide_unpack _). vm_compute. reflexivity.
Defined.

(** X3: the lines that [fetch_urls] keeps, written one per line
    and parsed again, give the same list. *)
Theorem parse_urls_idempotent (content : string) :
  parse_urls (PyStr.join nl (parse_urls content)) = parse_urls content.
Proof. apply parse_urls_join, parse_urls_clean. Qed.

(** ** load_token *)

Lemma token_file_path (script_dir : Path) :
  joinpath script_dir "token.txt" = script_dir ++ ["token.txt"].
Proof. done. Qed.

(** X4: with a token on the command line that is not empty, or
    with a readable token file whose stripped content is not empty,
    [load_token] returns a token that is not empty without reading a line
    of input and without touching the disk; the token of the command line
    wins over the file. *)
Theorem load_token_no_prompt
    (read_text : list byte -> option string) (write_text : string -> option (list byte))
    (script_dir : Path) (bearer_token : option string) (stdin : list string)
    (f : gmap Path node) :
  (exists t, bearer_token = Some t /\ t <> EmptyString)
  \/ (exists t, token_from_file read_text (joinpath script_dir "token.txt") f = Some t) ->
  exists t, load_token read_text write_text script_dir bearer_token stdin f = (Token t, stdin, f)
            /\ t <> EmptyString
            /\ (forall t', bearer_token = Some t' -> t' <> EmptyString -> t = t').
Proof.
  intros [(t & -> & Ht)|(t & Hfile)].
  - exists t. destruct t as [|a t]; [done|]. simpl. split; [done|]. split; [done|].
    by intros t' [= <-].
  - assert (t <> EmptyString) as Hne.
    { unfold token_from_file in Hfile. repeat case_match; simplify_eq.
      by destruct (String.eqb_spec (strip s) ""). }
    destruct bearer_token as [[|a t']|].
    + exists t. unfold load_token. rewrite Hfile. split; [done|]. split; [done|].
      by intros ? [= <-].
    + exists (String a t'). split; [done|]. split; [done|]. by intros ? [= <-].
    + exists t. unfold load_token. by rewrite Hfile.
Qed.

Lemma load_token_no_prompt_witness :
  exists t,
    load_token sample_read_text sample_write_text script_dir (Some "abc123"%string)
      ["typed"%string] script_fs
    = (Token t, ["typed"%string], script_fs)
    /\ t <> EmptyString
    /\ (forall t', Some "abc123"%string = Some t' -> t' <> EmptyString -> t = t').
Proof.
  apply (load_token_no_prompt sample_read_text sample_write_text script_dir
           (Some "abc123"%string) ["typed"%string] script_fs).
  left. exists "abc123"%string. split; [reflexivity|discriminate].
Defined.

(** X5: when neither source gives a token, the token typed at
    the prompt is returned stripped; after the answer [y] (in either case,
    with white space around) it is written to [token.txt] next to the
    script, nothing else on the disk changes, and the next call without a
    token on the command line returns it from the file without prompting. *)
Theorem load_token_save_then_load
    (read_text : list byte -> option string) (write_text : string -> option (list byte))
    (script_dir : Path) (line1 answer : string) (rest : list string)
    (f : gmap Path node) (b : list byte) :
  let token_file := joinpath script_dir "token.txt" in
  let token := strip line1 in
  token_from_file read_text token_file f = None ->
  strip (PyStr.lower answer) = "y"%string ->
  is_dir f token_file = false ->
  is_dir f script_dir = true ->
  write_text token = Some b ->
  read_text b = Some token ->
  token <> EmptyString ->
  exists f',
    load_token read_text write_text script_dir None (line1 :: answer :: rest) f
    = (Token token, rest, f')
    /\ read_file f' token_file = Some b
    /\ (forall q, q <> token_file -> f' !! q = f !! q)
    /\ forall bearer_token stdin,
         bearer_token = None \/ bearer_token = Some EmptyString ->
         load_token read_text write_text script_dir bearer_token stdin f'
         = (Token token, stdin, f').
Proof.
  cbn zeta. rewrite token_file_path. intros Hnone Hy Hnd Hd Hw Hr Hne.
  set (tf := script_dir ++ ["token.txt"]) in *.
  assert (parent tf = script_dir) as Hpar.
  { unfold tf. destruct script_dir as [|a [|a' l]]; [done|done|].
    change (parent ((a :: a' :: l) ++ ["token.txt"]))
      with (removelast ((a :: a' :: l) ++ ["token.txt"])).
    apply removelast_last. }
  assert (is_anchor tf = false) as Hanchor.
  { unfold tf, is_anchor. rewrite bool_decide_eq_false_2 by (by destruct script_dir).
    rewrite bool_decide_eq_false_2; [done|]. by destruct script_dir as [|a [|a' l]]. }
  exists (<[tf := File b]> f).
  assert (read_file (<[tf := File b]> f) tf = Some b) as Hread.
  { unfold read_file. by rewrite lookup_node_insert_eq. }
  assert (token_from_file read_text tf (<[tf := File b]> f) = Some (strip line1)) as Hfile.
  { unfold token_from_file, exists_. rewrite lookup_node_insert_eq by done.
    rewrite Hread, Hr, strip_idem.
    by destruct (String.eqb_spec (strip line1) ""). }
  split; [|split; [done|split]].
  - unfold load_token. rewrite token_file_path. fold tf. rewrite Hnone.
    unfold prompt_token. rewrite Hy. simpl String.eqb. cbv iota.
    unfold open_wb. rewrite Hnd, Hpar, Hd, Hw.
    unfold append_bytes. by rewrite lookup_insert_eq, insert_insert_eq.
  - intros q Hq. by rewrite lookup_insert_ne.
  - intros bearer_token stdin [->| ->]; unfold load_token; rewrite token_file_path;
      fold tf; by rewrite Hfile.
Qed.

Lemma load_token_save_then_load_witness :
  exists f',
    load_token sample_read_text sample_write_text script_dir None
      ["  abc123 "%string; " Y "%string] script_fs
    = (Token (strip "  abc123 "), [], f')
    /\ read_file f' (joinpath script_dir "token.txt")
       = Some (list_byte_of_string "abc123")
    /\ (forall q, q <> joinpath script_dir "token.txt" -> f' !! q = script_fs !! q)
    /\ forall bearer_token stdin,
         bearer_token = None \/ bearer_token = Some EmptyString ->
         load_token sample_read_text sample_write_text script_dir bearer_token stdin f'
         = (Token (strip "  abc123 "), stdin, f').
Proof.
  apply (load_token_save_then_load sample_read_text sample_write_text script_dir
           "  abc123 " " Y " [] script_fs (list_byte_of_string "abc123")).
  - vm_compute. reflexivity.
  - vm_compute. reflexivity.
  - vm_compute. reflexivity.
  - vm_compute. reflexivity.
  - vm_compute. reflexivity.
  - vm_compute. reflexivity.
  - vm_compute. discriminate.
Defined.

Lemma is_dir_false_anchor (f : gmap Path node) (p : Path) :
  is_dir f p = false -> is_anchor p = false.
Proof. unfold is_dir, lookup_node. by destruct (is_anchor p). Qed.

Lemma staged_slot_free (d : AsterDownloader) (url : string) (f : gmap Path node) :
  staged d url f = false -> is_dir f (parent (filepath_of d url)) = true ->
  slot_free d url f.
Proof.
  intros [Ha Hn]%staged_false_lookup Hpar. split; [|done].
  unfold is_dir, lookup_node. by rewrite Ha, Hn.
Qed.

Lemma attempt_not_dir (d : AsterDownloader) (net : network) (url : string) (w : world) :
  is_dir (fs w) (filepath_of d url) = false ->
  is_dir (fs (snd (attempt d net url w))) (filepath_of d url) = false.
Proof.
  intros Hnd. pose proof (is_dir_false_anchor _ _ Hnd) as Ha.
  unfold attempt. branches;
    repeat match goal with
      | H : open_wb _ _ = Some _ |- _ => apply open_wb_lookup in H; subst
      | H : unlink _ _ = Some _ |- _ => apply unlink_lookup in H; subst
      end;
    unfold is_dir, lookup_node; rewrite Ha;
    rewrite ?lookup_delete_eq, ?(lookup_write_chunks_file _ _ [])
      by (by rewrite lookup_insert_eq); done.
Qed.

Lemma attempt_slot_free (d : AsterDownloader) (net : network) (url : string) (w : world) :
  slot_free d url (fs w) -> slot_free d url (fs (snd (attempt d net url w))).
Proof. intros [H1 H2]. split; [by apply attempt_not_dir|by apply attempt_is_dir]. Qed.

Lemma open_slot (d : AsterDownloader) (url : string) (w : world) (r : Response) :
  slot_free d url (fs w) ->
  let fp := filepath_of d url in
  open_wb (fs (emit (EvGet url) w)) fp = Some (<[fp := File []]> (fs w))
  /\ read_file (write_chunks (<[fp := File []]> (fs w)) fp (body r)) fp
     = Some (concat (body r)).
Proof.
  intros [Hnd Hpar]. pose proof (is_dir_false_anchor _ _ Hnd) as Ha. cbn zeta. split.
  - unfold open_wb. cbn [emit fs]. by rewrite Hnd, Hpar.
  - unfold read_file, lookup_node. rewrite Ha.
    by rewrite (lookup_write_chunks_file _ _ []) by (by rewrite lookup_insert_eq).
Qed.

Ltac response_flags H :=
  repeat (apply andb_prop in H as [H ?]);
  repeat match goal with
         | H' : negb _ = true |- _ => apply negb_true_iff in H'
         end.

Lemma attempt_complete (d : AsterDownloader) (net : network) (url : string)
    (w : world) (r : Response) :
  slot_free d url (fs w) ->
  net url (gets url (log w)) = Responded r ->
  complete_archive r = true ->
  exists w', attempt d net url w = (Return (str (filepath_of d url), true), w')
             /\ log w' = log w ++ [EvGet url]
             /\ read_file (fs w') (filepath_of d url) = Some (concat (body r)).
Proof.
  intros Hslot Hnet Hok.
  destruct (open_slot d url w r Hslot) as [Hopen Hread].
  unfold complete_archive, is_login, is_html in Hok.
  apply andb_prop in Hok as [Hok Hsize]. response_flags Hok.
  unfold attempt. rewrite Hnet.
  repeat match goal with H : _ = false |- _ => rewrite H end.
  assert (content_length r ≠ Some None) as Hcl.
  { intros Heq. match goal with H : bool_decide (content_length r = Some None) = false |- _ =>
      by rewrite bool_decide_eq_false in H end. }
  eexists.
  destruct (content_length r) as [[cl|]|]; [|done|];
    rewrite Hopen, Hread;
    (destruct (Z.of_nat (length (concat (body r))) <? 1000) eqn:Hlt;
     [apply orb_prop in Hsize as [Hsize|Hsize]; [lia|rewrite Hsize]|]);
    (split; [reflexivity|]; split; [done|exact Hread]).
Qed.

Lemma attempt_broken (d : AsterDownloader) (net : network) (url : string)
    (w : world) (r : Response) :
  slot_free d url (fs w) ->
  net url (gets url (log w)) = Responded r ->
  broken_stream r = true ->
  exists w', attempt d net url w = (Handled, w')
             /\ read_file (fs w') (filepath_of d url) = Some (concat (body r)).
Proof.
  intros Hslot Hnet Hbr.
  destruct (open_slot d url w r Hslot) as [Hopen Hread].
  unfold broken_stream, is_login, is_html in Hbr.
  apply andb_prop in Hbr as [Hbr Herr]. response_flags Hbr.
  unfold attempt. rewrite Hnet.
  repeat match goal with H : _ = false |- _ => rewrite H end.
  assert (content_length r ≠ Some None) as Hcl.
  { intros Heq. match goal with H : bool_decide (content_length r = Some None) = false |- _ =>
      by rewrite bool_decide_eq_false in H end. }
  eexists.
  destruct (content_length r) as [[cl|]|]; [|done|];
    rewrite Hopen, Herr; (split; [reflexivity|exact Hread]).
Qed.

Lemma broken_transient (r : Response) :
  broken_stream r = true -> transient (Responded r) = true.
Proof.
  unfold broken_stream, transient. intros Hbr.
  apply andb_prop in Hbr as [Hbr Herr]. response_flags Hbr.
  repeat match goal with H : _ = false |- _ => rewrite H end. done.
Qed.

Lemma retry_loop_then_success (d : AsterDownloader) (net : network) (url : string)
    (r : Response) (k n : nat) (i : Z) (w : world) :
  i + Z.of_nat n = max_retries d ->
  0 <= retry_delay d ->
  (k < n)%nat ->
  slot_free d url (fs w) ->
  (forall j, (j < k)%nat -> transient (net url (gets url (log w) + j)%nat) = true) ->
  net url (gets url (log w) + k)%nat = Responded r ->
  complete_archive r = true ->
  exists w', retry_loop d net url n i w = (Value (str (filepath_of d url), true), w')
             /\ log w' = log w ++ retry_trace url (retry_delay d) (S k)
             /\ read_file (fs w') (filepath_of d url) = Some (concat (body r)).
Proof.
  intros Hin Hdelay. revert n i w Hin.
  induction k as [|k IH]; intros n i w Hin Hk Hslot Htr Hnet Hok.
  - destruct n as [|n]; [lia|]. rewrite Nat.add_0_r in Hnet.
    destruct (attempt_complete d net url w r Hslot Hnet Hok) as (w' & Hat & Hlog & Hread).
    exists w'. cbn [retry_loop]. by rewrite Hat.
  - destruct n as [|n]; [lia|].
    destruct (attempt_transient d net url w) as (w1 & Hat & Hlog1).
    { specialize (Htr 0%nat). rewrite Nat.add_0_r in Htr. apply Htr. lia. }
    pose proof (attempt_slot_free d net url w Hslot) as Hslot1. rewrite Hat in Hslot1.
    cbn [snd] in Hslot1.
    cbn [retry_loop]. rewrite Hat.
    assert ((i <? max_retries d - 1) = true) as -> by lia.
    assert ((retry_delay d <? 0) = false) as -> by lia.
    assert (gets url (log (emit (EvSleep url (retry_delay d)) w1)) = S (gets url (log w)))
      as Hgets.
    { cbn [emit log]. rewrite Hlog1, !gets_app, gets_get, gets_sleep. case_decide; [lia|done]. }
    destruct (IH n (i + 1) (emit (EvSleep url (retry_delay d)) w1))
      as (w' & Hloop & Hlog' & Hread); [lia|lia|exact Hslot1| | |done|].
    { intros j Hj. rewrite Hgets.
      replace (S (gets url (log w)) + j)%nat with (gets url (log w) + S j)%nat by lia.
      apply Htr. lia. }
    { rewrite Hgets. by replace (S (gets url (log w)) + k)%nat
        with (gets url (log w) + S k)%nat by lia. }
    exists w'. split; [exact Hloop|]. split; [|done].
    rewrite Hlog', (retry_trace_step url (retry_delay d) k). cbn [emit log].
    rewrite Hlog1, <- !app_assoc. done.
Qed.

(** X6: when the first [k] attempts fail in a transient way and
    the next answer is a complete archive, with [k] below [max_retries],
    [download_file] returns the staging path and success after [k + 1]
    requests and [k] sleeps; the staged file holds the chunks of the last
    response in order, and no other path changes. *)
Theorem download_file_retry_then_success
    (d : AsterDownloader) (net : network) (url : string) (w : world)
    (r : Response) (k : nat) :
  staged d url (fs w) = false ->
  is_dir (fs w) (parent (filepath_of d url)) = true ->
  0 <= retry_delay d ->
  (k < Z.to_nat (max_retries d))%nat ->
  (forall j, (j < k)%nat -> transient (net url (gets url (log w) + j)%nat) = true) ->
  net url (gets url (log w) + k)%nat = Responded r ->
  complete_archive r = true ->
  exists w',
    download_file d net url w = (Value (str (filepath_of d url), true), w')
    /\ log w' = log w ++ retry_trace url (retry_delay d) (S k)
    /\ gets url (log w') = (gets url (log w) + k + 1)%nat
    /\ sleeps url (log w') = (sleeps url (log w) + k)%nat
    /\ read_file (fs w') (filepath_of d url) = Some (concat (body r))
    /\ forall q, q <> filepath_of d url -> fs w' !! q = fs w !! q.
Proof.
  intros Hst Hpar Hdelay Hk Htr Hnet Hok.
  pose proof (staged_slot_free d url (fs w) Hst Hpar) as Hslot.
  pose proof (download_file_fs_frame d net url w) as Hframe.
  unfold download_file in *. unfold staged in Hst. rewrite Hst in *.
  destruct (retry_loop_then_success d net url r k (Z.to_nat (max_retries d)) 0 w)
    as (w' & Hloop & Hlog & Hread); try done; [lia|].
  rewrite Hloop in Hframe. cbn [snd] in Hframe.
  exists w'. split; [done|]. split; [done|].
  rewrite Hlog, gets_app, sleeps_app, gets_retry_trace, sleeps_retry_trace. simpl Nat.pred.
  split; [lia|]. split; [done|]. split; [done|]. intros q Hq. by apply Hframe.
Qed.

Lemma download_file_retry_then_success_witness :
  exists w',
    download_file sample_downloader (fails_then 1 zip_response) sample_url sample_world
    = (Value (str (filepath_of sample_downloader sample_url), true), w')
    /\ log w' = log sample_world ++ retry_trace sample_url (retry_delay sample_downloader) 2
    /\ gets sample_url (log w') = (gets sample_url (log sample_world) + 1 + 1)%nat
    /\ sleeps sample_url (log w') = (sleeps sample_url (log sample_world) + 1)%nat
    /\ read_file (fs w') (filepath_of sample_downloader sample_url)
       = Some (concat (body zip_response))
    /\ forall q, q <> filepath_of sample_downloader sample_url ->
         fs w' !! q = fs sample_world !! q.
Proof.
  apply (download_file_retry_then_success sample_downloader (fails_then 1 zip_response)
           sample_url sample_world zip_response 1).
  - vm_compute. reflexivity.
  - vm_compute. reflexivity.
  - vm_compute. discriminate.
  - vm_compute. lia.
  - intros j Hj. destruct j as [|j]; [reflexivity|lia].
  - reflexivity.
  - vm_compute. reflexivity.
Defined.

Lemma retry_loop_broken_staged (d : AsterDownloader) (net : network) (url : string)
    (n : nat) (i : Z) (w : world) :
  (0 < n)%nat ->
  slot_free d url (fs w) ->
  (forall j, exists r, net url j = Responded r /\ broken_stream r = true) ->
  exists_ (fs (snd (retry_loop d net url n i w))) (filepath_of d url) = true.
Proof.
  intros Hn Hslot Hnet. revert i w Hslot.
  induction n as [|n IH]; [lia|]. intros i w Hslot.
  destruct (Hnet (gets url (log w))) as (r & Hr & Hbr).
  destruct (attempt_broken d net url w r Hslot Hr Hbr) as (w1 & Hat & Hread).
  pose proof (attempt_slot_free d net url w Hslot) as Hslot1. rewrite Hat in Hslot1.
  cbn [snd] in Hslot1.
  assert (exists_ (fs w1) (filepath_of d url) = true) as Hex.
  { unfold exists_. unfold read_file in Hread.
    by destruct (lookup_node (fs w1) (filepath_of d url)). }
  cbn [retry_loop]. rewrite Hat.
  destruct n as [|n].
  - destruct (i <? max_retries d - 1); [|done].
    by destruct (retry_delay d <? 0).
  - destruct (i <? max_retries d - 1).
    + destruct (retry_delay d <? 0); [done|]. apply IH; [lia|done].
    + apply IH; [lia|done].
Qed.

(** X7: when the stream breaks on every attempt, [download_file]
    returns failure after [max_retries] requests, but the file written by
    the last attempt stays in the staging directory; any later call for the
    same URL finds it and returns success without a request. *)
Theorem broken_stream_leaves_partial_file
    (d : AsterDownloader) (net : network) (url : string) (w : world) :
  staged d url (fs w) = false ->
  is_dir (fs w) (parent (filepath_of d url)) = true ->
  0 < max_retries d ->
  0 <= retry_delay d ->
  (forall j, exists r, net url j = Responded r /\ broken_stream r = true) ->
  exists w',
    download_file d net url w = (Value (filename_of url, false), w')
    /\ log w' = log w ++ retry_trace url (retry_delay d) (Z.to_nat (max_retries d))
    /\ staged d url (fs w') = true
    /\ forall net', download_file d net' url w' = (Value (str (filepath_of d url), true), w').
Proof.
  intros Hst Hpar Hmax Hdelay Hnet.
  destruct (download_file_transient d net url w Hst Hdelay) as (w' & Hdl & Hlog).
  { intros j. destruct (Hnet j) as (r & -> & Hbr). by apply broken_transient. }
  pose proof (retry_loop_broken_staged d net url (Z.to_nat (max_retries d)) 0 w) as Hex.
  assert (staged d url (fs w') = true) as Hst'.
  { unfold staged. unfold download_file in Hdl. unfold staged in Hst. rewrite Hst in Hdl.
    rewrite Hdl in Hex. apply Hex; [lia| |done]. by apply staged_slot_free. }
  exists w'. split; [done|]. split; [done|]. split; [done|].
  intros net'. by apply download_file_staged.
Qed.

Lemma broken_stream_leaves_partial_file_witness :
  exists w',
    download_file sample_downloader (always broken_response) sample_url sample_world
    = (Value (filename_of sample_url, false), w')
    /\ log w' = log sample_world
                ++ retry_trace sample_url (retry_delay sample_downloader)
                     (Z.to_nat (max_retries sample_downloader))
    /\ staged sample_downloader sample_url (fs w') = true
    /\ forall net',
         download_file sample_downloader net' sample_url w'
         = (Value (str (filepath_of sample_downloader sample_url), true), w').
Proof.
  apply (broken_stream_leaves_partial_file sample_downloader (always broken_response)
           sample_url sample_world).
  - vm_compute. reflexivity.
  - vm_compute. reflexivity.
  - vm_compute. reflexivity.
  - vm_compute. discriminate.
  - intros j. exists broken_response. split; [reflexivity|]. vm_compute. reflexivity.
Defined.

(** X8: with a negative [retry_delay] and more than one attempt
    allowed, the first transient failure makes [time.sleep] raise out of
    [download_file] after one request; the download stage records the URL
    as failed. *)
Theorem negative_delay_raises
    (d : AsterDownloader) (net : network) (url : string) (w : world) (h : heap) :
  staged d url (fs w) = false ->
  retry_delay d < 0 ->
  1 < max_retries d ->
  transient (net url (gets url (log w))) = true ->
  exists w',
    download_file d net url w = (Raised, w')
    /\ log w' = log w ++ [EvGet url]
    /\ collect d net (w, h) url = (w', heap_append FailedDownloads url h).
Proof.
  intros Hst Hdelay Hmax Htr.
  destruct (attempt_transient d net url w Htr) as (w1 & Hat & Hlog1).
  assert (download_file d net url w = (Raised, w1)) as Hdl.
  { unfold download_file. unfold staged in Hst. rewrite Hst.
    destruct (Z.to_nat (max_retries d)) as [|n] eqn:Hn; [lia|].
    cbn [retry_loop]. rewrite Hat.
    assert ((0 <? max_retries d - 1) = true) as -> by lia.
    by assert ((retry_delay d <? 0) = true) as -> by lia. }
  exists w1. split; [done|]. split; [done|]. by rewrite collect_unfold, Hdl.
Qed.

Lemma negative_delay_raises_witness :
  exists w',
    download_file (with_retries 3 (-1)) unreachable sample_url sample_world = (Raised, w')
    /\ log w' = log sample_world ++ [EvGet sample_url]
    /\ collect (with_retries 3 (-1)) unreachable (sample_world, empty_heap) sample_url
       = (w', heap_append FailedDownloads sample_url empty_heap).
Proof.
  apply (negative_delay_raises (with_retries 3 (-1)) unreachable sample_url sample_world
           empty_heap).
  - vm_compute. reflexivity.
  - vm_compute. reflexivity.
  - vm_compute. reflexivity.
  - reflexivity.
Defined.

(** X9: with [max_retries] at zero or below, [download_file]
    on a URL that is not staged returns failure without a request, and the
    download stage records the URL as failed. *)
Theorem no_attempt_without_retries
    (d : AsterDownloader) (net : network) (url : string) (w : world) (h : heap) :
  staged d url (fs w) = false ->
  max_retries d <= 0 ->
  download_file d net url w = (Value (filename_of url, false), w)
  /\ collect d net (w, h) url = (w, heap_append FailedDownloads url h).
Proof.
  intros Hst Hmax.
  assert (download_file d net url w = (Value (filename_of url, false), w)) as Hdl.
  { unfold download_file. unfold staged in Hst. rewrite Hst.
    by assert (Z.to_nat (max_retries d) = 0%nat) as -> by lia. }
  split; [done|]. by rewrite collect_unfold, Hdl.
Qed.

Lemma no_attempt_without_retries_witness :
  download_file (with_retries 0 5) unreachable sample_url sample_world
  = (Value (filename_of sample_url, false), sample_world)
  /\ collect (with_retries 0 5) unreachable (sample_world, empty_heap) sample_url
     = (sample_world, heap_append FailedDownloads sample_url empty_heap).
Proof.
  apply (no_attempt_without_retries (with_retries 0 5) unreachable sample_url sample_world
           empty_heap).
  - vm_compute. reflexivity.
  - vm_compute. discriminate.
Defined.

(** ** A member that fails *)

Lemma extract_members_failure (d : AsterDownloader) (a : archive) (names : list string)
    (w : world) (ex : list string) (w' : world) :
  extract_members d a names w ex = (None, w') ->
  exists done nm rest ex1 w1,
    names = done ++ nm :: rest
    /\ extract_members d a done w ex = (Some ex1, w1)
    /\ extract_member d a nm w1 ex1 = (None, w').
Proof.
  revert w ex. induction names as [|nm names IH]; intros w ex; simpl; [done|].
  destruct (extract_member d a nm w ex) as [[ex1|] w1] eqn:Hstep.
  - intros (dn & nm' & rest & ex2 & w2 & -> & Hdone & Hfail)%IH.
    exists (nm :: dn), nm', rest, ex2, w2. split; [done|]. split; [|done].
    simpl. by rewrite Hstep.
  - intros [= <-]. by exists [], nm, names, ex, w.
Qed.

(** X10: when [process_zip] fails on a member of an archive
    that it could open, it returns an empty list of files although the kept
    members in front of the failing one have been written, in order, and
    are still on the disk; the failing member is not a [_num.tif] file. *)
Theorem process_zip_failure_keeps_prefix
    (unzip : list byte -> option archive) (d : AsterDownloader) (zip_path : string)
    (w : world) (bytes : list byte) (a : archive) (s : string) (l : list string) :
  let zp := parse zip_path in
  let res := process_zip unzip d zip_path w in
  read_file (fs w) zp = Some bytes ->
  unzip bytes = Some a ->
  fst res = (s, false, l) ->
  l = []
  /\ exists done nm rest,
       namelist a = done ++ nm :: rest
       /\ PyStr.endswith nm num_suffix = false
       /\ log (snd res)
          = log w ++ EvExtract (str zp) :: map (write_event d a) (List.filter kept done)
       /\ forall nm', nm' ∈ List.filter kept done ->
            is_file (fs (snd res)) (target d nm') = true.
Proof.
  cbn zeta. intros Hread Hzip. unfold process_zip.
  assert (exists_ (fs w) (parse zip_path) = true) as ->.
  { unfold exists_. unfold read_file in Hread.
    by destruct (lookup_node (fs w) (parse zip_path)). }
  cbn [negb emit fs]. rewrite Hread, Hzip.
  destruct (extract_members d a (namelist a) _ []) as [[ex|] w'] eqn:Hmem; [done|].
  cbn [fst snd]. intros [= <- <-]. split; [done|].
  apply extract_members_failure in Hmem as (dn & nm & rest & ex1 & w1 & Hnames & Hdone & Hfail).
  exists dn, nm, rest. split; [done|].
  pose proof (extract_member_log d a nm w1 ex1) as Hlog.
  pose proof (extract_member_grows d a nm w1 ex1) as [[_ Hgf] _].
  rewrite Hfail in Hlog, Hgf. cbn [fst snd] in Hlog, Hgf. rewrite app_nil_r in Hlog.
  apply extract_members_success in Hdone as (_ & Hlog1 & Hfiles & _).
  split; [|split].
  - unfold extract_member in Hfail. by destruct (PyStr.endswith nm num_suffix).
  - rewrite Hlog, Hlog1. cbn [log emit]. by rewrite <- app_assoc.
  - intros nm' Hin. by apply Hgf, Hfiles.
Qed.

Lemma process_zip_failure_keeps_prefix_witness :
  let unzip := fun _ : list byte => Some damaged_archive in
  let res := process_zip unzip sample_downloader sample_zip_path staged_world in
  @nil string = []
  /\ exists done nm rest,
       namelist damaged_archive = done ++ nm :: rest
       /\ PyStr.endswith nm num_suffix = false
       /\ log (snd res)
          = log staged_world
            ++ EvExtract (str (parse sample_zip_path))
               :: map (write_event sample_downloader damaged_archive)
                    (List.filter kept done)
       /\ forall nm', nm' ∈ List.filter kept done ->
            is_file (fs (snd res)) (target sample_downloader nm') = true.
Proof.
  apply (process_zip_failure_keeps_prefix (fun _ => Some damaged_archive) sample_downloader
           sample_zip_path staged_world zip_magic damaged_archive
           "data/temp_zips/N00E006.zip" []).
  - vm_compute. reflexivity.
  - reflexivity.
  - vm_compute. reflexivity.
Defined.

(** ** A directory entry *)

Lemma mkdir_one_lookup (f f' : gmap Path node) (p q : Path) :
  mkdir_one f p = Some f' -> q <> p -> f' !! q = f !! q.
Proof.
  unfold mkdir_one. destruct (lookup_node f p) as [[c|]|]; [done| |].
  - by intros [= <-].
  - intros [= <-] Hne. by rewrite lookup_insert_ne.
Qed.

Lemma mkdir_all_lookup (ps : list Path) (f f' : gmap Path node) (q : Path) :
  mkdir_all f ps = Some f' -> q ∉ ps -> f' !! q = f !! q.
Proof.
  revert f. induction ps as [|p ps IH]; intros f; simpl.
  - by intros [= <-].
  - destruct (mkdir_one f p) as [f1|] eqn:H1; [|done].
    intros Hall [Hne Hnot]%not_elem_of_cons.
    rewrite (IH f1 Hall Hnot). by eapply mkdir_one_lookup.
Qed.

Lemma prefixes_from_length (acc p q : Path) :
  q ∈ prefixes_from acc p -> (length q <= length acc + length p)%nat.
Proof.
  revert acc. induction p as [|a p IH]; intros acc; simpl.
  - by intros ?%elem_of_nil.
  - intros [->|Hin]%elem_of_cons.
    + rewrite length_app. simpl. lia.
    + apply IH in Hin. rewrite length_app in Hin. simpl in Hin. lia.
Qed.

Lemma parent_length (p : Path) :
  is_anchor p = false -> (length (parent p) < length p)%nat.
Proof.
  destruct p as [|a [|b p]]; [done| |].
  - unfold is_anchor, parent. simpl.
    destruct (String.eqb_spec a "/") as [->|Hne]; [done|]. simpl. lia.
  - intros _. change (parent (a :: b :: p)) with (removelast (a :: b :: p)).
    assert (a :: b :: p <> []) as Hne by done.
    destruct (exists_last Hne) as (l & x & ->). rewrite removelast_last, length_app.
    simpl. lia.
Qed.

(** X24: for a member whose name ends with a slash, [process_zip] creates
    the ancestors of the directory and goes on to the next member: the
    directory itself is not created, nothing is logged as written, and the
    list of extracted files is unchanged.  When an ancestor cannot be created
    the member fails and the disk is as it was. *)
Theorem directory_entry_creates_parents_only
    (d : AsterDownloader) (a : archive) (file_name : string) (w : world)
    (extracted : list string) :
  PyStr.endswith file_name "/" = true ->
  PyStr.endswith file_name num_suffix = false ->
  let target_path := joinpath (dem_dir d) file_name in
  let res := extract_member d a file_name w extracted in
  log (snd res) = log w
  /\ (fst res = Some extracted \/ fst res = None /\ snd res = w)
  /\ (fst res = Some extracted -> is_dir (fs (snd res)) (parent target_path) = true)
  /\ exists_ (fs (snd res)) target_path = exists_ (fs w) target_path.
Proof.
  intros Hdir Hnum. cbn zeta. unfold extract_member. rewrite Hnum, Hdir.
  destruct (mkdir_parents (fs w) _) as [f1|] eqn:Hmk.
  2:{ split; [done|]. split; [by right|]. done. }
  cbn [fst snd set_fs log fs]. split; [done|]. split; [by left|].
  split. { intros _. by apply mkdir_parents_spec in Hmk as (_ & ? & _). }
  destruct (is_anchor (joinpath (dem_dir d) file_name)) eqn:Ha.
  { unfold exists_, lookup_node. by rewrite Ha. }
  apply exists_ext. unfold mkdir_parents in Hmk.
  apply (mkdir_all_lookup _ _ _ _ Hmk). intros Hin%prefixes_from_length.
  pose proof (parent_length _ Ha). simpl in Hin. lia.
Qed.

Lemma directory_entry_creates_parents_only_witness :
  let target_path := joinpath (dem_dir sample_downloader) "empty/dir/" in
  let res := extract_member sample_downloader sample_archive "empty/dir/" sample_world [] in
  log (snd res) = log sample_world
  /\ (fst res = Some [] \/ fst res = None /\ snd res = sample_world)
  /\ (fst res = Some [] -> is_dir (fs (snd res)) (parent target_path) = true)
  /\ exists_ (fs (snd res)) target_path = exists_ (fs sample_world) target_path.
Proof.
  apply (directory_entry_creates_parents_only sample_downloader sample_archive "empty/dir/"
           sample_world []).
  - reflexivity.
  - reflexivity.
Defined.

(** ** The progress lists *)

Lemma extract_step_processed_ok (unzip : list byte -> option archive)
    (d : AsterDownloader) (st : state) (z : string) :
  z ∈ snd st DownloadedFiles ->
  processed_ok (snd st) -> processed_ok (snd (extract_step unzip d st z)).
Proof.
  destruct st as [w h]. intros Hz [Hnd Hsub]. unfold extract_step. cbn [snd] in *.
  case_bool_decide as Hin; [done|].
  destruct (process_zip unzip d z w) as [[[s [|]] l] w']; [|done]. cbn [snd].
  unfold processed_ok, heap_append.
  rewrite heap_set_eq, heap_set_ne by done. split.
  - apply NoDup_app. split; [done|]. split; [|apply NoDup_singleton].
    intros x Hx ->%list_elem_of_singleton. done.
  - intros x [Hx| ->%list_elem_of_singleton]%elem_of_app; [by apply Hsub|done].
Qed.

Lemma extract_fold_processed_ok (unzip : list byte -> option archive)
    (d : AsterDownloader) (l : list string) (st : state) :
  (forall z, z ∈ l -> z ∈ snd st DownloadedFiles) ->
  processed_ok (snd st) ->
  processed_ok (snd (fold_left (extract_step unzip d) l st)).
Proof.
  revert st. induction l as [|z l IH]; intros st Hl Hok; simpl; [done|].
  apply IH.
  - intros x Hx. rewrite extract_step_heap by done. apply Hl, elem_of_cons. by right.
  - apply extract_step_processed_ok; [|done]. apply Hl, elem_of_cons. by left.
Qed.

Lemma download_batch_processed_ok (unzip : list byte -> option archive)
    (as_completed : list string -> list string) (d : AsterDownloader) (net : network)
    (urls : list_obj) (start_idx : Z) (end_idx : option Z) (st : state) :
  processed_ok (snd st) ->
  processed_ok (snd (download_batch unzip as_completed d net urls start_idx end_idx st)).
Proof.
  intros [Hnd Hsub]. unfold download_batch, extract_stage, download_stage.
  set (l := as_completed _). apply extract_fold_processed_ok; [done|].
  split.
  - by rewrite stage_other.
  - intros z Hz. rewrite stage_other in Hz by done. by apply stage_downloaded_mono, Hsub.
Qed.

(** X11: at the end of a run no archive is listed twice in
    [processed_files], every archive listed there is listed in
    [downloaded_files], and so the summary never counts more processed than
    downloaded files; the retry pass keeps this. *)
Theorem main_processed_once
    (unzip : list byte -> option archive) (as_completed : list string -> list string)
    (d : AsterDownloader) (net : network) (args : Args) (urls : list string)
    (w : world) (st' : state) :
  main unzip as_completed d net args urls w = Some st' ->
  NoDup (snd st' ProcessedFiles)
  /\ (forall z, z ∈ snd st' ProcessedFiles -> z ∈ snd st' DownloadedFiles)
  /\ (length (snd st' ProcessedFiles) <= length (snd st' DownloadedFiles))%nat.
Proof.
  intros Hmain.
  assert (processed_ok (snd st')) as [Hnd Hsub].
  { unfold main in Hmain. destruct (arg_reprocess args).
    { injection Hmain as <-. split; [constructor|]. by intros z ?%elem_of_nil. }
    destruct urls as [|u urls]; [done|]. injection Hmain as <-. cbn [snd].
    set (st1 := download_batch _ _ _ _ Urls _ _ _).
    assert (processed_ok (snd st1)) as Hok1.
    { apply download_batch_processed_ok. split; [constructor|]. by intros z ?%elem_of_nil. }
    destruct (arg_retry_failed args && _); [|done].
    apply download_batch_processed_ok. cbn [snd]. destruct Hok1 as [H1 H2].
    split; unfold processed_ok; rewrite ?heap_set_ne by done; done. }
  split; [done|]. split; [done|].
  apply submseteq_length, NoDup_submseteq; done.
Qed.

Lemma main_processed_once_witness :
  exists st',
    main sample_unzip (fun l => l) sample_downloader unreachable
      (sample_args false true false) [sample_url; other_url] staged_world = Some st'
    /\ NoDup (snd st' ProcessedFiles)
    /\ (forall z, z ∈ snd st' ProcessedFiles -> z ∈ snd st' DownloadedFiles)
    /\ (length (snd st' ProcessedFiles) <= length (snd st' DownloadedFiles))%nat.
Proof.
  eexists. split; [reflexivity|].
  apply (main_processed_once sample_unzip (fun l => l) sample_downloader unreachable
           (sample_args false true false) [sample_url; other_url] staged_world).
  reflexivity.
Defined.

(** ** The requests of a run *)

Lemma gets_quiet (url : string) (l : list event) :
  Forall (fun e => match e with EvGet _ | EvSleep _ _ => False | _ => True end) l ->
  gets url l = 0%nat /\ sleeps url l = 0%nat.
Proof.
  induction 1 as [|e l He _ [IH1 IH2]]; [done|].
  change (e :: l) with ([e] ++ l). rewrite gets_app, sleeps_app, IH1, IH2.
  by destruct e.
Qed.

Lemma process_zip_gets (unzip : list byte -> option archive) (d : AsterDownloader)
    (zip_path : string) (w : world) (url : string) :
  gets url (log (snd (process_zip unzip d zip_path w))) = gets url (log w)
  /\ sleeps url (log (snd (process_zip unzip d zip_path w))) = sleeps url (log w).
Proof.
  destruct (exists_ (fs w) (parse zip_path)) eqn:Hex.
  - destruct (process_zip_log unzip d zip_path w Hex) as (_ & l & -> & Hl).
    rewrite gets_app, sleeps_app.
    destruct (gets_quiet url (EvExtract (str (parse zip_path)) :: l)) as [-> ->]; [|lia].
    constructor; [done|]. eapply Forall_impl; [exact Hl|]. by intros [].
  - unfold process_zip. by rewrite Hex.
Qed.



Lemma reprocess_fold_gets (unzip : list byte -> option archive) (d : AsterDownloader)
    (zs : list Path) (st : world * (Z * Z)) (url : string) :
  gets url (log (fst (fold_left (reprocess_step unzip d) zs st))) = gets url (log (fst st))
  /\ sleeps url (log (fst (fold_left (reprocess_step unzip d) zs st)))
     = sleeps url (log (fst st)).
Proof.
  revert st. induction zs as [|z zs IH]; intros st; simpl; [done|].
  destruct (IH (reprocess_step unzip d st z)) as [-> ->].
  destruct st as [w [pc fc]]. rewrite reprocess_step_unfold. cbn [fst].
  apply process_zip_gets.
Qed.

Lemma process_zip_grows (unzip : list byte -> option archive) (d : AsterDownloader)
    (zip_path : string) (w : world) :
  fs_grows (fs w) (fs (snd (process_zip unzip d zip_path w))).
Proof.
  destruct (exists_ (fs w) (parse zip_path)) eqn:Hex.
  - by destruct (process_zip_log unzip d zip_path w Hex) as [? _].
  - unfold process_zip. rewrite Hex. apply fs_grows_refl.
Qed.

Lemma reprocess_fold_grows (unzip : list byte -> option archive) (d : AsterDownloader)
    (zs : list Path) (st : world * (Z * Z)) :
  fs_grows (fs (fst st)) (fs (fst (fold_left (reprocess_step unzip d) zs st))).
Proof.
  revert st. induction zs as [|z zs IH]; intros st; simpl; [apply fs_grows_refl|].
  eapply fs_grows_trans; [|apply IH].
  destruct st as [w [pc fc]]. rewrite reprocess_step_unfold. apply process_zip_grows.
Qed.

Lemma py_slice_first {A} (l : list A) : py_slice l 0 1 = take 1 l.
Proof.
  unfold py_slice, clamp_index. destruct l as [|x l]; [done|].
  change (0 <? 0) with false. change (1 <? 0) with false. cbv iota.
  replace (Z.min 0 (Z.of_nat (length (x :: l)))) with 0 by lia.
  replace (Z.min 1 (Z.of_nat (length (x :: l)))) with 1 by (simpl length; lia).
  done.
Qed.



(** X13: in reprocess mode [main] sends no request and sleeps
    for no URL, removes nothing from the disk, leaves the progress lists
    empty, and does not depend on the network or on the work list. *)
Theorem reprocess_mode_is_offline
    (unzip : list byte -> option archive) (as_completed : list string -> list string)
    (d : AsterDownloader) (net : network) (args : Args) (urls : list string) (w : world) :
  arg_reprocess args = true ->
  exists w',
    main unzip as_completed d net args urls w = Some (w', empty_heap)
    /\ (forall url, gets url (log w') = gets url (log w)
                    /\ sleeps url (log w') = sleeps url (log w))
    /\ fs_grows (fs w) (fs w')
    /\ forall as_completed' net' urls',
         main unzip as_completed' d net' args urls' w = Some (w', empty_heap).
Proof.
  intros Hre. unfold main. rewrite Hre. eexists. split; [reflexivity|].
  split; [|split; [|done]].
  - intros url. unfold reprocess_existing.
    destruct (glob_zip (fs w) (temp_dir d)) as [|z zs]; [done|].
    apply (reprocess_fold_gets unzip d (z :: zs) (w, (0, 0)) url).
  - unfold reprocess_existing.
    destruct (glob_zip (fs w) (temp_dir d)) as [|z zs]; [apply fs_grows_refl|].
    apply (reprocess_fold_grows unzip d (z :: zs) (w, (0, 0))).
Qed.

Lemma reprocess_mode_is_offline_witness :
  exists w',
    main sample_unzip (fun l => l) sample_downloader unreachable
      (sample_args false false true) [] staged_world = Some (w', empty_heap)
    /\ (forall url, gets url (log w') = gets url (log staged_world)
                    /\ sleeps url (log w') = sleeps url (log staged_world))
    /\ fs_grows (fs staged_world) (fs w')
    /\ forall as_completed' net' urls',
         main sample_unzip as_completed' sample_downloader net'
           (sample_args false false true) urls' staged_world = Some (w', empty_heap).
Proof.
  apply (reprocess_mode_is_offline sample_unzip (fun l => l) sample_downloader unreachable
           (sample_args false false true) [] staged_world).
  reflexivity.
Defined.

(** ** cleanup_temp_files *)

Lemma children_elem (f : gmap Path node) (dir p : Path) :
  p ∈ children f dir <-> is_Some (f !! p) /\ p <> dir /\ parent p = dir.
Proof.
  unfold children. rewrite list_elem_of_In, filter_In, <- list_elem_of_In.
  rewrite andb_true_iff, bool_decide_eq_true, bool_decide_eq_true.
  rewrite list_elem_of_fmap. split.
  - intros [([q x] & -> & Hin%elem_of_map_to_list) [? ?]]. simpl in *. by eauto.
  - intros ([x Hx] & ? & ?). split; [|done]. exists (p, x). split; [done|].
    by apply elem_of_map_to_list.
Qed.

Lemma glob_zip_elem (f : gmap Path node) (dir p : Path) :
  p ∈ glob_zip f dir
  <-> is_Some (f !! p) /\ p <> dir /\ parent p = dir
      /\ PyStr.endswith (name p) ".zip" = true.
Proof.
  unfold glob_zip. rewrite list_elem_of_In, filter_In, <- list_elem_of_In, children_elem.
  split.
  - by intros [(? & ? & ?) ?].
  - by intros (? & ? & ? & ?).
Qed.

Lemma is_file_not_anchor (f : gmap Path node) (p : Path) :
  is_file f p = true -> is_anchor p = false /\ exists c, f !! p = Some (File c).
Proof.
  unfold is_file, lookup_node. destruct (is_anchor p); [done|].
  destruct (f !! p) as [[c|]|]; try done. by eauto.
Qed.

Lemma is_file_delete_ne (f : gmap Path node) (p q : Path) :
  p <> q -> is_file (delete p f) q = is_file f q.
Proof. intros Hne. unfold is_file, lookup_node. by rewrite lookup_delete_ne. Qed.

Lemma unlink_fold_lookup (l : list Path) (f : gmap Path node) (q : Path) :
  fold_left (fun f' p => match unlink f' p with Some f'' => f'' | None => f' end) l f !! q
  = if bool_decide (q ∈ l) && is_file f q then None else f !! q.
Proof.
  revert f. induction l as [|p l IH]; intros f; simpl; [done|].
  rewrite IH. clear IH. unfold unlink.
  destruct (decide (q = p)) as [->|Hne].
  - rewrite (bool_decide_eq_true_2 (p ∈ p :: l)) by (apply elem_of_cons; by left).
    destruct (is_file f p) eqn:Hfile.
    + destruct (is_file_not_anchor f p Hfile) as [Ha [c Hc]].
      assert (lookup_node f p = Some (File c)) as -> by (unfold lookup_node; by rewrite Ha).
      rewrite lookup_delete_eq. by destruct (_ && _).
    + unfold is_file in Hfile.
      destruct (lookup_node f p) as [[c|]|] eqn:Hl; try done;
        unfold is_file; rewrite Hl; by rewrite andb_false_r.
  - assert (bool_decide (q ∈ p :: l) = bool_decide (q ∈ l)) as ->.
    { apply bool_decide_ext. rewrite elem_of_cons. split; [by intros [?|?]|by right]. }
    destruct (lookup_node f p) as [[c|]|]; try done.
    by rewrite is_file_delete_ne, lookup_delete_ne.
Qed.

(** X14: [cleanup_temp_files(delete_zips=True)] deletes every file
    directly in the staging directory whose name ends with [.zip] and
    changes no other path; what [glob] still finds there afterwards are
    directories.  With [delete_zips=False] the disk is unchanged. *)
Theorem cleanup_temp_files_effect (d : AsterDownloader) (f : gmap Path node) :
  let f' := cleanup_temp_files d true f in
  (forall p, p ∈ glob_zip f (temp_dir d) -> is_file f p = true -> f' !! p = None)
  /\ (forall p, p ∉ glob_zip f (temp_dir d) \/ is_file f p = false -> f' !! p = f !! p)
  /\ (forall p, p ∈ glob_zip f' (temp_dir d) -> is_dir f' p = true)
  /\ cleanup_temp_files d false f = f.
Proof.
  cbn zeta. unfold cleanup_temp_files.
  assert (forall p, p ∈ glob_zip f (temp_dir d) -> is_file f p = true ->
            fold_left (fun f' p => match unlink f' p with Some f'' => f'' | None => f' end)
              (glob_zip f (temp_dir d)) f !! p = None) as Hdel.
  { intros p Hin Hfile. rewrite unlink_fold_lookup, Hfile.
    by rewrite bool_decide_eq_true_2. }
  assert (forall p, p ∉ glob_zip f (temp_dir d) \/ is_file f p = false ->
            fold_left (fun f' p => match unlink f' p with Some f'' => f'' | None => f' end)
              (glob_zip f (temp_dir d)) f !! p = f !! p) as Hkeep.
  { intros p Hp. rewrite unlink_fold_lookup. destruct Hp as [Hp| ->].
    - by rewrite bool_decide_eq_false_2.
    - by rewrite andb_false_r. }
  split; [done|]. split; [done|]. split; [|done].
  intros p Hin. apply glob_zip_elem in Hin as ([x Hx] & Hne & Hpar & Hzip).
  destruct (is_file f p) eqn:Hfile.
  - destruct (decide (p ∈ glob_zip f (temp_dir d))) as [Hp|Hp].
    + rewrite Hdel in Hx by done. done.
    + rewrite Hkeep in Hx by (by left). exfalso. apply Hp, glob_zip_elem. by eauto.
  - rewrite Hkeep in Hx by (by right).
    unfold is_dir, lookup_node. destruct (is_anchor p) eqn:Ha; [done|].
    rewrite Hkeep by (by right). rewrite Hx.
    unfold is_file, lookup_node in Hfile. rewrite Ha, Hx in Hfile. by destruct x.
Qed.

(** ** The directories and the staging paths *)









Lemma split_trailing (c : ascii) (s : string) :
  exists l, l <> [] /\ PyStr.split c (s +:+ String c "") = l ++ [""%string].
Proof.
  induction s as [|a s (l & Hl & IH)]; simpl.
  - rewrite Ascii.eqb_refl. by exists [""%string].
  - destruct (Ascii.eqb a c).
    + exists (""%string :: l). by rewrite IH.
    + rewrite IH. destruct l as [|h t]; [done|]. by exists (String a h :: t).
Qed.

Lemma filename_of_trailing_slash (base : string) : filename_of (base +:+ "/") = ""%string.
Proof.
  unfold filename_of, PyStr.last_item.
  destruct (split_trailing "/" base) as (l & _ & ->). apply last_last.
Qed.

(** X16: for a URL that ends with a slash the staging path is
    the staging directory itself; as that exists, [download_file] returns
    success without a request and the download stage lists the directory in
    [downloaded_files]. *)
Theorem url_without_file_name_counts_as_downloaded
    (d : AsterDownloader) (net : network) (base : string) (w : world) (h : heap) :
  exists_ (fs w) (temp_dir d) = true ->
  let url := base +:+ "/" in
  filepath_of d url = temp_dir d
  /\ download_file d net url w = (Value (str (temp_dir d), true), w)
  /\ collect d net (w, h) url = (w, heap_append DownloadedFiles (str (temp_dir d)) h).
Proof.
  intros Hex. cbn zeta.
  assert (filepath_of d (base +:+ "/") = temp_dir d) as Hfp.
  { unfold filepath_of, joinpath. rewrite filename_of_trailing_slash. simpl.
    apply app_nil_r. }
  assert (download_file d net (base +:+ "/") w = (Value (str (temp_dir d), true), w)) as Hdl.
  { unfold download_file. by rewrite Hfp, Hex. }
  split; [done|]. split; [done|]. by rewrite collect_unfold, Hdl.
Qed.

Lemma url_without_file_name_counts_as_downloaded_witness :
  let url := "https://e4ftl01.cr.usgs.gov/ASTT/ASTGTM.003" +:+ "/" in
  filepath_of sample_downloader url = temp_dir sample_downloader
  /\ download_file sample_downloader unreachable url sample_world
     = (Value (str (temp_dir sample_downloader), true), sample_world)
  /\ collect sample_downloader unreachable (sample_world, empty_heap) url
     = (sample_world,
        heap_append DownloadedFiles (str (temp_dir sample_downloader)) empty_heap).
Proof.
  apply (url_without_file_name_counts_as_downloaded sample_downloader unreachable
           "https://e4ftl01.cr.usgs.gov/ASTT/ASTGTM.003" sample_world empty_heap).
  vm_compute. reflexivity.
Defined.

End AsterMore.

(** * Further properties of mapzen_downloader.py *)

Module MapzenMore.
Import FS Mapzen MapzenSpec MapzenBatches MapzenMoreSpec MapzenProofs.


(** ** The batches *)

Lemma batch_range_snoc (b : Z) (k : nat) :
  batch_range b (S k) = batch_range b k ++ [b + Z.of_nat k].
Proof. unfold batch_range. by rewrite seq_S, map_app. Qed.

Lemma nth_batch_length (gz_files : list Path) (b : Z) :
  1 <= b ->
  Z.of_nat (length (nth_batch gz_files b))
  = Z.max 0 (Z.min batch_size (Z.of_nat (length gz_files) - (b - 1) * batch_size)).
Proof.
  intros Hb. unfold nth_batch, slice, batch_size. rewrite length_take, length_drop. lia.
Qed.

Lemma nth_batch_take (gz_files : list Path) (k : nat) :
  nth_batch gz_files (1 + Z.of_nat k)
  = take (Z.to_nat batch_size) (drop (k * Z.to_nat batch_size) gz_files).
Proof.
  unfold nth_batch, slice, batch_size.
  replace (Z.to_nat ((1 + Z.of_nat k - 1) * 1000)) with (k * Z.to_nat 1000)%nat by lia.
  set (rest := drop (k * Z.to_nat 1000) gz_files).
  assert (length rest = (length gz_files - k * Z.to_nat 1000)%nat) as Hlen
    by apply length_drop.
  destruct (Z_le_gt_dec ((1 + Z.of_nat k - 1) * 1000 + 1000) (Z.of_nat (length gz_files))).
  - f_equal. lia.
  - rewrite !take_ge; [done|lia|lia].
Qed.

Lemma batches_take (gz_files : list Path) (k : nat) :
  concat (map (nth_batch gz_files) (batch_range 1 k))
  = take (k * Z.to_nat batch_size) gz_files.
Proof.
  induction k as [|k IH]; [done|].
  rewrite batch_range_snoc, map_app, concat_app, IH. simpl. rewrite app_nil_r.
  rewrite nth_batch_take, take_take_drop. f_equal. unfold batch_size. lia.
Qed.

Lemma batches_cover (gz_files : list Path) :
  concat (map (nth_batch gz_files) (batch_range 1 (Z.to_nat (total_batches gz_files))))
  = gz_files.
Proof.
  rewrite batches_take. apply take_ge. unfold total_batches, batch_size.
  pose proof (Z.mul_div_le (Z.of_nat (length gz_files) + 1000 - 1) 1000).
  pose proof (Z.mod_pos_bound (Z.of_nat (length gz_files) + 1000 - 1) 1000).
  pose proof (Z.div_mod (Z.of_nat (length gz_files) + 1000 - 1) 1000).
  nia.
Qed.

(** X17: the slices that the batch loop takes for the batch numbers
    [1 .. total_batches] are, concatenated in order, the list of files;
    each slice is not empty and holds at most 1000 files, exactly 1000
    except for the last one. *)
Theorem batches_partition (gz_files : list Path) :
  concat (map (nth_batch gz_files) (batch_range 1 (Z.to_nat (total_batches gz_files))))
  = gz_files
  /\ forall b, 1 <= b <= total_batches gz_files ->
       (0 < length (nth_batch gz_files b) <= 1000)%nat
       /\ (b < total_batches gz_files -> length (nth_batch gz_files b) = 1000%nat).
Proof.
  split; [apply batches_cover|].
  intros b Hb. pose proof (nth_batch_length gz_files b) as Hlen.
  unfold total_batches, batch_size in *.
  pose proof (Z.mod_pos_bound (Z.of_nat (length gz_files) + 1000 - 1) 1000).
  pose proof (Z.div_mod (Z.of_nat (length gz_files) + 1000 - 1) 1000).
  split; [|intros Hlt]; nia.
Qed.

Lemma ran_tasks_app (l1 l2 : list event) : ran_tasks (l1 ++ l2) = ran_tasks l1 ++ ran_tasks l2.
Proof. apply omap_app. Qed.

Lemma cancelled_tasks_app (l1 l2 : list event) :
  cancelled_tasks (l1 ++ l2) = cancelled_tasks l1 ++ cancelled_tasks l2.
Proof. apply omap_app. Qed.

Lemma ran_tasks_ran (l : list Path) : ran_tasks (map Ran l) = l.
Proof. induction l as [|p l IH]; [done|]. simpl. by rewrite IH. Qed.

Lemma cancelled_tasks_ran (l : list Path) : cancelled_tasks (map Ran l) = [].
Proof. induction l as [|p l IH]; [done|]. exact IH. Qed.

Section Quiet.
Variable fault : io_op -> bool.
Variable gunzip : list byte -> list byte * bool.
Variable str_exn : exn -> string.
Variable as_completed : list Path -> list Path.
Variable started_more : nat -> nat.

Local Abbreviation loop := (completion_loop fault gunzip str_exn None started_more).
Local Abbreviation batches :=
  (batch_loop fault gunzip str_exn None as_completed started_more).

Lemma loop_quiet (todo : list Path) (successful : Z) (failed : list string) (st : state) :
  log (snd (loop todo successful failed st)) = log st ++ map Ran todo
  /\ fs (snd (loop todo successful failed st))
     = fold_left (fun f q => snd (extract_gz_file fault gunzip str_exn q f)) todo (fs st)
  /\ forall s fl, fst (loop todo successful failed st) = Value (s, fl) ->
       s + Z.of_nat (length fl)
       = successful + Z.of_nat (length failed) + Z.of_nat (length todo).
Proof.
  revert successful failed st.
  induction todo as [|p todo IH]; intros successful failed st.
  - simpl. rewrite app_nil_r. split; [done|]. split; [done|]. intros s fl [= <- <-]. lia.
  - cbn [completion_loop fold_left].
    destruct (extract_gz_file fault gunzip str_exn p (fs st)) as [res f'].
    cbn [clock fs log tick shutdown_requested snd].
    destruct res as [[[|] result]|e].
    + destruct (IH (successful + 1) failed
                  (tick {| fs := f'; clock := clock st; log := log st ++ [Ran p] |}))
        as (Hlog & Hfs & Hcount).
      cbn [tick log fs] in Hlog, Hfs. split; [|split].
      * rewrite Hlog, <- app_assoc. done.
      * done.
      * intros s fl Hv. rewrite (Hcount s fl Hv). simpl length. lia.
    + destruct (IH successful (failed ++ [result])
                  (tick {| fs := f'; clock := clock st; log := log st ++ [Ran p] |}))
        as (Hlog & Hfs & Hcount).
      cbn [tick log fs] in Hlog, Hfs. split; [|split].
      * rewrite Hlog, <- app_assoc. done.
      * done.
      * intros s fl Hv. rewrite (Hcount s fl Hv), length_app. simpl length. lia.
    + cbn [fst snd].
      destruct (run_fold fault gunzip str_exn todo
                  (tick {| fs := f'; clock := clock st; log := log st ++ [Ran p] |}))
        as (_ & -> & ->).
      cbn [tick log fs]. split; [by rewrite <- app_assoc|]. split; [done|done].
Qed.

Lemma batches_quiet (gz_files : list Path) (total : Z) (n : nat) (b : nat)
    (ts : Z) (tf : list string) (st : state) (ts' : Z) (tf' : list string) (st' : state) :
  (forall l, as_completed l ≡ₚ l) ->
  batches gz_files total n (1 + Z.of_nat b) ts tf st = (Value (ts', tf'), st') ->
  let done := map (nth_batch gz_files) (map (fun i => 1 + Z.of_nat i) (seq b n)) in
  ts' + Z.of_nat (length tf')
  = ts + Z.of_nat (length tf) + Z.of_nat (length (concat done))
  /\ ran_tasks (log st') ≡ₚ ran_tasks (log st) ++ concat done
  /\ cancelled_tasks (log st') = cancelled_tasks (log st)
  /\ started_batches (log st')
     = started_batches (log st) ++ map (fun i => 1 + Z.of_nat i) (seq b n)
  /\ fs st'
     = fold_left (fun f q => snd (extract_gz_file fault gunzip str_exn q f))
         (concat (map as_completed done)) (fs st).
Proof.
  intros Hperm. cbn zeta. revert b ts tf st.
  induction n as [|n IH]; intros b ts tf st.
  - simpl. intros [= <- <- <-]. rewrite !app_nil_r. split; [lia|done].
  - cbn [batch_loop shutdown_requested]. unfold process_batch.
    fold (nth_batch gz_files (1 + Z.of_nat b)).
    set (batch := nth_batch gz_files (1 + Z.of_nat b)).
    set (st2 := Mapzen.emit (BatchStart (1 + Z.of_nat b) (clock st)) (tick st)).
    destruct (loop_quiet (as_completed batch) 0 [] st2) as (Hlog3 & Hfs3 & Hcount3).
    destruct (loop (as_completed batch) 0 [] st2) as [[[s fl]|e] st3]; [|done].
    cbn [fst snd] in Hlog3, Hfs3, Hcount3. specialize (Hcount3 s fl eq_refl).
    set (st4 := if 1 + Z.of_nat b <? total then Mapzen.emit (Sleep 1) (tick st3) else st3).
    assert (fs st4 = fs st3
            /\ exists ls, log st4 = log st3 ++ ls /\ ran_tasks ls = []
                          /\ cancelled_tasks ls = [] /\ started_batches ls = [])
      as (Hfs4 & ls & Hlog4 & Hr4 & Hc4 & Hb4).
    { subst st4. destruct (_ <? _).
      - split; [done|]. by exists [Sleep 1].
      - split; [done|]. exists []. by rewrite app_nil_r. }
    replace (1 + Z.of_nat b + 1) with (1 + Z.of_nat (S b)) by lia.
    intros Hrest. apply IH in Hrest as (Hcount & Hran & Hcancel & Hstarted & Hfs).
    rewrite Hfs4, Hfs3 in Hfs.
    rewrite Hlog4, Hlog3 in Hran, Hcancel, Hstarted.
    subst st2. cbn [Mapzen.emit tick log] in Hran, Hcancel, Hstarted.
    rewrite !ran_tasks_app, ran_tasks_ran, Hr4 in Hran.
    rewrite !cancelled_tasks_app, cancelled_tasks_ran, Hc4 in Hcancel.
    rewrite !started_batches_app, Hb4 in Hstarted.
    rewrite (started_batches_tasks (map Ran (as_completed batch))) in Hstarted.
    2:{ apply Forall_forall. by intros e (p & -> & _)%list_elem_of_fmap. }
    simpl in Hran, Hcancel, Hstarted. rewrite !app_nil_r in *.
    cbn [seq map concat]. fold batch.
    assert (length (as_completed batch) = length batch) as Hlen by (by rewrite Hperm).
    split; [|split; [|split; [|split]]].
    + rewrite Hcount, length_app, length_app. simpl length in *. lia.
    + rewrite Hran, Hperm, <- app_assoc. done.
    + done.
    + rewrite Hstarted, <- app_assoc. done.
    + rewrite Hfs, fold_left_app. done.
Qed.

(** X18: in a run that no signal interrupts and that reaches
    its summary, every file found at the start is run exactly once and
    none is cancelled, every batch is started, the number of successes
    plus the number of failures is the number of files, and the run is
    not reported as interrupted. *)
Theorem uninterrupted_run_accounts_for_every_file
    (f : gmap Path node) (r : Report) (st : state) :
  (forall l, as_completed l ≡ₚ l) ->
  main fault gunzip str_exn None as_completed started_more f = (Finished r, st) ->
  let gz_files := rglob_gz f data_dir in
  total_successful r + Z.of_nat (length (total_failed r)) = Z.of_nat (length gz_files)
  /\ interrupted r = false
  /\ ran_tasks (log st) ≡ₚ gz_files
  /\ cancelled_tasks (log st) = []
  /\ started_batches (log st) = batch_range 1 (Z.to_nat (total_batches gz_files)).
Proof.
  intros Hperm. cbn zeta. unfold main.
  destruct (negb (exists_ f data_dir)); [done|].
  destruct (rglob_gz f data_dir) as [|g gs] eqn:Hglob; [done|].
  set (gz_files := g :: gs).
  fold (total_batches gz_files).
  destruct (batches gz_files (total_batches gz_files) (Z.to_nat (total_batches gz_files))
              1 0 [] {| fs := f; clock := 0; log := [] |})
    as [[[ts tf]|e] st1] eqn:Hloop; [|done].
  intros [= <- <-]. cbn [total_successful total_failed interrupted log tick].
  apply (batches_quiet gz_files _ _ 0%nat) in Hloop
    as (Hcount & Hran & Hcancel & Hstarted & _); [|done].
  cbn [log ran_tasks cancelled_tasks started_batches omap length] in *.
  change (map (fun i => 1 + Z.of_nat i) (seq 0 ?k)) with (batch_range 1 k) in *.
  rewrite (batches_cover gz_files) in Hcount, Hran.
  split; [lia|]. split; [done|]. split; [done|]. done.
Qed.
End Quiet.

Lemma uninterrupted_run_accounts_for_every_file_witness :
  exists r st,
    main no_fault sample_gunzip sample_str_exn None (fun l => l) (fun _ => 0%nat)
      sample_tree = (Finished r, st)
    /\ total_successful r + Z.of_nat (length (total_failed r))
       = Z.of_nat (length (rglob_gz sample_tree data_dir))
    /\ interrupted r = false
    /\ ran_tasks (log st) ≡ₚ rglob_gz sample_tree data_dir
    /\ cancelled_tasks (log st) = []
    /\ started_batches (log st)
       = batch_range 1 (Z.to_nat (total_batches (rglob_gz sample_tree data_dir))).
Proof.
  eexists. eexists. split; [vm_compute; reflexivity|].
  apply (uninterrupted_run_accounts_for_every_file no_fault sample_gunzip sample_str_exn
           (fun l => l) (fun _ => 0%nat) sample_tree).
  - intros l. reflexivity.
  - vm_compute. reflexivity.
Defined.

(** ** Running a task twice *)


Section Rerun.
Variable fault : io_op -> bool.
Variable gunzip : list byte -> list byte * bool.
Variable str_exn : exn -> string.

Local Abbreviation extract := (extract_gz_file fault gunzip str_exn).

Lemma exists_insert_eq (f : gmap Path node) (p : Path) (x : node) :
  exists_ (<[p := x]> f) p = true.
Proof.
  unfold exists_, lookup_node. destruct (is_anchor p); [done|]. by rewrite lookup_insert_eq.
Qed.

Lemma exists_delete_ne (f : gmap Path node) (p q : Path) :
  p <> q -> exists_ (delete p f) q = exists_ f q.
Proof. intros Hne. unfold exists_, lookup_node. by rewrite lookup_delete_ne. Qed.

Lemma exists_delete_eq (f : gmap Path node) (p : Path) :
  is_anchor p = false -> exists_ (delete p f) p = false.
Proof. intros Ha. unfold exists_, lookup_node. by rewrite Ha, lookup_delete_eq. Qed.

(** X19: after a call on a compressed tile that reported
    success, a second call on the same path reports that the tile is
    already extracted and leaves the disk as it is. *)
Theorem extract_gz_file_rerun_after_success
    (dir : Path) (x : string) (f : gmap Path node) (msg : string) :
  let gz := dir ++ [x +:+ ".hgt.gz"] in
  let res := extract gz f in
  fst res = Value (true, msg) ->
  extract gz (snd res) = (Value (true, "Already extracted: " +:+ x +:+ ".hgt"), snd res).
Proof.
  cbn zeta. set (gz := dir ++ [x +:+ ".hgt.gz"]). set (out := dir ++ [x +:+ ".hgt"]).
  assert (is_anchor gz = false) as Hgz_anchor.
  { apply tile_not_anchor. rewrite length_append. simpl. lia. }
  assert (name out = x +:+ ".hgt") as Hname.
  { apply name_snoc. rewrite length_append. simpl. lia. }
  pose proof (hgt_gz_ne dir x) as Hne. fold gz out in Hne.
  pose proof (with_suffix_hgt_gz dir x) as Hsuf. fold gz out in Hsuf.
  assert (forall f1, exists_ f1 out = true -> exists_ f1 gz = false ->
            extract gz f1 = (Value (true, "Already extracted: " +:+ x +:+ ".hgt"), f1))
    as Hskip.
  { intros f1 Ho Hg. unfold extract_gz_file. by rewrite Hsuf, Ho, Hg, Hname. }
  destruct (extract gz f) as [r1 f1] eqn:He. cbn [fst snd]. intros ->.
  destruct (exists_ f out) eqn:Hout.
  - unfold extract_gz_file in He. rewrite Hsuf, Hout in He.
    destruct (exists_ f gz) eqn:Hgz.
    + destruct (unlink_io fault f gz) as [e|f2] eqn:Hun; [done|].
      apply unlink_io_inr in Hun as [-> _]. injection He as _ <-.
      apply Hskip; [by rewrite exists_delete_ne|by apply exists_delete_eq].
    + injection He as _ <-. by apply Hskip.
  - destruct (extract_gz_file_missing fault gunzip str_exn gz out f Hsuf Hout)
      as [(_ & bytes & data & _ & _ & Hfs)|(e & Hfail & _)];
      rewrite He in *; cbn [fst snd] in *; [|done].
    subst f1. apply Hskip; [|by apply exists_delete_eq].
    rewrite exists_delete_ne by done. apply exists_insert_eq.
Qed.

End Rerun.

Lemma extract_gz_file_rerun_after_success_witness :
  let gz := tile_dir ++ ["N00E007" +:+ ".hgt.gz"] in
  let res := extract_gz_file no_fault sample_gunzip sample_str_exn gz sample_tree in
  extract_gz_file no_fault sample_gunzip sample_str_exn gz (snd res)
  = (Value (true, "Already extracted: " +:+ "N00E007" +:+ ".hgt"), snd res).
Proof.
  apply (extract_gz_file_rerun_after_success no_fault sample_gunzip sample_str_exn
           tile_dir "N00E007" sample_tree "data/mapzen/N00/N00E007.hgt.gz").
  vm_compute. reflexivity.
Defined.



Lemma hgt_gz_ne_hgt (x1 x2 : string) : x1 +:+ ".hgt.gz" <> x2 +:+ ".hgt".
Proof.
  revert x2. induction x1 as [|a x1 IH]; intros x2 H.
  - pose proof (f_equal String.length H) as Hlen. rewrite !length_append in Hlen.
    simpl in Hlen. destruct x2 as [|a [|b [|c [|e x2]]]]; simpl in Hlen; try lia.
    change (".hgt.gz"%string = String a (String b (String c ".hgt"))) in H. inversion H.
  - destruct x2 as [|b x2].
    + pose proof (f_equal String.length H) as Hlen. rewrite append_cons in Hlen.
      simpl in Hlen. rewrite length_append in Hlen. simpl in Hlen. lia.
    + rewrite !append_cons in H. injection H as _ H. by apply IH in H.
Qed.

Lemma append_cancel_r (x1 x2 s : string) : x1 +:+ s = x2 +:+ s -> x1 = x2.
Proof.
  revert x2. induction x1 as [|a x1 IH]; intros x2 H.
  - destruct x2 as [|b x2]; [done|]. rewrite append_nil, append_cons in H.
    pose proof (f_equal String.length H) as Hlen. simpl in Hlen.
    rewrite length_append in Hlen. lia.
  - destruct x2 as [|b x2].
    + rewrite append_nil, append_cons in H.
      pose proof (f_equal String.length H) as Hlen. simpl in Hlen.
      rewrite length_append in Hlen. lia.
    + rewrite !append_cons in H. injection H as -> H. f_equal. by apply IH.
Qed.

Section Independent.
Variable fault : io_op -> bool.
Variable gunzip : list byte -> list byte * bool.
Variable str_exn : exn -> string.

Local Abbreviation extract := (extract_gz_file fault gunzip str_exn).

Lemma extract_frame (gz out q : Path) (f : gmap Path node) :
  with_suffix_empty gz = Some out ->
  q <> gz -> q <> out ->
  snd (extract gz f) !! q = f !! q.
Proof.
  intros Hsuf Hgz Hout. destruct (exists_ f out) eqn:Hex.
  - unfold extract_gz_file. rewrite Hsuf, Hex.
    destruct (exists_ f gz); [|done].
    destruct (unlink_io fault f gz) as [e|f'] eqn:Hun; [done|].
    apply unlink_io_inr in Hun as [-> _]. cbn [snd]. by rewrite lookup_delete_ne.
  - destruct (extract_gz_file_missing fault gunzip str_exn gz out f Hsuf Hex)
      as [(_ & bytes & data & _ & _ & ->)|(e & _ & [->|[c ->]])]; [|done|].
    + by rewrite lookup_delete_ne, lookup_insert_ne.
    + by rewrite lookup_insert_ne.
Qed.

Lemma lookup_node_ext (f g : gmap Path node) (p : Path) :
  f !! p = g !! p -> lookup_node f p = lookup_node g p.
Proof. intros H. unfold lookup_node. by rewrite H. Qed.

Lemma unlink_io_ext (f g : gmap Path node) (p : Path) :
  f !! p = g !! p ->
  (exists e, unlink_io fault f p = inl e /\ unlink_io fault g p = inl e)
  \/ (unlink_io fault f p = inr (delete p f) /\ unlink_io fault g p = inr (delete p g)).
Proof.
  intros H%lookup_node_ext. unfold unlink_io, unlink. rewrite H.
  destruct (fault (Unlink p)); [left; by eexists|].
  destruct (lookup_node g p) as [[c|]|]; [by right|left; by eexists|left; by eexists].
Qed.

Lemma open_rb_io_ext (f g : gmap Path node) (p : Path) :
  f !! p = g !! p -> open_rb_io fault f p = open_rb_io fault g p.
Proof. intros H%lookup_node_ext. unfold open_rb_io, read_file. by rewrite H. Qed.

Lemma open_wb_io_ext (f g : gmap Path node) (p : Path) :
  f !! p = g !! p -> is_dir f (parent p) = is_dir g (parent p) ->
  (exists e, open_wb_io fault f p = inl e /\ open_wb_io fault g p = inl e)
  \/ (open_wb_io fault f p = inr (<[p := File []]> f)
      /\ open_wb_io fault g p = inr (<[p := File []]> g)).
Proof.
  intros H Hpar. unfold open_wb_io, open_wb.
  rewrite Hpar, (AsterProofs.is_dir_ext f g p H).
  destruct (fault (OpenWrite p)); [left; by eexists|].
  destruct (is_dir g p); [left; by eexists|].
  destruct (is_dir g (parent p)); [by right|left; by eexists].
Qed.

Lemma extract_local (gz out : Path) (f g : gmap Path node) :
  with_suffix_empty gz = Some out ->
  gz <> out ->
  f !! gz = g !! gz -> f !! out = g !! out ->
  is_dir f (parent out) = is_dir g (parent out) ->
  fst (extract gz f) = fst (extract gz g)
  /\ snd (extract gz f) !! gz = snd (extract gz g) !! gz
  /\ snd (extract gz f) !! out = snd (extract gz g) !! out.
Proof.
  intros Hsuf Hne Hgz Hout Hpar.
  unfold extract_gz_file. rewrite Hsuf.
  rewrite (AsterProofs.exists_ext f g out Hout), (AsterProofs.exists_ext f g gz Hgz).
  destruct (exists_ g out).
  - destruct (exists_ g gz); [|done].
    destruct (unlink_io_ext f g gz Hgz) as [(e & -> & ->)|[-> ->]]; [done|].
    cbn [fst snd]. split; [done|].
    split; [by rewrite !lookup_delete_eq|by rewrite !lookup_delete_ne].
  - rewrite (open_rb_io_ext f g gz Hgz).
    destruct (open_rb_io fault g gz) as [e|bytes]; [done|].
    destruct (open_wb_io_ext f g out Hout Hpar) as [(e & -> & ->)|[-> ->]]; [done|].
    destruct (gunzip bytes) as [data ok]. rewrite !append_bytes_fresh.
    destruct ok.
    + destruct (unlink_io_ext (<[out := File data]> f) (<[out := File data]> g) gz)
        as [(e & -> & ->)|[-> ->]].
      * by rewrite !lookup_insert_ne.
      * cbn [fst snd]. split; [done|].
        split; [by rewrite !lookup_insert_ne|by rewrite !lookup_insert_eq].
      * cbn [fst snd]. split; [done|].
        split; [by rewrite !lookup_delete_eq|].
        by rewrite !lookup_delete_ne, !lookup_insert_eq.
    + cbn [fst snd]. split; [done|].
      split; [by rewrite !lookup_insert_ne|by rewrite !lookup_insert_eq].
Qed.

Lemma extract_is_dir (gz q : Path) (f : gmap Path node) :
  is_dir (snd (extract gz f)) q = is_dir f q.
Proof.
  destruct (is_dir f q) eqn:Hq.
  2:{ destruct (is_dir (snd (extract gz f)) q) eqn:H; [|done].
      apply extract_dirs in H. congruence. }
  destruct (with_suffix_empty gz) as [out|] eqn:Hsuf.
  2:{ unfold extract_gz_file. by rewrite Hsuf. }
  destruct (exists_ f out) eqn:Hex.
  - unfold extract_gz_file. rewrite Hsuf, Hex.
    destruct (exists_ f gz); [|done].
    destruct (unlink_io fault f gz) as [e|f'] eqn:Hun; [done|].
    apply unlink_io_inr in Hun as [-> Hfile]. cbn [snd].
    unfold is_dir, is_file, lookup_node in *. destruct (is_anchor q); [done|].
    destruct (decide (gz = q)) as [->|Hne]; [|by rewrite lookup_delete_ne].
    destruct (is_anchor q); [done|]. by destruct (f !! q) as [[c|]|].
  - assert (q <> out) as Hqo.
    { intros ->. unfold exists_, is_dir in *. by destruct (lookup_node f out). }
    destruct (extract_gz_file_missing fault gunzip str_exn gz out f Hsuf Hex)
      as [(_ & bytes & data & Hread & _ & ->)|(e & _ & [->|[c ->]])]; [|done|].
    + unfold is_dir, read_file, lookup_node in *. destruct (is_anchor q); [done|].
      destruct (decide (gz = q)) as [->|Hne].
      * destruct (is_anchor q); [done|]. by destruct (f !! q) as [[c|]|].
      * by rewrite lookup_delete_ne, lookup_insert_ne.
    + unfold is_dir, lookup_node in *. destruct (is_anchor q); [done|].
      by rewrite lookup_insert_ne.
Qed.

Lemma tile_paths (dir : Path) (x : string) :
  let gz := dir ++ [x +:+ ".hgt.gz"] in
  let out := dir ++ [x +:+ ".hgt"] in
  with_suffix_empty gz = Some out /\ gz <> out.
Proof. split; [apply with_suffix_hgt_gz|apply hgt_gz_ne]. Qed.

(** Tasks on two different compressed tiles commute. *)
Lemma tasks_commute (p q : Path) (f : gmap Path node) :
  is_tile p -> is_tile q -> p <> q ->
  fst (extract p f) = fst (extract p (snd (extract q f)))
  /\ fst (extract q f) = fst (extract q (snd (extract p f)))
  /\ snd (extract q (snd (extract p f))) = snd (extract p (snd (extract q f))).
Proof.
  intros (d1 & x1 & ->) (d2 & x2 & ->) Hpq.
  set (gz1 := d1 ++ [x1 +:+ ".hgt.gz"]) in *. set (out1 := d1 ++ [x1 +:+ ".hgt"]).
  set (gz2 := d2 ++ [x2 +:+ ".hgt.gz"]) in *. set (out2 := d2 ++ [x2 +:+ ".hgt"]).
  destruct (tile_paths d1 x1) as [Hs1 Hn1]. destruct (tile_paths d2 x2) as [Hs2 Hn2].
  fold gz1 out1 in Hs1, Hn1. fold gz2 out2 in Hs2, Hn2.
  assert (out1 <> out2) as Hoo.
  { intros Heq. apply Hpq. unfold out1, out2 in Heq.
    apply app_inj_tail in Heq as [-> Hx]. unfold gz1, gz2.
    by rewrite (append_cancel_r _ _ _ Hx). }
  assert (gz1 <> out2) as Hgo.
  { intros Heq. unfold gz1, out2 in Heq. apply app_inj_tail in Heq as [_ Hx].
    by apply hgt_gz_ne_hgt in Hx. }
  assert (gz2 <> out1) as Hog.
  { intros Heq. unfold gz2, out1 in Heq. apply app_inj_tail in Heq as [_ Hx].
    by apply hgt_gz_ne_hgt in Hx. }
  assert (forall f0,
            fst (extract gz1 (snd (extract gz2 f0))) = fst (extract gz1 f0)
            /\ snd (extract gz1 (snd (extract gz2 f0))) !! gz1 = snd (extract gz1 f0) !! gz1
            /\ snd (extract gz1 (snd (extract gz2 f0))) !! out1
               = snd (extract gz1 f0) !! out1) as H12.
  { intros f0. apply (extract_local gz1 out1); try done.
    - by apply (extract_frame gz2 out2).
    - by apply (extract_frame gz2 out2).
    - apply extract_is_dir. }
  assert (forall f0,
            fst (extract gz2 (snd (extract gz1 f0))) = fst (extract gz2 f0)
            /\ snd (extract gz2 (snd (extract gz1 f0))) !! gz2 = snd (extract gz2 f0) !! gz2
            /\ snd (extract gz2 (snd (extract gz1 f0))) !! out2
               = snd (extract gz2 f0) !! out2) as H21.
  { intros f0. apply (extract_local gz2 out2); try done.
    - by apply (extract_frame gz1 out1).
    - by apply (extract_frame gz1 out1).
    - apply extract_is_dir. }
  destruct (H12 f) as (Hr1 & Hg1 & Ho1). destruct (H21 f) as (Hr2 & Hg2 & Ho2).
  split; [done|]. split; [done|].
  apply map_eq. intros k.
  destruct (decide (k = gz1)) as [->|Hk1].
  { etrans; [by apply (extract_frame gz2 out2)|]. symmetry. exact Hg1. }
  destruct (decide (k = out1)) as [->|Hk2].
  { etrans; [by apply (extract_frame gz2 out2)|]. symmetry. exact Ho1. }
  destruct (decide (k = gz2)) as [->|Hk3].
  { etrans; [exact Hg2|]. symmetry. by apply (extract_frame gz1 out1). }
  destruct (decide (k = out2)) as [->|Hk4].
  { etrans; [exact Ho2|]. symmetry. by apply (extract_frame gz1 out1). }
  etrans; [by apply (extract_frame gz2 out2)|].
  etrans; [by apply (extract_frame gz1 out1)|]. symmetry.
  etrans; [by apply (extract_frame gz1 out1)|].
  by apply (extract_frame gz2 out2).
Qed.
End Independent.


Lemma substring_full (s : string) : String.substring 0 (String.length s) s = s.
Proof. induction s as [|a s IH]; [done|]. simpl. by rewrite IH. Qed.

Lemma substring_split (s : string) (k : nat) :
  (k <= String.length s)%nat ->
  s = String.substring 0 k s +:+ String.substring k (String.length s - k) s.
Proof.
  revert k. induction s as [|a s IH]; intros k Hk.
  - destruct k; [done|simpl in Hk; lia].
  - destruct k as [|k].
    + rewrite Nat.sub_0_r, substring_full. done.
    + simpl in Hk. simpl. rewrite append_cons. f_equal. apply IH. lia.
Qed.

Lemma endswith_append (s suf : string) :
  PyStr.endswith s suf = true -> exists x, s = x +:+ suf.
Proof.
  unfold PyStr.endswith. intros [Hlen Heq]%andb_true_iff.
  apply Nat.leb_le in Hlen. apply String.eqb_eq in Heq.
  exists (String.substring 0 (String.length s - String.length suf) s).
  etrans; [apply (substring_split s (String.length s - String.length suf)); lia|].
  f_equal.
  replace (String.length s - (String.length s - String.length suf))%nat
    with (String.length suf) by lia.
  exact Heq.
Qed.

Lemma name_last (dir : Path) (n : string) :
  name (dir ++ [n]) = n \/ name (dir ++ [n]) = ""%string.
Proof.
  unfold name. destruct dir as [|a dir]; simpl.
  - destruct (String.eqb n "/"); auto.
  - rewrite bool_decide_eq_false_2 by (by destruct dir).
    rewrite andb_false_r. left. change (List.last (a :: dir ++ [n]) ""%string = n).
    by rewrite app_comm_cons, last_last.
Qed.

Lemma tile_of_name (p : Path) : PyStr.endswith (name p) ".hgt.gz" = true -> is_tile p.
Proof.
  intros Hname. destruct (endswith_append _ _ Hname) as [x Hx].
  assert (p <> []) as Hp by (by intros ->).
  destruct (exists_last Hp) as (dir & n & ->).
  exists dir, x. destruct (name_last dir n) as [Hn|Hn]; rewrite Hn in *; [by subst|done].
Qed.

Lemma rglob_gz_NoDup (f : gmap Path node) (dir : Path) : NoDup (rglob_gz f dir).
Proof.
  unfold rglob_gz, descendants.
  apply NoDup_ListNoDup, List.NoDup_filter, List.NoDup_filter, NoDup_ListNoDup.
  apply NoDup_fst_map_to_list.
Qed.

Section Order.
Variable fault : io_op -> bool.
Variable gunzip : list byte -> list byte * bool.
Variable str_exn : exn -> string.

Local Abbreviation run := (fun f q => snd (extract_gz_file fault gunzip str_exn q f)).

Lemma fold_order_independent (l1 l2 : list Path) (f : gmap Path node) :
  l1 ≡ₚ l2 -> NoDup l1 -> Forall is_tile l1 ->
  fold_left run l1 f = fold_left run l2 f.
Proof.
  intros Hperm. revert f.
  induction Hperm as [|x l l' Hperm IH|x y l|l l' l'' H1 IH1 H2 IH2]; intros f Hnd Hall.
  - done.
  - simpl. apply IH; [by apply NoDup_cons in Hnd as [_ ?]|by apply Forall_cons in Hall as [_ ?]].
  - simpl. f_equal.
    apply NoDup_cons in Hnd as [Hy _]. apply Forall_cons in Hall as [Ty Hall].
    apply Forall_cons in Hall as [Tx _].
    assert (y <> x) as Hne by (intros ->; apply Hy, elem_of_cons; by left).
    by destruct (tasks_commute fault gunzip str_exn y x f Ty Tx Hne)
      as (_ & _ & ->).
  - etrans; [by apply IH1|]. apply IH2; by rewrite <- H1.
Qed.
End Order.

Lemma concat_perm (as_completed : list Path -> list Path) (ls : list (list Path)) :
  (forall l, as_completed l ≡ₚ l) -> concat (map as_completed ls) ≡ₚ concat ls.
Proof.
  intros Hperm. induction ls as [|l ls IH]; [done|]. simpl. by rewrite Hperm, IH.
Qed.

Section Results.
Variable fault : io_op -> bool.
Variable gunzip : list byte -> list byte * bool.
Variable str_exn : exn -> string.

Local Abbreviation extract := (extract_gz_file fault gunzip str_exn).
Local Abbreviation run := (fun f q => snd (extract_gz_file fault gunzip str_exn q f)).
Local Abbreviation fails := (task_fails fault gunzip str_exn).
Local Abbreviation returns := (fun f p => exists v, fst (extract p f) = Value v).

(** The result of a task does not depend on the tasks of other tiles that
    ran before it. *)
Lemma result_after_others (l : list Path) (q : Path) (f : gmap Path node) :
  Forall is_tile l -> is_tile q -> q ∉ l ->
  fst (extract q (fold_left run l f)) = fst (extract q f).
Proof.
  revert f. induction l as [|x l IH]; intros f Hall Hq Hnot; [done|].
  apply Forall_cons in Hall as [Hx Hall]. apply not_elem_of_cons in Hnot as [Hne Hnot].
  simpl. rewrite IH by done.
  by destruct (tasks_commute fault gunzip str_exn q x f Hq Hx Hne)
    as (-> & _).
Qed.

Lemma fails_after_others (l : list Path) (q : Path) (f : gmap Path node) :
  Forall is_tile l -> is_tile q -> q ∉ l ->
  fails (fold_left run l f) q = fails f q.
Proof. intros. unfold task_fails. by rewrite result_after_others. Qed.

Lemma filter_fails_after (l rest : list Path) (f : gmap Path node) :
  Forall is_tile (l ++ rest) -> NoDup (l ++ rest) ->
  List.filter (fails (fold_left run l f)) rest = List.filter (fails f) rest
  /\ (Forall (returns (fold_left run l f)) rest -> Forall (returns f) rest).
Proof.
  intros [Hl Hrest]%Forall_app (_ & Hdisj & _)%NoDup_app.
  assert (forall q, q ∈ rest -> is_tile q /\ q ∉ l) as Hq.
  { intros q Hin. split; [by eapply Forall_forall|]. intros Hl'. by eapply Hdisj. }
  split.
  - apply List.filter_ext_in. intros q Hin%list_elem_of_In.
    destruct (Hq q Hin). by apply fails_after_others.
  - rewrite !Forall_forall. intros Hret q Hin. destruct (Hq q Hin).
    destruct (Hret q Hin) as [v Hv]. exists v. by rewrite <- Hv, result_after_others.
Qed.

Section Loops.
Variable as_completed : list Path -> list Path.
Variable started_more : nat -> nat.

Local Abbreviation loop := (completion_loop fault gunzip str_exn None started_more).
Local Abbreviation batches :=
  (batch_loop fault gunzip str_exn None as_completed started_more).

Lemma loop_failures (todo : list Path) (successful : Z) (failed : list string)
    (st : state) (s : Z) (fl : list string) (st' : state) :
  Forall is_tile todo -> NoDup todo ->
  loop todo successful failed st = (Value (s, fl), st') ->
  length fl = (length failed + length (List.filter (fails (fs st)) todo))%nat
  /\ Forall (returns (fs st)) todo.
Proof.
  revert successful failed st.
  induction todo as [|p todo IH]; intros successful failed st Hall Hnd.
  - simpl. intros [= <- <- <-]. split; [lia|done].
  - cbn [completion_loop List.filter]. unfold task_fails at 1.
    destruct (filter_fails_after [p] todo (fs st) Hall Hnd) as [Hfilter Hreturns].
    cbn [fold_left] in Hfilter, Hreturns.
    apply Forall_cons in Hall as [Hp Hall]. apply NoDup_cons in Hnd as [Hnot Hnd].
    destruct (extract p (fs st)) as [res f'] eqn:Hex. cbn [fst snd] in *.
    cbn [clock fs log tick shutdown_requested].
    destruct res as [[[|] result]|e]; [| |done].
    + intros Hloop. apply IH in Hloop as [Hlen Hret]; [|done|done].
      cbn [fs tick] in Hlen, Hret. rewrite Hfilter in Hlen.
      split; [done|]. constructor; [rewrite Hex; by eexists|by apply Hreturns].
    + intros Hloop. apply IH in Hloop as [Hlen Hret]; [|done|done].
      cbn [fs tick] in Hlen, Hret. rewrite Hfilter, length_app in Hlen.
      split; [simpl in *; lia|]. constructor; [rewrite Hex; by eexists|by apply Hreturns].
Qed.

Lemma batches_failures (gz_files : list Path) (total : Z) (n : nat) (b : nat)
    (ts : Z) (tf : list string) (st : state) (ts' : Z) (tf' : list string) (st' : state) :
  let order := concat (map as_completed (map (nth_batch gz_files)
                 (map (fun i => 1 + Z.of_nat i) (seq b n)))) in
  Forall is_tile order -> NoDup order ->
  batches gz_files total n (1 + Z.of_nat b) ts tf st = (Value (ts', tf'), st') ->
  length tf' = (length tf + length (List.filter (fails (fs st)) order))%nat
  /\ Forall (returns (fs st)) order.
Proof.
  cbn zeta. revert b ts tf st.
  induction n as [|n IH]; intros b ts tf st.
  - simpl. intros _ _ [= <- <- <-]. split; [lia|done].
  - cbn [seq map concat]. intros Hall Hnd.
    cbn [batch_loop shutdown_requested]. unfold process_batch.
    fold (nth_batch gz_files (1 + Z.of_nat b)).
    set (batch := as_completed (nth_batch gz_files (1 + Z.of_nat b))) in *.
    set (rest := concat (map as_completed (map (nth_batch gz_files)
                   (map (fun i => 1 + Z.of_nat i) (seq (S b) n))))) in *.
    set (st2 := Mapzen.emit (BatchStart (1 + Z.of_nat b) (clock st)) (tick st)).
    destruct (filter_fails_after batch rest (fs st) Hall Hnd) as [Hfilter Hreturns].
    apply Forall_app in Hall as [Hall1 Hall2]. apply NoDup_app in Hnd as (Hnd1 & _ & Hnd2).
    destruct (loop_quiet fault gunzip str_exn started_more batch 0 [] st2)
      as (_ & Hfs3 & _).
    destruct (loop batch 0 [] st2) as [[[s fl]|e] st3] eqn:Hloop; [|done].
    apply loop_failures in Hloop as [Hlen1 Hret1]; [|done|done].
    cbn [fst snd] in Hfs3. subst st2. cbn [fs tick Mapzen.emit] in Hfs3, Hlen1, Hret1.
    set (st4 := if 1 + Z.of_nat b <? total then Mapzen.emit (Sleep 1) (tick st3) else st3).
    assert (fs st4 = fs st3) as Hfs4 by (subst st4; by destruct (_ <? _)).
    replace (1 + Z.of_nat b + 1) with (1 + Z.of_nat (S b)) by lia.
    intros Hrest. apply IH in Hrest as [Hlen Hret]; [|done|done].
    rewrite Hfs4, Hfs3 in Hlen, Hret. fold rest in Hlen, Hret. rewrite Hfilter in Hlen.
    split.
    + rewrite Hlen, List.filter_app, !length_app. simpl length in Hlen1. lia.
    + apply Forall_app. split; [done|by apply Hreturns].
Qed.
End Loops.
End Results.

(** X21: the tasks of different compressed tiles are independent: the
    disk after running them does not depend on the order in which they
    run, and the result of each does not depend on the tasks that ran
    before it. *)
Theorem tasks_of_different_tiles_are_independent
    (fault : io_op -> bool) (gunzip : list byte -> list byte * bool)
    (str_exn : exn -> string) (l1 l2 : list Path) (f : gmap Path node) :
  l1 ≡ₚ l2 -> NoDup l1 -> Forall is_tile l1 ->
  fold_left (fun f q => snd (extract_gz_file fault gunzip str_exn q f)) l1 f
  = fold_left (fun f q => snd (extract_gz_file fault gunzip str_exn q f)) l2 f
  /\ forall before q after, l1 = before ++ q :: after ->
       fst (extract_gz_file fault gunzip str_exn q
              (fold_left (fun f q => snd (extract_gz_file fault gunzip str_exn q f))
                 before f))
       = fst (extract_gz_file fault gunzip str_exn q f).
Proof.
  intros Hperm Hnd Hall. split; [by apply fold_order_independent|].
  intros before q after ->.
  apply Forall_app in Hall as [Hbefore Hrest]. apply Forall_cons in Hrest as [Hq _].
  apply NoDup_app in Hnd as (_ & Hdisj & _).
  apply result_after_others; [done|done|].
  intros Hin. apply (Hdisj q Hin), elem_of_cons. by left.
Qed.

Lemma tasks_of_different_tiles_are_independent_witness :
  let run := fun f q => snd (extract_gz_file no_fault sample_gunzip sample_str_exn q f) in
  let p6 := tile_dir ++ ["N00E006" +:+ ".hgt.gz"] in
  let p7 := tile_dir ++ ["N00E007" +:+ ".hgt.gz"] in
  fold_left run [p6; p7] sample_tree = fold_left run [p7; p6] sample_tree
  /\ forall before q after, [p6; p7] = before ++ q :: after ->
       fst (extract_gz_file no_fault sample_gunzip sample_str_exn q
              (fold_left run before sample_tree))
       = fst (extract_gz_file no_fault sample_gunzip sample_str_exn q sample_tree).
Proof.
  apply (tasks_of_different_tiles_are_independent no_fault sample_gunzip sample_str_exn
           [tile_dir ++ ["N00E006" +:+ ".hgt.gz"]; tile_dir ++ ["N00E007" +:+ ".hgt.gz"]]
           [tile_dir ++ ["N00E007" +:+ ".hgt.gz"]; tile_dir ++ ["N00E006" +:+ ".hgt.gz"]]
           sample_tree).
  - apply perm_swap.
  - apply (bool_decide_unpack _). vm_compute. reflexivity.
  - constructor; [exists tile_dir, "N00E006"%string; reflexivity|].
    constructor; [exists tile_dir, "N00E007"%string; reflexivity|constructor].
Defined.

(** ** The disk after a run *)

Lemma quiet_run_disk
    (fault : io_op -> bool) (gunzip : list byte -> list byte * bool)
    (str_exn : exn -> string) (as_completed : list Path -> list Path)
    (started_more : nat -> nat) (f : gmap Path node) (r : Report) (st : state) :
  (forall l, as_completed l ≡ₚ l) ->
  main fault gunzip str_exn None as_completed started_more f = (Finished r, st) ->
  fs st = fold_left (fun f q => snd (extract_gz_file fault gunzip str_exn q f))
            (rglob_gz f data_dir) f
  /\ remaining r = length (rglob_gz (fs st) data_dir).
Proof.
  intros Hperm. unfold main.
  destruct (negb (exists_ f data_dir)); [done|].
  destruct (rglob_gz f data_dir) as [|g gs] eqn:Hglob; [done|].
  rewrite <- Hglob. set (gz_files := rglob_gz f data_dir).
  fold (total_batches gz_files).
  destruct (batch_loop fault gunzip str_exn None as_completed started_more gz_files
              (total_batches gz_files) (Z.to_nat (total_batches gz_files))
              1 0 [] {| fs := f; clock := 0; log := [] |})
    as [[[ts tf]|e] st1] eqn:Hloop; [|done].
  intros [= <- <-]. cbn [remaining fs tick]. split; [|done].
  apply (batches_quiet fault gunzip str_exn as_completed started_more gz_files _ _ 0%nat)
    in Hloop as (_ & _ & _ & _ & Hfs); [|done].
  cbn [fs] in Hfs. rewrite Hfs.
  change (map (fun i => 1 + Z.of_nat i) (seq 0 ?k)) with (batch_range 1 k).
  assert (concat (map as_completed (map (nth_batch gz_files)
            (batch_range 1 (Z.to_nat (total_batches gz_files))))) ≡ₚ gz_files) as Hp.
  { rewrite concat_perm by done. by rewrite (batches_cover gz_files). }
  symmetry. apply fold_order_independent.
  - by symmetry.
  - apply rglob_gz_NoDup.
  - apply Forall_forall. intros p Hp'. by eapply tile_of_name, rglob_gz_names.
Qed.

(** X22: in a run that no signal interrupts and that reaches its
    summary, the disk at the end is the one that running the tasks one after
    the other in the order of the file list gives; the summary counts the
    compressed files that remain on it.  So the disk and this count are the
    same whatever the order in which the tasks of each batch complete. *)
Theorem uninterrupted_run_disk
    (fault : io_op -> bool) (gunzip : list byte -> list byte * bool)
    (str_exn : exn -> string) (as_completed : list Path -> list Path)
    (started_more : nat -> nat) (f : gmap Path node) (r : Report) (st : state) :
  (forall l, as_completed l ≡ₚ l) ->
  main fault gunzip str_exn None as_completed started_more f = (Finished r, st) ->
  fs st = fold_left (fun f q => snd (extract_gz_file fault gunzip str_exn q f))
            (rglob_gz f data_dir) f
  /\ remaining r = length (rglob_gz (fs st) data_dir)
  /\ forall as_completed' started_more' r' st',
       (forall l, as_completed' l ≡ₚ l) ->
       main fault gunzip str_exn None as_completed' started_more' f = (Finished r', st') ->
       fs st' = fs st /\ remaining r' = remaining r.
Proof.
  intros Hperm Hmain.
  destruct (quiet_run_disk fault gunzip str_exn as_completed started_more f r st
              Hperm Hmain) as [Hfs Hrem].
  split; [done|]. split; [done|].
  intros as_completed' started_more' r' st' Hperm' Hmain'.
  destruct (quiet_run_disk fault gunzip str_exn as_completed' started_more' f r' st'
              Hperm' Hmain') as [Hfs' Hrem'].
  assert (fs st' = fs st) as Heq by (by rewrite Hfs, Hfs').
  split; [done|]. by rewrite Hrem, Hrem', Heq.
Qed.

Lemma uninterrupted_run_disk_witness :
  exists r st,
    main no_fault sample_gunzip sample_str_exn None (@rev Path) (fun _ => 0%nat)
      sample_tree = (Finished r, st)
    /\ fs st = fold_left
                 (fun f q => snd (extract_gz_file no_fault sample_gunzip sample_str_exn q f))
                 (rglob_gz sample_tree data_dir) sample_tree
    /\ remaining r = length (rglob_gz (fs st) data_dir)
    /\ forall as_completed' started_more' r' st',
         (forall l, as_completed' l ≡ₚ l) ->
         main no_fault sample_gunzip sample_str_exn None as_completed' started_more'
           sample_tree = (Finished r', st') ->
         fs st' = fs st /\ remaining r' = remaining r.
Proof.
  eexists. eexists. split; [vm_compute; reflexivity|].
  apply (uninterrupted_run_disk no_fault sample_gunzip sample_str_exn (@rev Path)
           (fun _ => 0%nat) sample_tree).
  - intros l. apply Permutation_sym, Permutation_rev.
  - vm_compute. reflexivity.
Defined.

(** ** What is left to extract *)

Lemma filter_perm {A} (P : A -> bool) (l l' : list A) :
  l ≡ₚ l' -> List.filter P l ≡ₚ List.filter P l'.
Proof.
  induction 1 as [|x l l' _ IH|x y l|l l' l'' _ IH1 _ IH2]; simpl.
  - done.
  - destruct (P x); by rewrite IH.
  - destruct (P x), (P y); try done. apply perm_swap.
  - by etrans.
Qed.

Lemma rglob_gz_elem (f : gmap Path node) (dir k : Path) :
  k ∈ rglob_gz f dir
  <-> is_Some (f !! k) /\ k <> dir /\ take (length dir) k = dir
      /\ PyStr.endswith (name k) ".hgt.gz" = true.
Proof.
  unfold rglob_gz, descendants.
  rewrite list_elem_of_In, !filter_In, <- list_elem_of_In.
  rewrite andb_true_iff, bool_decide_eq_true, bool_decide_eq_true, list_elem_of_fmap.
  split.
  - intros [[([q x] & -> & Hin%elem_of_map_to_list) [? ?]] ?]. simpl in *. by eauto.
  - intros ([x Hx] & ? & ? & ?). split; [|done]. split; [|done].
    exists (k, x). split; [done|]. by apply elem_of_map_to_list.
Qed.

Section Remaining.
Variable fault : io_op -> bool.
Variable gunzip : list byte -> list byte * bool.
Variable str_exn : exn -> string.

Local Abbreviation extract := (extract_gz_file fault gunzip str_exn).
Local Abbreviation run := (fun f q => snd (extract_gz_file fault gunzip str_exn q f)).
Local Abbreviation fails := (task_fails fault gunzip str_exn).
Local Abbreviation returns := (fun f p => exists v, fst (extract p f) = Value v).

(** A task that returns on a compressed file that is there deletes it when
    it reports success and keeps it when it reports failure. *)
Lemma task_outcome (p : Path) (f : gmap Path node) (b : bool) (msg : string) :
  is_tile p -> is_Some (f !! p) ->
  fst (extract p f) = Value (b, msg) ->
  snd (extract p f) !! p = if b then None else f !! p.
Proof.
  intros (dir & x & ->) [n Hn].
  assert (is_anchor (dir ++ [x +:+ ".hgt.gz"]) = false) as Hanchor.
  { apply tile_not_anchor. rewrite length_append. simpl. lia. }
  assert (exists_ f (dir ++ [x +:+ ".hgt.gz"]) = true) as Hgz.
  { unfold exists_, lookup_node. by rewrite Hanchor, Hn. }
  clear Hn.
  set (gz := dir ++ [x +:+ ".hgt.gz"]) in *. set (out := dir ++ [x +:+ ".hgt"]).
  destruct (tile_paths dir x) as [Hsuf Hne]. fold gz out in Hsuf, Hne.
  destruct (exists_ f out) eqn:Hout.
  - unfold extract_gz_file. rewrite Hsuf, Hout, Hgz.
    destruct (unlink_io fault f gz) as [e|f'] eqn:Hun; [done|].
    apply unlink_io_inr in Hun as [-> _]. cbn [fst snd]. intros [= <- _].
    apply lookup_delete_eq.
  - destruct (extract_gz_file_missing fault gunzip str_exn gz out f Hsuf Hout)
      as [(-> & bytes & data & _ & _ & ->)|(e & -> & Hfs)].
    + intros [= <- _]. apply lookup_delete_eq.
    + unfold failure. intros [= <- _]. destruct Hfs as [->|[c ->]]; [done|].
      by apply lookup_insert_ne.
Qed.

Lemma fold_frame (l : list Path) (k : Path) (f : gmap Path node) :
  (forall p out, p ∈ l -> with_suffix_empty p = Some out -> k <> p /\ k <> out) ->
  Forall is_tile l ->
  fold_left run l f !! k = f !! k.
Proof.
  revert f. induction l as [|x l IH]; intros f Hk Hall; [done|].
  apply Forall_cons in Hall as [(dir & y & ->) Hall]. simpl.
  rewrite IH; [|intros p out Hp; apply Hk, elem_of_cons; by right|done].
  destruct (tile_paths dir y) as [Hsuf _].
  destruct (Hk _ _ ltac:(apply elem_of_cons; by left) Hsuf) as [H1 H2].
  by apply (extract_frame fault gunzip str_exn _ _ k f Hsuf).
Qed.

Lemma tile_not_output (k p out : Path) :
  is_tile k -> is_tile p -> with_suffix_empty p = Some out -> k <> out.
Proof.
  intros (d1 & x1 & ->) (d2 & x2 & ->) Hsuf.
  destruct (tile_paths d2 x2) as [Hsuf' _]. rewrite Hsuf' in Hsuf. injection Hsuf as <-.
  intros [_ Hx]%app_inj_tail. by apply hgt_gz_ne_hgt in Hx.
Qed.

Lemma fold_own (l : list Path) (p : Path) (f : gmap Path node) :
  NoDup l -> Forall is_tile l -> p ∈ l ->
  fold_left run l f !! p = snd (extract p f) !! p.
Proof.
  intros Hnd Hall Hin.
  apply elem_of_Permutation in Hin as [l' Hperm].
  rewrite (fold_order_independent fault gunzip str_exn l (p :: l') f Hperm Hnd Hall).
  rewrite Hperm in Hnd, Hall.
  apply NoDup_cons in Hnd as [Hnot _]. apply Forall_cons in Hall as [Hp Hall].
  simpl. apply fold_frame; [|done].
  intros q out Hq Hsuf. split; [by intros ->|].
  apply (tile_not_output p q out); [done| |done]. by eapply Forall_forall.
Qed.

Lemma remaining_are_failures (f : gmap Path node) (dir k : Path) :
  let gz_files := rglob_gz f dir in
  Forall (returns f) gz_files ->
  k ∈ rglob_gz (fold_left run gz_files f) dir
  <-> k ∈ gz_files /\ fails f k = true.
Proof.
  cbn zeta. intros Hret.
  assert (Forall is_tile (rglob_gz f dir)) as Hall.
  { apply Forall_forall. intros p Hp. by eapply tile_of_name, rglob_gz_names. }
  pose proof (rglob_gz_NoDup f dir) as Hnd.
  assert (forall p, p ∈ rglob_gz f dir ->
            exists b msg, fst (extract p f) = Value (b, msg)
              /\ fold_left run (rglob_gz f dir) f !! p = (if b then None else f !! p)
              /\ is_Some (f !! p)) as Hown.
  { intros p Hp. rewrite Forall_forall in Hret. destruct (Hret p Hp) as [[b msg] Hv].
    exists b, msg. split; [done|].
    assert (is_Some (f !! p)) as Hsome by (by apply rglob_gz_elem in Hp as [? _]).
    split; [|done]. rewrite fold_own by done.
    apply (task_outcome p f b msg); [by eapply Forall_forall|done|done]. }
  split.
  - intros Hk. pose proof Hk as (Hsome & Hne & Hpre & Hname)%rglob_gz_elem.
    destruct (decide (k ∈ rglob_gz f dir)) as [Hin|Hnot].
    + split; [done|]. destruct (Hown k Hin) as (b & msg & Hv & Hl & _).
      unfold task_fails. rewrite Hv. destruct b; [|done].
      rewrite Hl in Hsome. by destruct Hsome.
    + exfalso. apply Hnot, rglob_gz_elem.
      rewrite fold_frame in Hsome; [done| |done].
      intros p out Hp Hsuf. split; [by intros ->|].
      apply (tile_not_output k p out); [by apply tile_of_name| |done].
      by eapply Forall_forall.
  - intros [Hin Hfail]. pose proof Hin as (Hsome & Hne & Hpre & Hname)%rglob_gz_elem.
    apply rglob_gz_elem. split; [|done].
    destruct (Hown k Hin) as (b & msg & Hv & -> & _).
    unfold task_fails in Hfail. rewrite Hv in Hfail. by destruct b.
Qed.
End Remaining.

(** X23: in a run that no signal interrupts and that reaches its
    summary, the number of compressed files that the summary reports as
    still to extract is the number of failures that it reports; a run
    without a failure leaves no compressed file under the data directory. *)
Theorem uninterrupted_run_remaining
    (fault : io_op -> bool) (gunzip : list byte -> list byte * bool)
    (str_exn : exn -> string) (as_completed : list Path -> list Path)
    (started_more : nat -> nat) (f : gmap Path node) (r : Report) (st : state) :
  (forall l, as_completed l ≡ₚ l) ->
  main fault gunzip str_exn None as_completed started_more f = (Finished r, st) ->
  remaining r = length (total_failed r)
  /\ (total_failed r = [] -> rglob_gz (fs st) data_dir = []).
Proof.
  intros Hperm Hmain.
  destruct (quiet_run_disk fault gunzip str_exn as_completed started_more f r st
              Hperm Hmain) as [Hfs Hrem].
  assert (remaining r = length (total_failed r)) as Hcount.
  2:{ split; [done|]. intros Hnil. rewrite Hnil, Hrem in Hcount.
      by apply length_zero_iff_nil in Hcount. }
  rewrite Hrem, Hfs. clear Hfs Hrem. unfold main in Hmain.
  destruct (negb (exists_ f data_dir)); [done|].
  destruct (rglob_gz f data_dir) as [|g gs] eqn:Hglob; [done|].
  rewrite <- Hglob in *. set (gz_files := rglob_gz f data_dir) in *.
  fold (total_batches gz_files) in Hmain.
  destruct (batch_loop fault gunzip str_exn None as_completed started_more gz_files
              (total_batches gz_files) (Z.to_nat (total_batches gz_files))
              1 0 [] {| fs := f; clock := 0; log := [] |})
    as [[[ts tf]|e] st1] eqn:Hloop; [|done].
  injection Hmain as <- _. cbn [total_failed].
  set (order := concat (map as_completed (map (nth_batch gz_files)
                  (map (fun i => 1 + Z.of_nat i)
                     (seq 0 (Z.to_nat (total_batches gz_files))))))).
  assert (order ≡ₚ gz_files) as Horder.
  { unfold order. rewrite concat_perm by done.
    change (map (fun i => 1 + Z.of_nat i) (seq 0 ?k)) with (batch_range 1 k).
    by rewrite (batches_cover gz_files). }
  assert (Forall is_tile gz_files) as Hall.
  { apply Forall_forall. intros p Hp. by eapply tile_of_name, rglob_gz_names. }
  pose proof (rglob_gz_NoDup f data_dir) as Hnd. fold gz_files in Hnd.
  assert (Forall is_tile order) as Hall' by (by rewrite Horder).
  assert (NoDup order) as Hnd' by (by rewrite Horder).
  apply (batches_failures fault gunzip str_exn as_completed started_more gz_files _ _ 0%nat)
    in Hloop as [Hlen Hret]; [|exact Hall'|exact Hnd'].
  fold order in Hlen, Hret. cbn [fs length] in Hlen, Hret. rewrite Hlen. simpl.
  rewrite Horder in Hret.
  rewrite (Permutation_length (filter_perm (task_fails fault gunzip str_exn f) _ _ Horder)).
  subst order gz_files.
  apply Permutation_length, NoDup_Permutation.
  - apply rglob_gz_NoDup.
  - by apply NoDup_ListNoDup, List.NoDup_filter, NoDup_ListNoDup.
  - intros k. rewrite (remaining_are_failures fault gunzip str_exn f data_dir k Hret).
    split.
    + intros [Hin Hfail]. apply list_elem_of_In, filter_In.
      split; [by apply list_elem_of_In|done].
    + intros [Hin Hfail]%list_elem_of_In%filter_In.
      split; [by apply list_elem_of_In|done].
Qed.

Lemma uninterrupted_run_remaining_witness :
  exists r st,
    main no_fault sample_gunzip sample_str_exn None (fun l => l) (fun _ => 0%nat)
      damaged_tree = (Finished r, st)
    /\ remaining r = length (total_failed r)
    /\ (total_failed r = [] -> rglob_gz (fs st) data_dir = []).
Proof.
  eexists. eexists. split; [vm_compute; reflexivity|].
  apply (uninterrupted_run_remaining no_fault sample_gunzip sample_str_exn (fun l => l)
           (fun _ => 0%nat) damaged_tree).
  - intros l. reflexivity.
  - vm_compute. reflexivity.
Defined.

End MapzenMore.
